(** * procs-need-restart: a shallow embedding of [src/procs-need-restart.c]

    The program walks the process table and reports the processes whose
    executable or mapped files were deleted or replaced on disk.  Every C
    function of the source is rendered here as a Rocq function of the same
    name.  The operating system is a read-only snapshot ([world]) consulted
    through the system calls the source makes; what the program does to
    the outside is a trace of [event]s (the lines written to the two
    output streams and the calls that read the system).  Calls that only
    release a resource ([close], [munmap], [fclose], [closedir], [free])
    leave no event.

    C strings are [string]s without an inner NUL, [int] and [unsigned long]
    values are [Z]s with the bounds written out, the global [flags] word is
    an explicit argument. *)

From Stdlib Require Import ZArith String Ascii List Bool Lia.
From Stdlib Require Import DecimalString HexadecimalString.
From Stdlib Require DecimalFacts DecimalPos DecimalN.
From Stdlib Require HexadecimalFacts HexadecimalPos HexadecimalN.
From Equations Require Import Equations.
Import ListNotations.

Local Open Scope string_scope.
Local Open Scope list_scope.
Local Open Scope Z_scope.

(** ** Constants of the source and of the C library *)

Definition EXIT_SUCCESS : Z := 0.
Definition EXIT_FAILURE : Z := 1.
Definition EXIT_WRONG_USAGE : Z := 100.
Definition RET_ERROR : Z := -1.

Definition FLAG_VERBOSE : Z := 1.
Definition FLAG_IGNORE_EACCES : Z := 2.

Definition PROCFS_PATH : string := "/proc".
Definition PROGNAME : string := "procs-need-restart".

Definition PATH_MAX : Z := 4096.
Definition INT_MAX : Z := 2147483647.
Definition ULONG_MAX : Z := 18446744073709551615.
Definition EOF : Z := -1.

Definition nl : string := String "010" EmptyString.
Definition tab : string := String "009" EmptyString.

(** [flags & bit], read as a C truth value. *)
Definition flag_set (flags bit : Z) : bool := negb (Z.land flags bit =? 0).

(** ** Error numbers *)

Inductive errno : Type :=
| EPERM | ENOENT | ESRCH | EIO | ENOMEM | EACCES | EINVAL | EMFILE
| ENAMETOOLONG | ERANGE.

Definition errno_eqb (a b : errno) : bool :=
  match a, b with
  | EPERM, EPERM | ENOENT, ENOENT | ESRCH, ESRCH | EIO, EIO
  | ENOMEM, ENOMEM | EACCES, EACCES | EINVAL, EINVAL | EMFILE, EMFILE
  | ENAMETOOLONG, ENAMETOOLONG | ERANGE, ERANGE => true
  | _, _ => false
  end.

Definition strerror (e : errno) : string :=
  match e with
  | EPERM => "Operation not permitted"
  | ENOENT => "No such file or directory"
  | ESRCH => "No such process"
  | EIO => "I/O error"
  | ENOMEM => "Out of memory"
  | EACCES => "Permission denied"
  | EINVAL => "Invalid argument"
  | EMFILE => "No file descriptors available"
  | ENAMETOOLONG => "Filename too long"
  | ERANGE => "Result not representable"
  end.

(** Outcome of a system call: its value, or the [errno] it left. *)
Inductive res (A : Type) : Type :=
| Ok (a : A)
| Fail (e : errno).
Arguments Ok {A} a.
Arguments Fail {A} e.

(** ** The system snapshot *)

(** An open file: what [fstat] and [mmap] answer for it.  [st_size] is the
    length of the content. *)
Record file : Type := mkfile {
  f_fstat : option errno;      (* [Some e]: fstat fails with e *)
  f_mmap : option errno;       (* [Some e]: mmap fails with e *)
  f_data : list Byte.byte
}.

Definition st_size (f : file) : Z := Z.of_nat (List.length (f_data f)).

Record world : Type := mkworld {
  geteuid : Z;
  sys_readlink : string -> res string;        (* the whole link target *)
  sys_lstat : string -> res unit;
  sys_kill0 : Z -> res unit;                  (* kill(pid, 0) *)
  sys_fopen : string -> res string;           (* the content of the stream *)
  sys_open : string -> res file;              (* open(path, O_RDONLY) *)
  sys_opendir : string -> res (list string)   (* d_name of each entry, in readdir order *)
}.

(** ** Traces and the output monad *)

Inductive event : Type :=
| Stdout (line : string)
| Stderr (line : string)
| CallReadlink (path : string)
| CallLstat (path : string)
| CallKill (pid : Z)
| CallFopen (path : string)
| CallOpendir (path : string)
| CallOpen (path : string)
| CallFstat (path : string)
| CallMmap (path : string) (len : Z).

Definition io (A : Type) : Type := (A * list event)%type.

Definition ret {A} (a : A) : io A := (a, []).

Definition bind {A B} (m : io A) (k : A -> io B) : io B :=
  let (a, t1) := m in
  let (b, t2) := k a in
  (b, t1 ++ t2).

Definition emit (e : event) : io unit := (tt, [e]).

Notation "x <- m ;; k" := (bind m (fun x => k))
  (at level 61, m at next level, right associativity).
Notation "m ;;; k" := (bind m (fun _ => k))
  (at level 61, right associativity).

(** [log_err(format, ...)]: one line on standard error, program name first. *)
Definition log_err (msg : string) : io unit :=
  emit (Stderr (PROGNAME ++ ": " ++ msg ++ nl)%string).

Definition printf (s : string) : io unit := emit (Stdout s).

(** ** Character classes and number formatting *)

Definition isdigit (c : ascii) : bool :=
  let n := nat_of_ascii c in (48 <=? n)%nat && (n <=? 57)%nat.

Definition isspace (c : ascii) : bool :=
  let n := nat_of_ascii c in
  (n =? 32)%nat || ((9 <=? n)%nat && (n <=? 13)%nat).

Definition digit_val (c : ascii) : Z := Z.of_nat (nat_of_ascii c) - 48.

(** Value of a hexadecimal digit, if [c] is one. *)
Definition xdigit_val (c : ascii) : option Z :=
  let n := nat_of_ascii c in
  if (48 <=? n)%nat && (n <=? 57)%nat then Some (Z.of_nat n - 48)
  else if (97 <=? n)%nat && (n <=? 102)%nat then Some (Z.of_nat n - 87)
  else if (65 <=? n)%nat && (n <=? 70)%nat then Some (Z.of_nat n - 55)
  else None.

(** [%u] of a 32-bit value, [%d] of an [int], [%lx] of a 64-bit value. *)
Definition fmt_u (x : Z) : string :=
  DecimalString.NilZero.string_of_uint (N.to_uint (Z.to_N (x mod 2 ^ 32))).

Definition fmt_d (x : Z) : string :=
  if x <? 0
  then ("-" ++ DecimalString.NilZero.string_of_uint (N.to_uint (Z.to_N (- x))))%string
  else DecimalString.NilZero.string_of_uint (N.to_uint (Z.to_N x)).

Definition fmt_lx (x : Z) : string :=
  HexadecimalString.NilZero.string_of_uint (N.to_hex_uint (Z.to_N (x mod 2 ^ 64))).

(** The four path templates. *)
Definition PROC_EXE_PATH (pid : Z) : string :=
  (PROCFS_PATH ++ "/" ++ fmt_u pid ++ "/exe")%string.

Definition PROC_MAPS_PATH (pid : Z) : string :=
  (PROCFS_PATH ++ "/" ++ fmt_u pid ++ "/maps")%string.

Definition PROC_MAP_FILES_PATH (pid start end_ : Z) : string :=
  (PROCFS_PATH ++ "/" ++ fmt_u pid ++ "/map_files/" ++ fmt_lx start ++ "-" ++ fmt_lx end_)%string.

Definition PROC_ROOT_PATH (pid : Z) (s : string) : string :=
  (PROCFS_PATH ++ "/" ++ fmt_u pid ++ "/root/" ++ s)%string.

Definition strlen (s : string) : Z := Z.of_nat (String.length s).

(** ** str_chomp *)

(** [str_chomp(str, suffix)]: the C function truncates [str] in place and
    answers whether it did; here the truncated string is returned next to
    the answer. *)
Definition str_chomp (str suffix : string) : bool * string :=
  let str_len := String.length str in
  let suffix_len := String.length suffix in
  if (str_len <? suffix_len)%nat then (false, str)
  else if negb (substring (str_len - suffix_len) suffix_len str =? suffix)%string
  then (false, str)
  else (true, substring 0 (str_len - suffix_len) str).

(** ** str_to_uint *)

(** The digits at the head of [s], accumulated in base 10 from [acc], and
    what follows them. *)
Fixpoint scan_dec (s : string) (acc : Z) : Z * string :=
  match s with
  | String c r => if isdigit c then scan_dec r (10 * acc + digit_val c) else (acc, s)
  | EmptyString => (acc, s)
  end.

(** [strtoul(str, &end, 10)] on a string whose first character is a digit:
    value (saturated at [ULONG_MAX]), the rest at [end], and [errno]. *)
Definition strtoul10 (str : string) : Z * string * option errno :=
  let (v, rest) := scan_dec str 0 in
  if ULONG_MAX <? v then (ULONG_MAX, rest, Some ERANGE) else (v, rest, None).

Definition str_to_uint (str : string) : Z :=
  match str with
  | EmptyString => RET_ERROR
  | String c0 _ =>
    if negb (isdigit c0) then RET_ERROR
    else
      let '(r, rest, err) := strtoul10 str in
      let end_is_first :=
        match rest with String e _ => Ascii.eqb e c0 | EmptyString => false end in
      let end_not_nul :=
        match rest with String _ _ => true | EmptyString => false end in
      if (match err with Some _ => true | None => false end)
         || (INT_MAX <? r) || end_is_first || end_not_nul
      then RET_ERROR
      else r
  end.

(** ** Library calls on the snapshot *)

(** [mmap(NULL, len, PROT_READ, MAP_SHARED, fd, 0)].  POSIX: a mapping of
    length zero is refused ("If len is zero, mmap() shall fail"); Linux
    answers [EINVAL]. *)
Definition mmap (f : file) (len : Z) : res (list Byte.byte) :=
  if len =? 0 then Fail EINVAL
  else match f_mmap f with
       | Some e => Fail e
       | None => Ok (f_data f)
       end.

(** [memcmp(a, b, n)]: zero when the first [n] bytes agree, else the sign
    of the first difference. *)
Fixpoint memcmp (a b : list Byte.byte) (n : nat) {struct n} : Z :=
  match n with
  | O => 0
  | S n' =>
    match a, b with
    | x :: a', y :: b' =>
      if (Byte.to_N x <? Byte.to_N y)%N then -1
      else if (Byte.to_N y <? Byte.to_N x)%N then 1
      else memcmp a' b' n'
    | _, _ => 0
    end
  end.

(** The lines [getline] hands out for a stream: each one keeps its
    newline; the last may lack it. *)
Fixpoint getlines (s : string) : list string :=
  match s with
  | EmptyString => []
  | String c r =>
    if Ascii.eqb c "010" then String c EmptyString :: getlines r
    else match getlines r with
         | [] => [String c EmptyString]
         | l :: ls => String c l :: ls
         end
  end.

(** [strerror(errno)] where [errno] may still be 0. *)
Definition strerror0 (e : option errno) : string :=
  match e with
  | Some e => strerror e
  | None => "No error information"
  end.

(** ** The line scanner of [proc_maps_replaced_files] *)

(** Struct for storing selected fields from /proc/<pid>/maps entries. *)
Record map_info : Type := mkmap {
  start : Z;
  end_ : Z;
  dev_major : Z;
  inode : Z;
  filename : string
}.

Definition blank_map : map_info := mkmap 0 0 0 0 EmptyString.

Fixpoint skip_space (s : string) : string :=
  match s with
  | String c r => if isspace c then skip_space r else s
  | EmptyString => s
  end.

Fixpoint scan_digits (dv : ascii -> option Z) (base : Z) (s : string) (acc : Z)
  : Z * string :=
  match s with
  | String c r =>
    match dv c with
    | Some d => scan_digits dv base r (base * acc + d)
    | None => (acc, s)
    end
  | EmptyString => (acc, s)
  end.

(** The sign that may stand before the digits of a numeric field. *)
Definition scan_sign (s : string) : bool * string :=
  match s with
  | String c r =>
    if Ascii.eqb c "-" then (true, r)
    else if Ascii.eqb c "+" then (false, r)
    else (false, s)
  | EmptyString => (false, s)
  end.

(** The [0x] or [0X] that may stand before the digits in base 16. *)
Definition is_x (c : ascii) : bool := Ascii.eqb c "x" || Ascii.eqb c "X".

Definition skip_0x (base : Z) (s : string) : string :=
  match s with
  | String c0 (String c1 r) =>
    if (base =? 16) && Ascii.eqb c0 "0" && is_x c1 then r else s
  | _ => s
  end.

(** An unsigned numeric conversion ([%lx], [%x], [%lu]), whose input has
    the form [strtoul] expects: white space is skipped, then come an
    optional sign, in base 16 an optional [0x] or [0X], and at least one
    digit of the base.  A sign or a prefix with no digit behind it is a
    matching failure, as the C standard has it and as musl does (some
    versions of glibc read a bare [0x] as 0).  The answer is whether the
    sign was [-], the value of the digits, and the rest of the input. *)
Definition scan_uint (dv : ascii -> option Z) (base : Z) (s : string)
  : option (bool * Z * string) :=
  let s := skip_space s in
  let (neg, s) := scan_sign s in
  let s := skip_0x base s in
  match s with
  | String c _ =>
    match dv c with
    | Some _ => let (v, r) := scan_digits dv base s 0 in Some (neg, v, r)
    | None => None
    end
  | EmptyString => None
  end.

Definition dec_val (c : ascii) : option Z :=
  if isdigit c then Some (digit_val c) else None.

(** The [unsigned long] that [strtoul] makes of a sign and the value of
    the digits: [ULONG_MAX] when the digits exceed it; otherwise the
    value, negated in [unsigned long] behind a [-]. *)
Definition strtoul_value (neg : bool) (v : Z) : Z :=
  if ULONG_MAX <? v then ULONG_MAX
  else if neg then (- v) mod 2 ^ 64 else v.

(** [%lx], [%lu]: that value; [%x]: cut to the 32 bits of an
    [unsigned int]. *)
Definition conv_lx (s : string) : option (Z * string) :=
  match scan_uint xdigit_val 16 s with
  | Some (neg, v, r) => Some (strtoul_value neg v, r)
  | None => None
  end.

Definition conv_lu (s : string) : option (Z * string) :=
  match scan_uint dec_val 10 s with
  | Some (neg, v, r) => Some (strtoul_value neg v, r)
  | None => None
  end.

Definition conv_x (s : string) : option (Z * string) :=
  match scan_uint xdigit_val 16 s with
  | Some (neg, v, r) => Some (strtoul_value neg v mod 2 ^ 32, r)
  | None => None
  end.

(** A literal character of the format. *)
Definition lit (c : ascii) (s : string) : option string :=
  match s with
  | String c' r => if Ascii.eqb c' c then Some r else None
  | EmptyString => None
  end.

(** [%*c]: any one character. *)
Definition conv_c (s : string) : option string :=
  match s with
  | String _ r => Some r
  | EmptyString => None
  end.

(** A scanset conversion of width [width]: the longest run (at least one
    character, at most [width]) of characters satisfying [p]. *)
Fixpoint scan_set (p : ascii -> bool) (width : nat) (s : string) : string * string :=
  match width with
  | O => (EmptyString, s)
  | S width' =>
    match s with
    | String c r =>
      if p c then let (a, b) := scan_set p width' r in (String c a, b)
      else (EmptyString, s)
    | EmptyString => (EmptyString, s)
    end
  end.

Definition conv_set (p : ascii -> bool) (width : nat) (s : string)
  : option (string * string) :=
  match scan_set p width s with
  | (EmptyString, _) => None
  | (a, b) => Some (a, b)
  end.

Definition is_blank (c : ascii) : bool := Ascii.eqb c " " || Ascii.eqb c "009".
Definition not_newline (c : ascii) : bool := negb (Ascii.eqb c "010").

(** [sscanf(buf, "%lx-%lx %*c%*c%*c%*c %*x %x:%*x %lu%*[ \t]%4096[^\n]s", ...)]:
    the number of fields assigned ([EOF] when the input ends before the
    first one) and the struct with the fields assigned so far.  The struct
    is written afresh for every line that passes the [< 5] test and is read
    only after that test, so it starts from [blank_map] for each line. *)
Definition sscanf_map (buf : string) : Z * map_info :=
  let m := blank_map in
  match conv_lx buf with
  | None => ((match skip_space buf with EmptyString => EOF | _ => 0 end), m)
  | Some (v1, s) =>
    let m := mkmap v1 (end_ m) (dev_major m) (inode m) (filename m) in
    match lit "-" s with
    | None => (1, m)
    | Some s =>
      match conv_lx s with
      | None => (1, m)
      | Some (v2, s) =>
        let m := mkmap (start m) v2 (dev_major m) (inode m) (filename m) in
        match conv_c (skip_space s) with
        | None => (2, m)
        | Some s =>
          match conv_c s with
          | None => (2, m)
          | Some s =>
            match conv_c s with
            | None => (2, m)
            | Some s =>
              match conv_c s with
              | None => (2, m)
              | Some s =>
                match conv_lx (skip_space s) with
                | None => (2, m)
                | Some (_, s) =>
                  match conv_x (skip_space s) with
                  | None => (2, m)
                  | Some (v3, s) =>
                    let m := mkmap (start m) (end_ m) v3 (inode m) (filename m) in
                    match lit ":" s with
                    | None => (3, m)
                    | Some s =>
                      match conv_lx s with
                      | None => (3, m)
                      | Some (_, s) =>
                        match conv_lu (skip_space s) with
                        | None => (3, m)
                        | Some (v4, s) =>
                          let m := mkmap (start m) (end_ m) (dev_major m) v4 (filename m) in
                          match conv_set is_blank (String.length s) s with
                          | None => (4, m)
                          | Some (_, s) =>
                            match conv_set not_newline (Z.to_nat PATH_MAX) s with
                            | None => (4, m)
                            | Some (v5, _) =>
                              (5, mkmap (start m) (end_ m) (dev_major m) (inode m) v5)
                            end
                          end
                        end
                      end
                    end
                  end
                end
              end
            end
          end
        end
      end
    end
  end.

(** [strncpy(dst, src, n)] for a destination of [n] bytes. *)
Definition strncpy (src : string) (n : Z) : string :=
  substring 0 (Z.to_nat n) src.

Section Program.

(** [fnmatch(pattern, string, flags)] of the C library: 0 on a match. *)
Variable fnmatch : string -> string -> Z -> Z.

Variable w : world.

(** ** fnmatch_any *)

Definition negated_item (item : string) : bool :=
  match item with
  | String c _ => Ascii.eqb c "!"
  | EmptyString => false
  end.

Definition item_glob (item : string) : string :=
  if negated_item item
  then match item with String _ r => r | EmptyString => item end
  else item.

(** [patterns] is the array up to its NULL terminator. *)
Fixpoint fnmatch_any (patterns : list string) (str : string) (flags : Z) : bool :=
  match patterns with
  | [] => false
  | item :: rest =>
    let negated := negated_item item in
    if fnmatch (item_glob item) str flags =? 0
    then xorb true negated
    else fnmatch_any rest str flags
  end.

(** The test both callers make: [file_patterns[0] && !fnmatch_any(...)]
    skips the path; the path is kept otherwise. *)
Definition excluded (file_patterns : list string) (path : string) : bool :=
  (match file_patterns with [] => false | _ :: _ => true end)
  && negb (fnmatch_any file_patterns path 0).

(** ** cmp_files *)

Definition cmp_files (fname1 fname2 : string) : io Z :=
  emit (CallOpen fname1) ;;;
  match sys_open w fname1 with
  | Fail _ => ret RET_ERROR
  | Ok fd1 =>
    emit (CallOpen fname2) ;;;
    match sys_open w fname2 with
    | Fail _ => ret RET_ERROR
    | Ok fd2 =>
      emit (CallFstat fname1) ;;;
      match f_fstat fd1 with
      | Some _ => ret RET_ERROR
      | None =>
        emit (CallFstat fname2) ;;;
        match f_fstat fd2 with
        | Some _ => ret RET_ERROR
        | None =>
          if negb (st_size fd1 =? st_size fd2) then ret 1
          else
            let size := st_size fd1 in
            emit (CallMmap fname1 size) ;;;
            match mmap fd1 size with
            | Fail e =>
              log_err (fname1 ++ ": " ++ strerror e)%string ;;; ret RET_ERROR
            | Ok addr1 =>
              emit (CallMmap fname2 size) ;;;
              match mmap fd2 size with
              | Fail e =>
                log_err (fname2 ++ ": " ++ strerror e)%string ;;; ret RET_ERROR
              | Ok addr2 =>
                ret (if memcmp addr1 addr2 (Z.to_nat size) =? 0 then 0 else 1)
              end
            end
        end
      end
    end
  end.

(** ** next_pid *)

(** The directory stream is the list of entry names still to be read; the
    pid found (or -1) comes back with what is left of the stream. *)
Fixpoint next_pid (proc_dir : list string) : Z * list string :=
  match proc_dir with
  | [] => (-1, [])
  | d_name :: rest =>
    let pid := str_to_uint d_name in
    if negb (pid =? -1) then (pid, rest) else next_pid rest
  end.

(** ** is_kernel_proc *)

Definition is_kernel_proc (pid : Z) : io bool :=
  let exe_path := PROC_EXE_PATH pid in
  emit (CallReadlink exe_path) ;;;
  match sys_readlink w exe_path with
  | Fail e =>
    if errno_eqb e ENOENT then
      emit (CallLstat exe_path) ;;;
      ret (match sys_lstat w exe_path with Ok _ => true | Fail _ => false end)
    else ret false
  | Ok _ => ret false
  end.

(** ** proc_exists *)

Definition proc_exists (pid : Z) : io Z :=
  emit (CallKill pid) ;;;
  match sys_kill0 w pid with
  | Ok _ => ret 0
  | Fail e => if errno_eqb e ESRCH then ret 1 else ret RET_ERROR
  end.

(** ** resolve_link *)

(** Answers the return value, the buffer and [errno] (cleared first).
    [readlink(pathname, buff, buff_size - 1)] refuses a buffer size that
    is not positive with [EINVAL], before it looks at the link; otherwise
    it places at most [buff_size - 1] bytes and cuts a longer target
    short. *)
Definition resolve_link (pathname : string) (buff_size : Z)
  : io (Z * string * option errno) :=
  emit (CallReadlink pathname) ;;;
  if buff_size - 1 <=? 0 then ret (RET_ERROR, EmptyString, Some EINVAL)
  else
    match sys_readlink w pathname with
    | Fail e => ret (RET_ERROR, EmptyString, Some e)
    | Ok target =>
      let size := Z.min (strlen target) (buff_size - 1) in
      if buff_size <=? size then ret (RET_ERROR, EmptyString, None)
      else ret (0, substring 0 (Z.to_nat size) target, None)
    end.

Definition errno_is (e : option errno) (x : errno) : bool :=
  match e with
  | Some e => errno_eqb e x
  | None => false
  end.

(** ** proc_has_replaced_exe *)

Definition proc_has_replaced_exe (flags pid : Z) (file_patterns : list string) : io Z :=
  let exe_path := PROC_EXE_PATH pid in
  r <- resolve_link exe_path PATH_MAX ;;
  let '(rc, link_path, link_err) := r in
  if rc <? 0 then
    if errno_is link_err EACCES && flag_set flags FLAG_IGNORE_EACCES then ret 1
    else
      gone <- proc_exists pid ;;
      if gone =? 1 then ret 1
      else
        log_err (exe_path ++ ": " ++ strerror0 link_err)%string ;;;
        ret RET_ERROR
  else
    let (deleted, link_path) := str_chomp link_path " (deleted)" in
    if negb deleted then ret 1
    else
      let link_path := snd (str_chomp link_path ".apk-new") in
      if excluded file_patterns link_path then ret 1
      else
        let file_path := PROC_ROOT_PATH pid link_path in
        let len := strlen file_path in
        identical <-
          (if (len <=? 0) || (PATH_MAX <=? len) then
             log_err ("too long file path: " ++ file_path)%string ;;; ret false
           else
             c <- cmp_files exe_path file_path ;; ret (c =? 0)) ;;
        if identical then ret 1
        else
          (if flag_set flags FLAG_VERBOSE
           then printf (fmt_d pid ++ tab ++ link_path ++ nl)%string
           else printf (fmt_d pid ++ nl)%string) ;;;
          ret 0.


(** ** proc_maps_replaced_files *)

(** The [while (getline(...) != -1)] loop, over the lines still to come.
    [last_filename] and [res] are the two locals that live across
    iterations. *)
Fixpoint maps_loop (flags pid : Z) (file_patterns : list string)
    (lines : list string) (last_filename : string) (res : Z) : io Z :=
  match lines with
  | [] => ret res
  | buf :: rest =>
    let (deleted, buf) := str_chomp buf (" (deleted)" ++ nl)%string in
    if negb deleted then maps_loop flags pid file_patterns rest last_filename res
    else
      let buf := snd (str_chomp buf ".apk-new") in
      let (n, map) := sscanf_map buf in
      if n <? 5 then maps_loop flags pid file_patterns rest last_filename res
      else if (filename map =? last_filename)%string
      then maps_loop flags pid file_patterns rest last_filename res
      else
        let last_filename := strncpy (filename map) (PATH_MAX + 1) in
        if (inode map =? 0) || (dev_major map =? 0)
        then maps_loop flags pid file_patterns rest last_filename res
        else if excluded file_patterns (filename map)
        then maps_loop flags pid file_patterns rest last_filename res
        else
          let buf := PROC_MAP_FILES_PATH pid (start map) (end_ map) in
          c <- cmp_files (filename map) buf ;;
          if c =? 0 then maps_loop flags pid file_patterns rest last_filename res
          else
            if flag_set flags FLAG_VERBOSE then
              printf (fmt_d pid ++ tab ++ filename map ++ nl)%string ;;;
              maps_loop flags pid file_patterns rest last_filename 0
            else
              printf (fmt_d pid ++ nl)%string ;;;
              ret 0
  end.

Definition proc_maps_replaced_files (flags pid : Z) (file_patterns : list string) : io Z :=
  let maps_path := PROC_MAPS_PATH pid in
  emit (CallFopen maps_path) ;;;
  match sys_fopen w maps_path with
  | Fail fopen_err =>
    if errno_eqb fopen_err EACCES && flag_set flags FLAG_IGNORE_EACCES then ret 1
    else
      gone <- proc_exists pid ;;
      if gone =? 1 then ret 1
      else
        log_err (maps_path ++ ": " ++ strerror fopen_err)%string ;;;
        ret RET_ERROR
  | Ok maps_fp =>
    maps_loop flags pid file_patterns (getlines maps_fp) EmptyString 1
  end.

(** *** The loop seen as a parser feeding a checker

    The three definitions below cut the body of [maps_loop] in two at the
    [strncpy] line; [maps_loop_entries] (further down) shows that the loop
    is their composition. *)

(** What one line yields up to the [sscanf] test: nothing when the line
    lacks the deletion marker or has too few fields. *)
Definition line_entry (buf : string) : option map_info :=
  let (deleted, buf) := str_chomp buf (" (deleted)" ++ nl)%string in
  if negb deleted then None
  else
    let buf := snd (str_chomp buf ".apk-new") in
    let (n, map) := sscanf_map buf in
    if n <? 5 then None else Some map.

(** The entries that get past the [strcmp] against [last_filename]. *)
Fixpoint entries (lines : list string) (last_filename : string) : list map_info :=
  match lines with
  | [] => []
  | buf :: rest =>
    match line_entry buf with
    | None => entries rest last_filename
    | Some map =>
      if (filename map =? last_filename)%string then entries rest last_filename
      else map :: entries rest (strncpy (filename map) (PATH_MAX + 1))
    end
  end.

(** The rest of the loop body, run over such entries. *)
Fixpoint check_entries (flags pid : Z) (file_patterns : list string)
    (maps : list map_info) (res : Z) : io Z :=
  match maps with
  | [] => ret res
  | map :: rest =>
    if (inode map =? 0) || (dev_major map =? 0)
    then check_entries flags pid file_patterns rest res
    else if excluded file_patterns (filename map)
    then check_entries flags pid file_patterns rest res
    else
      c <- cmp_files (filename map) (PROC_MAP_FILES_PATH pid (start map) (end_ map)) ;;
      if c =? 0 then check_entries flags pid file_patterns rest res
      else
        if flag_set flags FLAG_VERBOSE then
          printf (fmt_d pid ++ tab ++ filename map ++ nl)%string ;;;
          check_entries flags pid file_patterns rest 0
        else
          printf (fmt_d pid ++ nl)%string ;;;
          ret 0
  end.

(** ** scan_proc *)

Definition scan_proc (flags pid : Z) (file_patterns : list string) : io Z :=
  res1 <- proc_has_replaced_exe flags pid file_patterns ;;
  if res1 =? RET_ERROR then ret RET_ERROR
  else if (res1 =? 0) && negb (flag_set flags FLAG_VERBOSE) then ret 0
  else
    res2 <- proc_maps_replaced_files flags pid file_patterns ;;
    ret (res1 * res2).

(** ** scan_procs *)

(** [pids] is the array with its -1 terminator; the walk stops there. *)
Fixpoint scan_procs_from (flags : Z) (pids : list Z) (file_patterns : list string)
    (status : Z) : io Z :=
  match pids with
  | [] => ret status
  | pid :: rest =>
    if pid =? -1 then ret status
    else
      r <- scan_proc flags pid file_patterns ;;
      scan_procs_from flags rest file_patterns
        (if r <? 0 then EXIT_FAILURE else status)
  end.

Definition scan_procs (flags : Z) (pids : list Z) (file_patterns : list string) : io Z :=
  scan_procs_from flags pids file_patterns EXIT_SUCCESS.

(** The elements of a -1-terminated array that [foreach] visits. *)
Fixpoint visited (pids : list Z) : list Z :=
  match pids with
  | [] => []
  | pid :: rest => if pid =? -1 then [] else pid :: visited rest
  end.

(** ** scan_all_procs *)

Definition inspect {A} (a : A) : {b : A | a = b} := exist _ a eq_refl.

Lemma next_pid_shorter (proc_dir : list string) :
  (List.length (snd (next_pid proc_dir)) <= List.length proc_dir)%nat.
Proof.
  induction proc_dir as [|d rest IH]; simpl; [lia|].
  destruct (negb (str_to_uint d =? -1)); simpl; lia.
Qed.

Lemma next_pid_consumes (proc_dir rest : list string) (pid : Z) :
  next_pid proc_dir = (pid, rest) -> (pid =? -1) = false ->
  (List.length rest < List.length proc_dir)%nat.
Proof.
  destruct proc_dir as [|d tl]; simpl; intros H Hpid.
  - inversion H; subst. discriminate.
  - destruct (negb (str_to_uint d =? -1)).
    + inversion H; subst. lia.
    + pose proof (next_pid_shorter tl) as Hle. rewrite H in Hle. simpl in Hle. lia.
Qed.

(** The [while ((pid = next_pid(dir)) != -1)] loop on what is left of the
    directory stream. *)
Equations? scan_all_from (flags : Z) (file_patterns : list string)
    (dir : list string) (status : Z) : io Z by wf (List.length dir) lt :=
  scan_all_from flags file_patterns dir status with inspect (next_pid dir) := {
    | exist _ (pid, dir') Hnext with inspect (pid =? -1) := {
      | exist _ true _ => ret status
      | exist _ false Hpid =>
        kernel <- is_kernel_proc pid ;;
        if kernel : bool then scan_all_from flags file_patterns dir' status
        else
          r <- scan_proc flags pid file_patterns ;;
          scan_all_from flags file_patterns dir'
            (if r <? 0 then EXIT_FAILURE else status) } }.
Proof.
  all: eapply next_pid_consumes; eauto.
Qed.

Definition scan_all_procs (flags : Z) (file_patterns : list string) : io Z :=
  emit (CallOpendir PROCFS_PATH) ;;;
  match sys_opendir w PROCFS_PATH with
  | Fail e =>
    log_err (PROCFS_PATH ++ ": " ++ strerror e)%string ;;;
    ret EXIT_FAILURE
  | Ok dir =>
    let (pid, dir) := next_pid dir in
    if pid =? -1 then
      log_err "no processes found!" ;;;
      ret EXIT_FAILURE
    else scan_all_from flags file_patterns dir EXIT_SUCCESS
  end.

(** ** main *)

Definition dq : string := String "034" EmptyString.

Definition HELP_MSG : string :=
  ("Usage: " ++ PROGNAME ++ " [options] [PID...]" ++ nl
   ++ nl
   ++ "Find processes that use (maps into memory) files which have been deleted" ++ nl
   ++ "or replaced on disk (and the new files are not identical to the mapped ones)." ++ nl
   ++ "If no PID is specified, scan all processes.  But if user's effective UID is" ++ nl
   ++ "not 0 (i.e. not root), ignore processes we don't have permissions to examine." ++ nl
   ++ nl
   ++ "This program is part of apk-autoupdate." ++ nl
   ++ nl
   ++ "Options:" ++ nl
   ++ "  -f PATT*   Specify paths of mapped files to include/exclude from checking." ++ nl
   ++ "             Syntax is identical with fnmatch(3) with no flags, but with" ++ nl
   ++ "             leading " ++ dq ++ "!" ++ dq ++ " for negative match (exclude). This option may be" ++ nl
   ++ "             repeated." ++ nl
   ++ nl
   ++ "  -v         Report all affected mapped files." ++ nl
   ++ nl
   ++ "  -h         Show this message and exit." ++ nl
   ++ nl
   ++ "  -V         Print program version and exit." ++ nl
   ++ nl
   ++ "Please report bugs at <https://github.com/jirutka/apk-autoupdate/issues>" ++ nl)%string.

Definition VERSION : string := "unknown".

(** [atoi]: white space, an optional sign, then the decimal digits that
    follow; the value is cut to the 32 bits of an [int]. *)
Definition wrap_int (v : Z) : Z := (v + 2 ^ 31) mod 2 ^ 32 - 2 ^ 31.

Definition atoi (s : string) : Z :=
  let s := skip_space s in
  let (neg, s) :=
    match s with
    | String c r =>
      if Ascii.eqb c "-" then (true, r)
      else if Ascii.eqb c "+" then (false, r)
      else (false, s)
    | EmptyString => (false, s)
    end in
  let (v, _) := scan_dec s 0 in
  wrap_int (if neg then - v else v).

(** What the option loop of [main] leaves: either [main] has returned with
    a status, or the flags, the patterns and the operands are known. *)
Inductive options : Type :=
| OptExit (status : Z)
| OptNext (flags : Z) (file_patterns : list string) (took_next : bool).

(** The [switch] of [main] run over the option characters of one argument
    (POSIX [getopt] with the option string "f:hVv").  [next] is the
    argument that follows, if any: [-f] takes it as its [optarg] when
    nothing is left in its own argument. *)
Fixpoint getopt_arg (cs : string) (next : option string) (flags : Z)
    (file_patterns : list string) : io options :=
  match cs with
  | EmptyString => ret (OptNext flags file_patterns false)
  | String optch r =>
    if Ascii.eqb optch "f" then
      match r, next with
      | String _ _, _ => ret (OptNext flags (file_patterns ++ [r]) false)
      | EmptyString, Some optarg => ret (OptNext flags (file_patterns ++ [optarg]) true)
      | EmptyString, None =>
        log_err ("invalid option: -" ++ String optch EmptyString ++ nl)%string ;;;
        emit (Stderr HELP_MSG) ;;;
        ret (OptExit EXIT_WRONG_USAGE)
      end
    else if Ascii.eqb optch "v" then
      getopt_arg r next (Z.lor flags FLAG_VERBOSE) file_patterns
    else if Ascii.eqb optch "h" then
      printf HELP_MSG ;;; ret (OptExit EXIT_SUCCESS)
    else if Ascii.eqb optch "V" then
      printf (PROGNAME ++ " " ++ VERSION ++ nl)%string ;;; ret (OptExit EXIT_SUCCESS)
    else
      log_err ("invalid option: -" ++ String optch EmptyString ++ nl)%string ;;;
      emit (Stderr HELP_MSG) ;;;
      ret (OptExit EXIT_WRONG_USAGE)
  end.

(** An argument is an option argument when it begins with [-] and is not
    [-] alone. *)
Definition option_chars (arg : string) : option string :=
  match arg with
  | String c (String c' r) => if Ascii.eqb c "-" then Some (String c' r) else None
  | _ => None
  end.

(** The [while ((optch = getopt(...)) != -1)] loop over [argv[1..]]:
    the outcome of the switch and the operands left at [optind].  Options
    end at the first operand or at [--]. *)
Fixpoint getopt_loop (args : list string) (flags : Z) (file_patterns : list string)
  : io (options * list string) :=
  match args with
  | [] => ret (OptNext flags file_patterns false, [])
  | arg :: rest =>
    match option_chars arg with
    | None => ret (OptNext flags file_patterns false, args)
    | Some cs =>
      if (cs =? "-")%string then ret (OptNext flags file_patterns false, rest)
      else
        o <- getopt_arg cs (List.hd_error rest) flags file_patterns ;;
        match o with
        | OptExit status => ret (OptExit status, rest)
        | OptNext flags file_patterns took_next =>
          match took_next, rest with
          | true, _ :: rest' => getopt_loop rest' flags file_patterns
          | _, _ => getopt_loop rest flags file_patterns
          end
        end
    end
  end.

(** The [for] loop that fills [pids]: the first operand whose [atoi] is
    below 1 stops it. *)
Fixpoint read_pids (operands : list string) : string + list Z :=
  match operands with
  | [] => inr []
  | arg :: rest =>
    let pid := atoi arg in
    if pid <? 1 then inl arg
    else match read_pids rest with
         | inl bad => inl bad
         | inr pids => inr (pid :: pids)
         end
  end.

Definition main (argv : list string) : io Z :=
  o <- getopt_loop (List.tl argv) 0 [] ;;
  match o with
  | (OptExit status, _) => ret status
  | (OptNext flags file_patterns _, operands) =>
    match operands with
    | _ :: _ =>
      match read_pids operands with
      | inl arg =>
        log_err ("invalid argument: " ++ arg)%string ;;;
        ret EXIT_WRONG_USAGE
      | inr pids => scan_procs flags (pids ++ [-1]) file_patterns
      end
    | [] =>
      let flags :=
        if negb (geteuid w =? 0) then Z.lor flags FLAG_IGNORE_EACCES else flags in
      scan_all_procs flags file_patterns
    end
  end.

End Program.

(** ** A model of the C library's [fnmatch] with no flags

    [fnmatch] is not code of the program; the functions above take it as a
    parameter.  For the concrete runs below, this is the matcher of POSIX
    shell patterns with no flags set: [*] matches any string, [?] any one
    character (a slash or a leading dot is an ordinary character), a
    backslash quotes the next character, and a bracket expression lists
    characters and ranges, complemented by a leading [!] or [^].  Named
    character classes are not recognised. *)
Module Glob.

Inductive tok : Type :=
| TChar (c : ascii)
| TAny
| TStar
| TSet (complement : bool) (ranges : list (ascii * ascii)).

(** The items of a bracket expression up to its closing bracket, and what
    follows it; [None] when the bracket is never closed. *)
Fixpoint items (s : string) (first : bool) (acc : list (ascii * ascii))
  : option (list (ascii * ascii) * string) :=
  match s with
  | EmptyString => None
  | String c r =>
    if Ascii.eqb c "]" && negb first then Some (List.rev acc, r)
    else
      match r with
      | String m (String d r') =>
        if Ascii.eqb m "-" && negb (Ascii.eqb d "]")
        then items r' false ((c, d) :: acc)
        else items r false ((c, c) :: acc)
      | _ => items r false ((c, c) :: acc)
      end
  end.

Definition bracket (s : string) : option (tok * string) :=
  let (complement, body) :=
    match s with
    | String c r =>
      if Ascii.eqb c "!" || Ascii.eqb c "^" then (true, r) else (false, s)
    | EmptyString => (false, s)
    end in
  match items body true [] with
  | Some (ranges, rest) => Some (TSet complement ranges, rest)
  | None => None
  end.

Fixpoint tokens (fuel : nat) (p : string) : list tok :=
  match fuel with
  | O => []
  | S fuel' =>
    match p with
    | EmptyString => []
    | String c r =>
      if Ascii.eqb c "*" then TStar :: tokens fuel' r
      else if Ascii.eqb c "?" then TAny :: tokens fuel' r
      else if Ascii.eqb c "\" then
        match r with
        | String q r' => TChar q :: tokens fuel' r'
        | EmptyString => [TChar c]
        end
      else if Ascii.eqb c "[" then
        match bracket r with
        | Some (t, rest) => t :: tokens fuel' rest
        | None => TChar c :: tokens fuel' r
        end
      else TChar c :: tokens fuel' r
    end
  end.

Definition in_range (c : ascii) (r : ascii * ascii) : bool :=
  let n := nat_of_ascii c in
  (nat_of_ascii (fst r) <=? n)%nat && (n <=? nat_of_ascii (snd r))%nat.

Fixpoint matches (ts : list tok) (s : string) : bool :=
  match ts with
  | [] => match s with EmptyString => true | _ => false end
  | TChar c :: ts' =>
    match s with
    | String d r => Ascii.eqb c d && matches ts' r
    | EmptyString => false
    end
  | TAny :: ts' =>
    match s with
    | String _ r => matches ts' r
    | EmptyString => false
    end
  | TSet complement ranges :: ts' =>
    match s with
    | String d r =>
      xorb complement (List.existsb (in_range d) ranges) && matches ts' r
    | EmptyString => false
    end
  | TStar :: ts' =>
    (fix star (s : string) : bool :=
       matches ts' s
       || match s with
          | String _ r => star r
          | EmptyString => false
          end) s
  end.

Definition FNM_NOMATCH : Z := 1.

(** [fnmatch(pattern, str, 0)]. *)
Definition fnmatch (pattern str : string) (flags : Z) : Z :=
  if matches (tokens (String.length pattern) pattern) str then 0 else FNM_NOMATCH.

End Glob.

(** ** The specification's wording, for comparison *)

(** Filter rules as the specification words them: an empty list selects
    every path; otherwise the first rule whose glob matches decides, by
    its polarity; no match selects nothing. *)
Definition spec_matches (fnmatch : string -> string -> Z -> Z)
    (rules : list string) (path : string) : bool :=
  match rules with
  | [] => true
  | _ :: _ =>
    match List.find (fun rule => fnmatch (item_glob rule) path 0 =? 0) rules with
    | Some rule => negb (negated_item rule)
    | None => false
    end
  end.

(** Adjacent deduplication as the specification words it: a record is
    dropped when its filename equals the one emitted just before. *)
Fixpoint spec_collapse (last : string) (maps : list map_info) : list map_info :=
  match maps with
  | [] => []
  | map :: rest =>
    if (filename map =? last)%string then spec_collapse last rest
    else map :: spec_collapse (filename map) rest
  end.

(** No entry repeats the filename just before it ([last] before the
    first). *)
Fixpoint no_repeat (last : string) (maps : list map_info) : Prop :=
  match maps with
  | [] => True
  | map :: rest => filename map <> last /\ no_repeat (filename map) rest
  end.

(** The records of a stream that carry the deletion marker and scan. *)
Fixpoint spec_records (lines : list string) : list map_info :=
  match lines with
  | [] => []
  | buf :: rest =>
    match line_entry buf with
    | Some map => map :: spec_records rest
    | None => spec_records rest
    end
  end.

(** ** Sample systems

    Snapshots given by tables; what a table does not list is absent
    ([ENOENT], or [ESRCH] for a process). *)

Fixpoint lookup {A : Type} (key : string) (table : list (string * A)) : option A :=
  match table with
  | [] => None
  | (k, v) :: rest => if (k =? key)%string then Some v else lookup key rest
  end.

Fixpoint lookup_pid {A : Type} (key : Z) (table : list (Z * A)) : option A :=
  match table with
  | [] => None
  | (k, v) :: rest => if k =? key then Some v else lookup_pid key rest
  end.

Definition from_table {A : Type} (table : list (string * res A)) (key : string) : res A :=
  match lookup key table with
  | Some r => r
  | None => Fail ENOENT
  end.

Definition table_world (euid : Z)
    (links : list (string * res string))
    (entries : list (string * res unit))
    (procs : list (Z * res unit))
    (streams : list (string * res string))
    (files : list (string * res file))
    (dirs : list (string * res (list string))) : world :=
  mkworld euid
    (from_table links)
    (from_table entries)
    (fun pid => match lookup_pid pid procs with Some r => r | None => Fail ESRCH end)
    (from_table streams)
    (from_table files)
    (from_table dirs).

Definition regular (data : list Byte.byte) : file := mkfile None None data.

(** Root runs a full scan.  Process 1 runs a deleted /sbin/init whose
    replacement differs; process 42 runs an untouched /usr/bin/foo and
    maps nothing that was deleted. *)
Definition two_procs : world :=
  table_world 0
    [("/proc/1/exe", Ok "/sbin/init (deleted)"); ("/proc/42/exe", Ok "/usr/bin/foo")]
    [("/proc/1/exe", Ok tt); ("/proc/42/exe", Ok tt)]
    [(1, Ok tt); (42, Ok tt)]
    [("/proc/1/maps", Ok EmptyString); ("/proc/42/maps", Ok EmptyString)]
    [("/proc/1/exe", Ok (regular [Byte.x01; Byte.x02]));
     ("/proc/1/root//sbin/init", Ok (regular [Byte.x01; Byte.x03]))]
    [("/proc", Ok ["."; ".."; "cpuinfo"; "1"; "42"])].

(** Process 42 runs a deleted /usr/bin/foo whose replacement differs, and
    its maps stream cannot be opened (I/O error) although it is alive. *)
Definition stale_exe_broken_maps : world :=
  table_world 0
    [("/proc/42/exe", Ok "/usr/bin/foo (deleted)")]
    [("/proc/42/exe", Ok tt)]
    [(42, Ok tt)]
    [("/proc/42/maps", Fail EIO)]
    [("/proc/42/exe", Ok (regular [Byte.x01; Byte.x02]));
     ("/proc/42/root//usr/bin/foo", Ok (regular [Byte.x01; Byte.x03]))]
    [("/proc", Ok ["."; ".."; "42"])].

(** Two empty regular files. *)
Definition empty_files : world :=
  table_world 0 [] [] [] []
    [("/a", Ok (regular [])); ("/b", Ok (regular []))]
    [].

(** An ordinary user looks at process 7 of another user: its executable
    link and its maps stream are denied, and so is signalling it. *)
Definition foreign_proc : world :=
  table_world 1000
    [("/proc/7/exe", Fail EACCES)]
    [("/proc/7/exe", Ok tt)]
    [(7, Fail EPERM)]
    [("/proc/7/maps", Fail EACCES)]
    []
    [("/proc", Ok ["."; ".."; "1"; "7"])].

(** Lines of a maps stream.  [maps_line perms path] is a record of the
    library file region with the given permission field and path text. *)
Definition maps_line (perms path : string) : string :=
  ("7f1c2a000000-7f1c2a021000 " ++ perms ++ " 00000000 08:01 131090"
   ++ "                     " ++ path ++ nl)%string.

Definition libfoo : map_info :=
  mkmap 139758940454912 139758940590080 8 131090 "/usr/lib/libfoo.so.1".

Definition libbar : map_info :=
  mkmap 139758940454912 139758940590080 8 131090 "/usr/lib/libbar.so.2".

(** Process 42 runs /usr/bin/foo, replaced through a staged
    /usr/bin/foo.apk-new, and maps a library replaced the same way; both
    replacements are gone from the disk again. *)
Definition staged_upgrade : world :=
  table_world 0
    [("/proc/42/exe", Ok "/usr/bin/foo.apk-new (deleted)")]
    [("/proc/42/exe", Ok tt)]
    [(42, Ok tt)]
    [("/proc/42/maps", Ok (maps_line "r-xp" "/usr/lib/libfoo.so.1.apk-new (deleted)"))]
    [("/proc/42/exe", Ok (regular [Byte.x01; Byte.x02]));
     ("/proc/42/map_files/7f1c2a000000-7f1c2a021000", Ok (regular [Byte.x07]))]
    [("/proc", Ok ["."; ".."; "42"])].

(** ** Reading traces and inputs

    Observers used to state what a run wrote and what it looked at. *)

(** The lines written to standard output, in order. *)
Fixpoint stdout_of (t : list event) : list string :=
  match t with
  | [] => []
  | Stdout line :: rest => line :: stdout_of rest
  | _ :: rest => stdout_of rest
  end.

(** The lines written to standard error, in order. *)
Fixpoint stderr_of (t : list event) : list string :=
  match t with
  | [] => []
  | Stderr line :: rest => line :: stderr_of rest
  | _ :: rest => stderr_of rest
  end.

(** The events that are calls into the system. *)
Definition is_call (e : event) : bool :=
  match e with
  | Stdout _ | Stderr _ => false
  | _ => true
  end.

(** The files a run opened with [open], in order. *)
Fixpoint opened (t : list event) : list string :=
  match t with
  | [] => []
  | CallOpen path :: rest => path :: opened rest
  | _ :: rest => opened rest
  end.

(** The line both checks print for a finding: [pid] alone, or [pid] and
    the path in verbose mode. *)
Definition report_line (flags pid : Z) (path : string) : string :=
  if flag_set flags FLAG_VERBOSE
  then (fmt_d pid ++ tab ++ path ++ nl)%string
  else (fmt_d pid ++ nl)%string.

Fixpoint all_digits (s : string) : bool :=
  match s with
  | EmptyString => true
  | String c r => isdigit c && all_digits r
  end.

(** The process identifiers a directory stream holds, in [readdir] order. *)
Fixpoint dir_pids (proc_dir : list string) : list Z :=
  match proc_dir with
  | [] => []
  | d_name :: rest =>
    if negb (str_to_uint d_name =? -1) then str_to_uint d_name :: dir_pids rest
    else dir_pids rest
  end.

(** An entry that stands for a file: neither inode nor device major is 0. *)
Definition real_file (map : map_info) : bool :=
  negb ((inode map =? 0) || (dev_major map =? 0)).

(** A line that carries the deletion marker before its newline. *)
Definition has_marker (buf : string) : bool :=
  fst (str_chomp buf (" (deleted)" ++ nl)%string).

(** The value of a decimal numeral read from its first digit on, [acc]
    being the value of the digits already read. *)
Fixpoint uval (d : Decimal.uint) (acc : Z) : Z :=
  match d with
  | Decimal.Nil => acc
  | Decimal.D0 d => uval d (10 * acc)
  | Decimal.D1 d => uval d (10 * acc + 1)
  | Decimal.D2 d => uval d (10 * acc + 2)
  | Decimal.D3 d => uval d (10 * acc + 3)
  | Decimal.D4 d => uval d (10 * acc + 4)
  | Decimal.D5 d => uval d (10 * acc + 5)
  | Decimal.D6 d => uval d (10 * acc + 6)
  | Decimal.D7 d => uval d (10 * acc + 7)
  | Decimal.D8 d => uval d (10 * acc + 8)
  | Decimal.D9 d => uval d (10 * acc + 9)
  end.

(** A string that does not go on with a decimal digit. *)
Definition no_digit_ahead (s : string) : bool :=
  match s with
  | String c _ => negb (isdigit c)
  | EmptyString => true
  end.

(** An entry the maps loop reports: a real file that the rules keep and
    whose comparison with the mapped file does not answer 0. *)
Definition stale_entry (fnmatch : string -> string -> Z -> Z) (w : world)
    (pid : Z) (file_patterns : list string) (map : map_info) : bool :=
  real_file map
  && negb (excluded fnmatch file_patterns (filename map))
  && negb (fst (cmp_files w (filename map)
                  (PROC_MAP_FILES_PATH pid (start map) (end_ map))) =? 0).

(** A name of 4084 characters: longer than [PATH_MAX] once it stands
    under the root of a process, short enough for a link target. *)
Definition long_name : string :=
  string_of_list_ascii ("/"%char :: List.repeat "a"%char 4083).

(** Process 42 runs a deleted executable of that name. *)
Definition long_exe : world :=
  table_world 0
    [("/proc/42/exe", Ok (long_name ++ " (deleted)")%string)]
    [("/proc/42/exe", Ok tt)]
    [(42, Ok tt)]
    [("/proc/42/maps", Ok EmptyString)]
    []
    [("/proc", Ok ["."; ".."; "42"])].

(** Process 42 is gone: nothing of it is left under /proc and signalling
    it finds no such process. *)
Definition gone_proc : world :=
  table_world 0 [] [] [(42, Fail ESRCH)] [] [] [("/proc", Ok ["."; ".."; "1"])].

(** Every character of a string satisfies [p]. *)
Fixpoint string_forall (p : ascii -> bool) (s : string) : bool :=
  match s with
  | EmptyString => true
  | String c r => p c && string_forall p r
  end.

(** The value of a hexadecimal numeral read from its first digit on. *)
Fixpoint hval (d : Hexadecimal.uint) (acc : Z) : Z :=
  match d with
  | Hexadecimal.Nil => acc
  | Hexadecimal.D0 d => hval d (16 * acc + 0)
  | Hexadecimal.D1 d => hval d (16 * acc + 1)
  | Hexadecimal.D2 d => hval d (16 * acc + 2)
  | Hexadecimal.D3 d => hval d (16 * acc + 3)
  | Hexadecimal.D4 d => hval d (16 * acc + 4)
  | Hexadecimal.D5 d => hval d (16 * acc + 5)
  | Hexadecimal.D6 d => hval d (16 * acc + 6)
  | Hexadecimal.D7 d => hval d (16 * acc + 7)
  | Hexadecimal.D8 d => hval d (16 * acc + 8)
  | Hexadecimal.D9 d => hval d (16 * acc + 9)
  | Hexadecimal.Da d => hval d (16 * acc + 10)
  | Hexadecimal.Db d => hval d (16 * acc + 11)
  | Hexadecimal.Dc d => hval d (16 * acc + 12)
  | Hexadecimal.Dd d => hval d (16 * acc + 13)
  | Hexadecimal.De d => hval d (16 * acc + 14)
  | Hexadecimal.Df d => hval d (16 * acc + 15)
  end.

(** A string that does not go on with a hexadecimal digit. *)
Definition no_xdigit_ahead (s : string) : bool :=
  match s with
  | String c _ => match xdigit_val c with Some _ => false | None => true end
  | EmptyString => true
  end.



(** Digits of a base, given by its digit-value function, and the value of
    a string of such digits on its own. *)
Definition is_digit_of (dv : ascii -> option Z) (c : ascii) : bool :=
  match dv c with Some _ => true | None => false end.

Definition field_value (dv : ascii -> option Z) (base : Z) (digits : string) : Z :=
  fst (scan_digits dv base digits 0).

(** A string that starts with a character satisfying [p]. *)
Definition starts_with (p : ascii -> bool) (s : string) : bool :=
  match s with
  | String c _ => p c
  | EmptyString => false
  end.

(** A character that is neither white space, nor a sign, nor the [x] of
    a hexadecimal prefix. *)
Definition plain_char (c : ascii) : bool :=
  negb (isspace c) && negb (Ascii.eqb c "-") && negb (Ascii.eqb c "+")
  && negb (is_x c).

(** * Properties *)

(** ** The model at work *)

Example str_to_uint_pid : str_to_uint "4242" = 4242.
Proof. reflexivity. Qed.

Example str_to_uint_name : str_to_uint "cpuinfo" = RET_ERROR.
Proof. reflexivity. Qed.

Example str_to_uint_trailing : str_to_uint "12a" = RET_ERROR.
Proof. reflexivity. Qed.

Example str_to_uint_too_big : str_to_uint "2147483648" = RET_ERROR.
Proof. reflexivity. Qed.

Example atoi_readings :
  List.map atoi ["17"; " 12"; "+4"; "3x"; "0"; "-5"; "abc"; ""] = [17; 12; 4; 3; 0; -5; 0; 0].
Proof. reflexivity. Qed.

Example str_chomp_marker :
  str_chomp "/usr/bin/foo.apk-new (deleted)" " (deleted)" = (true, "/usr/bin/foo.apk-new").
Proof. reflexivity. Qed.

Example str_chomp_absent : str_chomp "/usr/bin/foo" ".apk-new" = (false, "/usr/bin/foo").
Proof. reflexivity. Qed.

Example getlines_stream :
  getlines ("ab" ++ nl ++ nl ++ "cd") = [("ab" ++ nl)%string; nl; "cd"].
Proof. reflexivity. Qed.

Example sscanf_map_record :
  sscanf_map
    "7f1c2a000000-7f1c2a021000 r-xp 00000000 08:01 131090                     /usr/lib/libfoo.so.1"
  = (5, libfoo).
Proof. vm_compute. reflexivity. Qed.

Example sscanf_map_anonymous :
  fst (sscanf_map "7ffd1c000000-7ffd1c021000 rw-p 00000000 00:00 0 ") = 4.
Proof. vm_compute. reflexivity. Qed.

(** Numbers with a prefix or a sign, which [sscanf] takes as [strtoul]
    does; a prefix with no digit behind it stops the scan. *)
Example sscanf_map_prefixed :
  sscanf_map "0x7f00-0X7f10 r-xp 0 08:01 -12 /x"
  = (5, mkmap 32512 32528 8 18446744073709551604 "/x").
Proof. vm_compute. reflexivity. Qed.

Example sscanf_map_bare_prefix :
  fst (sscanf_map "7f00-0x r-xp 0 08:01 12 /x") = 1.
Proof. vm_compute. reflexivity. Qed.

Example glob_star_crosses_slash : Glob.fnmatch "*.so" "/usr/liblocal.so" 0 = 0.
Proof. reflexivity. Qed.

Example glob_bracket : Glob.fnmatch "lib[a-c]?.so.[!0]" "libb2.so.1" 0 = 0.
Proof. reflexivity. Qed.

Example glob_no_match : Glob.fnmatch "lib*.so" "/usr/liblocal.so" 0 = Glob.FNM_NOMATCH.
Proof. reflexivity. Qed.

(** ** Strings *)

Lemma length_app (a b : string) :
  String.length (a ++ b) = (String.length a + String.length b)%nat.
Proof.
  induction a as [|c a IH]; simpl; [reflexivity|].
  now rewrite IH.
Qed.

Lemma substring_all (s : string) : substring 0 (String.length s) s = s.
Proof.
  induction s as [|c s IH]; simpl; [reflexivity|].
  now rewrite IH.
Qed.

Lemma substring_head (a b : string) : substring 0 (String.length a) (a ++ b) = a.
Proof.
  induction a as [|c a IH]; simpl.
  - now destruct b.
  - now rewrite IH.
Qed.

Lemma substring_tail (a b : string) :
  substring (String.length a) (String.length b) (a ++ b) = b.
Proof.
  induction a as [|c a IH]; simpl.
  - apply substring_all.
  - exact IH.
Qed.

Lemma substring_short (s : string) (n : nat) :
  (String.length s <= n)%nat -> substring 0 n s = s.
Proof.
  revert n. induction s as [|c s IH]; intros n Hn; simpl in *.
  - now destruct n.
  - destruct n as [|n]; [lia|].
    rewrite IH by lia. reflexivity.
Qed.

(** [str_chomp] removes a suffix that is there. *)
Lemma str_chomp_app (a suffix : string) :
  str_chomp (a ++ suffix) suffix = (true, a).
Proof.
  unfold str_chomp. rewrite length_app.
  replace (String.length a + String.length suffix <? String.length suffix)%nat
    with false by (symmetry; apply Nat.ltb_ge; lia).
  replace (String.length a + String.length suffix - String.length suffix)%nat
    with (String.length a) by lia.
  rewrite substring_tail, String.eqb_refl, substring_head.
  reflexivity.
Qed.

(** A string is given back whole when nothing is removed. *)
Lemma str_chomp_false (str suffix : string) :
  fst (str_chomp str suffix) = false -> snd (str_chomp str suffix) = str.
Proof.
  unfold str_chomp.
  destruct (String.length str <? String.length suffix)%nat; [reflexivity|].
  destruct (substring _ _ str =? suffix)%string; simpl; [discriminate | reflexivity].
Qed.

Lemma substring_split (s : string) (n : nat) :
  (n <= String.length s)%nat ->
  s = (substring 0 n s ++ substring n (String.length s - n) s)%string.
Proof.
  revert n. induction s as [|c s IH]; intros n Hn; simpl in *.
  - now destruct n.
  - destruct n as [|n]; simpl.
    + now rewrite substring_all.
    + f_equal. apply IH. lia.
Qed.

(** What is removed is the suffix: the original is the result followed by
    the suffix. *)
Lemma str_chomp_true (str suffix : string) :
  fst (str_chomp str suffix) = true ->
  str = (snd (str_chomp str suffix) ++ suffix)%string.
Proof.
  unfold str_chomp.
  destruct (String.length str <? String.length suffix)%nat eqn:Hlen; [discriminate|].
  destruct (substring _ _ str =? suffix)%string eqn:Hsuf; simpl; [|discriminate].
  intros _. apply String.eqb_eq in Hsuf. apply Nat.ltb_ge in Hlen.
  remember (String.length suffix) as k eqn:Hk. clear Hk.
  rewrite <- Hsuf.
  pose proof (substring_split str (String.length str - k)%nat) as Hsplit.
  replace (String.length str - (String.length str - k))%nat with k in Hsplit by lia.
  apply Hsplit. lia.
Qed.

(** ** The output monad *)

Lemma bind_ret_l {A B} (a : A) (k : A -> io B) : bind (ret a) k = k a.
Proof. unfold bind, ret. destruct (k a). reflexivity. Qed.

Lemma bind_pair {A B} (a : A) (t : list event) (k : A -> io B) :
  bind (a, t) k = (fst (k a), t ++ snd (k a)).
Proof. unfold bind. destruct (k a). reflexivity. Qed.

Lemma bind_assoc {A B C} (m : io A) (k : A -> io B) (h : B -> io C) :
  bind (bind m k) h = bind m (fun a => bind (k a) h).
Proof.
  unfold bind. destruct m as [a t1]. destruct (k a) as [b t2].
  destruct (h b) as [c t3]. now rewrite app_assoc.
Qed.

Lemma bind_unfold {A B} (m : io A) (k : A -> io B) :
  bind m k = (fst (k (fst m)), snd m ++ snd (k (fst m))).
Proof. destruct m as [a t]. apply bind_pair. Qed.

Lemma io_eta {A} (m : io A) : m = (fst m, snd m).
Proof. now destruct m. Qed.

(** ** The pattern matcher *)

Lemma fnmatch_any_find (fnmatch : string -> string -> Z -> Z)
    (patterns : list string) (path : string) :
  fnmatch_any fnmatch patterns path 0 =
  match List.find (fun rule => fnmatch (item_glob rule) path 0 =? 0) patterns with
  | Some rule => negb (negated_item rule)
  | None => false
  end.
Proof.
  induction patterns as [|item rest IH]; simpl; [reflexivity|].
  destruct (fnmatch (item_glob item) path 0 =? 0); [reflexivity | exact IH].
Qed.

(** C4, as the code has it.  A path is kept by the callers' filter test
    exactly as the specification words it: every path under an empty rule
    list, otherwise by the polarity of the first rule whose glob matches,
    and no path when none does.  With no flags a star also matches
    slashes, so under the rules "*.so", "!lib*.so" the path
    /usr/liblocal.so is kept: the first rule already matches it. *)
Theorem filter_first_match_wins :
  (forall (fnmatch : string -> string -> Z -> Z) (rules : list string) (path : string),
      negb (excluded fnmatch rules path) = spec_matches fnmatch rules path)
  /\ negb (excluded Glob.fnmatch ["*.so"; "!lib*.so"] "/usr/liblocal.so") = true
  /\ negb (excluded Glob.fnmatch ["!*.so"] "/lib/libc.so") = false.
Proof.
  split; [|split; reflexivity].
  intros fnmatch rules path. unfold excluded, spec_matches.
  destruct rules as [|item rest]; [reflexivity|].
  rewrite fnmatch_any_find. simpl negb at 1.
  now rewrite Bool.negb_involutive.
Qed.

(** C4 as stated fails on its example: the matcher does not answer false
    for /usr/liblocal.so under "*.so", "!lib*.so". *)
Lemma filter_example_not_rejected :
  negb (excluded Glob.fnmatch ["*.so"; "!lib*.so"] "/usr/liblocal.so") <> false.
Proof. vm_compute. discriminate. Qed.

(** ** The kernel-process test *)

(** C8.  [is_kernel_proc] answers true exactly when [readlink] on the
    executable link fails with ENOENT while [lstat] on the same entry
    succeeds; a process that is gone, whose entry [lstat] no longer
    finds, is not a kernel process. *)
Theorem is_kernel_proc_exact (w : world) (pid : Z) :
  (fst (is_kernel_proc w pid) = true <->
   sys_readlink w (PROC_EXE_PATH pid) = Fail ENOENT
   /\ sys_lstat w (PROC_EXE_PATH pid) = Ok tt)
  /\ (forall e, sys_lstat w (PROC_EXE_PATH pid) = Fail e ->
                fst (is_kernel_proc w pid) = false).
Proof.
  unfold is_kernel_proc.
  destruct (sys_readlink w (PROC_EXE_PATH pid)) as [target|e] eqn:Hlink; simpl.
  - split; [split; [discriminate | intros [H _]; discriminate] | reflexivity].
  - destruct e; simpl;
      try (split; [split; [discriminate | intros [H _]; discriminate] | reflexivity]).
    destruct (sys_lstat w (PROC_EXE_PATH pid)) as [[]|e'] eqn:Hstat; simpl.
    + split; [split; auto | intros e He; discriminate].
    + split; [split; [discriminate | intros [_ H]; discriminate] | reflexivity].
Qed.

(** ** The file comparator *)

Lemma memcmp_refl (a : list Byte.byte) (n : nat) : memcmp a a n = 0.
Proof.
  revert a. induction n as [|n IH]; intros a; simpl; [reflexivity|].
  destruct a as [|x a]; [reflexivity|].
  rewrite N.ltb_irrefl. apply IH.
Qed.

Lemma memcmp_sym (a b : list Byte.byte) (n : nat) :
  (memcmp a b n =? 0) = (memcmp b a n =? 0).
Proof.
  revert a b. induction n as [|n IH]; intros a b; simpl; [reflexivity|].
  destruct a as [|x a], b as [|y b]; try reflexivity.
  destruct (Byte.to_N x <? Byte.to_N y)%N eqn:Hxy,
           (Byte.to_N y <? Byte.to_N x)%N eqn:Hyx; try reflexivity.
  apply IH.
Qed.

(** X9.  Two files of different sizes: the answer is 1, and the trace ends
    with the two [fstat] calls, before any [mmap]. *)
Lemma cmp_files_size_differs (w : world) (fname1 fname2 : string) (f1 f2 : file) :
  sys_open w fname1 = Ok f1 -> sys_open w fname2 = Ok f2 ->
  f_fstat f1 = None -> f_fstat f2 = None ->
  st_size f1 <> st_size f2 ->
  cmp_files w fname1 fname2 =
  (1, [CallOpen fname1; CallOpen fname2; CallFstat fname1; CallFstat fname2]).
Proof.
  intros H1 H2 S1 S2 Hsize. unfold cmp_files.
  rewrite H1, H2, S1, S2.
  apply Z.eqb_neq in Hsize. rewrite Hsize. reflexivity.
Qed.

(** A readable file that is not empty compares equal to itself. *)
Lemma cmp_files_refl_nonempty (w : world) (fname : string) (f : file) :
  sys_open w fname = Ok f -> f_fstat f = None -> f_mmap f = None ->
  f_data f <> [] ->
  fst (cmp_files w fname fname) = 0.
Proof.
  intros Ho Hs Hm Hd. unfold cmp_files. rewrite Ho, Hs.
  rewrite Z.eqb_refl. unfold mmap. rewrite Hm.
  assert (Hz : (st_size f =? 0) = false).
  { apply Z.eqb_neq. unfold st_size. destruct (f_data f); [congruence | simpl; lia]. }
  rewrite Hz. simpl. now rewrite memcmp_refl.
Qed.

(** X8.  The answer of [cmp_files] does not depend on the order of the two
    names. *)
Lemma cmp_files_sym (w : world) (fname1 fname2 : string) :
  fst (cmp_files w fname1 fname2) = fst (cmp_files w fname2 fname1).
Proof.
  unfold cmp_files.
  destruct (sys_open w fname1) as [f1|e1], (sys_open w fname2) as [f2|e2];
    try reflexivity.
  destruct (f_fstat f1) as [s1|], (f_fstat f2) as [s2|]; try reflexivity.
  rewrite (Z.eqb_sym (st_size f2) (st_size f1)).
  destruct (st_size f1 =? st_size f2) eqn:Hsz; [|reflexivity].
  apply Z.eqb_eq in Hsz. rewrite <- Hsz. unfold mmap.
  destruct (st_size f1 =? 0); [reflexivity|].
  destruct (f_mmap f1), (f_mmap f2); try reflexivity.
  simpl. now rewrite memcmp_sym.
Qed.

(** C5, where the code departs from it.  Two files that open and stat
    well and are both empty do not compare equal: the size test passes
    with size 0, the mapping of length 0 is refused, and [cmp_files]
    answers [RET_ERROR] after logging the refusal. *)
Theorem cmp_files_empty_is_error (w : world) (fname1 fname2 : string) (f1 f2 : file) :
  sys_open w fname1 = Ok f1 -> sys_open w fname2 = Ok f2 ->
  f_fstat f1 = None -> f_fstat f2 = None ->
  f_data f1 = [] -> f_data f2 = [] ->
  cmp_files w fname1 fname2 =
  (RET_ERROR,
   [CallOpen fname1; CallOpen fname2; CallFstat fname1; CallFstat fname2;
    CallMmap fname1 0;
    Stderr (PROGNAME ++ ": " ++ (fname1 ++ ": " ++ strerror EINVAL) ++ nl)%string]).
Proof.
  intros H1 H2 S1 S2 D1 D2. unfold cmp_files, st_size.
  rewrite H1, H2, S1, S2, D1, D2. reflexivity.
Qed.

(** C5 on [empty_files]: /a and /b are empty and open well. *)
Lemma cmp_files_empty_is_error_witness :
  cmp_files empty_files "/a" "/b" =
  (RET_ERROR,
   [CallOpen "/a"; CallOpen "/b"; CallFstat "/a"; CallFstat "/b"; CallMmap "/a" 0;
    Stderr (PROGNAME ++ ": " ++ ("/a" ++ ": " ++ strerror EINVAL) ++ nl)%string]).
Proof.
  apply (cmp_files_empty_is_error empty_files "/a" "/b" (regular []) (regular []));
    reflexivity.
Defined.

(** ** The scan *)

(** The loop of [scan_all_procs], one turn at a time. *)
Lemma scan_all_from_next (fnmatch : string -> string -> Z -> Z) (w : world)
    (flags : Z) (pats dir : list string) (status pid : Z) (dir' : list string) :
  next_pid dir = (pid, dir') ->
  scan_all_from fnmatch w flags pats dir status =
  if pid =? -1 then ret status
  else
    kernel <- is_kernel_proc w pid ;;
    if kernel : bool then scan_all_from fnmatch w flags pats dir' status
    else
      r <- scan_proc fnmatch w flags pid pats ;;
      scan_all_from fnmatch w flags pats dir'
        (if r <? 0 then EXIT_FAILURE else status).
Proof.
  intros Hnext.
  rewrite scan_all_from_unfold_eq. unfold scan_all_from_unfold.
  generalize (inspect (next_pid dir)). intros [[pid0 dir0] e].
  assert (Heq : (pid0, dir0) = (pid, dir')) by congruence.
  inversion Heq; subst pid0 dir0.
  cbn [scan_all_from_unfold_clause_1].
  generalize (inspect (pid =? -1)).
  intros [[|] e2]; cbn [scan_all_from_unfold_clause_1_clause_1]; rewrite e2; reflexivity.
Qed.

(** The identifier found first only decides whether the scan starts: the
    loop runs on what follows it in the directory stream. *)
Lemma scan_all_procs_after_first (fnmatch : string -> string -> Z -> Z) (w : world)
    (flags : Z) (pats dir : list string) (pid : Z) (dir' : list string) :
  sys_opendir w PROCFS_PATH = Ok dir ->
  next_pid dir = (pid, dir') -> pid <> -1 ->
  scan_all_procs fnmatch w flags pats =
  (emit (CallOpendir PROCFS_PATH) ;;;
   scan_all_from fnmatch w flags pats dir' EXIT_SUCCESS).
Proof.
  intros Hdir Hnext Hpid. unfold scan_all_procs. rewrite Hdir, Hnext.
  apply Z.eqb_neq in Hpid. now rewrite Hpid.
Qed.

(** X24.  In the explicit-list mode every listed process is scanned,
    whatever the earlier ones answered, and the status is failure exactly when
    [scan_proc] was negative for one of them. *)
Lemma scan_procs_from_spec (fnmatch : string -> string -> Z -> Z) (w : world)
    (flags : Z) (pats : list string) (pids : list Z) :
  forall status,
    scan_procs_from fnmatch w flags pids pats status =
    (if List.existsb (fun pid => fst (scan_proc fnmatch w flags pid pats) <? 0)
          (visited pids)
     then EXIT_FAILURE else status,
     List.flat_map (fun pid => snd (scan_proc fnmatch w flags pid pats)) (visited pids)).
Proof.
  induction pids as [|pid rest IH]; intros status; [reflexivity|].
  cbn [scan_procs_from visited].
  destruct (pid =? -1); [reflexivity|].
  cbn [List.existsb List.flat_map].
  rewrite bind_unfold, IH. cbn [fst snd].
  destruct (fst (scan_proc fnmatch w flags pid pats) <? 0); cbn [orb]; [|reflexivity].
  now destruct (List.existsb _ (visited rest)).
Qed.

(** C1, where the code departs from it.  In a full scan the process
    identifier enumerated first is dropped: process 1 is the first numeric
    entry, is no kernel process and would be reported as stale by
    [scan_proc], yet the run makes no call about it and prints nothing;
    only process 42 is examined. *)
Theorem full_scan_drops_first_pid :
  next_pid ["."; ".."; "cpuinfo"; "1"; "42"] = (1, ["42"])
  /\ fst (is_kernel_proc two_procs 1) = false
  /\ fst (scan_proc Glob.fnmatch two_procs 0 1 []) = 0
  /\ In (Stdout ("1" ++ nl)) (snd (scan_proc Glob.fnmatch two_procs 0 1 []))
  /\ main Glob.fnmatch two_procs ["procs-need-restart"] =
     (EXIT_SUCCESS,
      [CallOpendir "/proc";
       CallReadlink "/proc/42/exe"; CallReadlink "/proc/42/exe";
       CallFopen "/proc/42/maps"]).
Proof.
  repeat split; try reflexivity.
  vm_compute. tauto.
Qed.

(** X25.  In verbose mode a hard error of the mapped-files check is lost
    when the executable check has answered "stale": the product of the two answers
    is 0. *)
Lemma scan_proc_verbose_masks_error (fnmatch : string -> string -> Z -> Z)
    (w : world) (flags pid : Z) (file_patterns : list string) (t1 t2 : list event) :
  flag_set flags FLAG_VERBOSE = true ->
  proc_has_replaced_exe fnmatch w flags pid file_patterns = (0, t1) ->
  proc_maps_replaced_files fnmatch w flags pid file_patterns = (RET_ERROR, t2) ->
  scan_proc fnmatch w flags pid file_patterns = (0, t1 ++ t2).
Proof.
  intros Hv H1 H2. unfold scan_proc. rewrite H1. unfold bind at 1.
  simpl. rewrite Hv. simpl. rewrite H2. simpl.
  now rewrite app_nil_r.
Qed.

(** C3, where the code departs from it.  Run as [-v 42]: the executable of
    process 42 is reported stale, then its maps stream fails to open for a
    reason that is neither a denial nor a vanished process, which the
    mapped-files check answers with [RET_ERROR] and a message; the exit
    status is nevertheless [EXIT_SUCCESS]. *)
Theorem verbose_scan_loses_hard_error :
  fst (proc_has_replaced_exe Glob.fnmatch stale_exe_broken_maps FLAG_VERBOSE 42 []) = 0
  /\ proc_maps_replaced_files Glob.fnmatch stale_exe_broken_maps FLAG_VERBOSE 42 [] =
     (RET_ERROR,
      [CallFopen "/proc/42/maps"; CallKill 42;
       Stderr (PROGNAME ++ ": /proc/42/maps: I/O error" ++ nl)%string])
  /\ fst (main Glob.fnmatch stale_exe_broken_maps ["procs-need-restart"; "-v"; "42"])
     = EXIT_SUCCESS
  /\ In (Stderr (PROGNAME ++ ": /proc/42/maps: I/O error" ++ nl)%string)
        (snd (main Glob.fnmatch stale_exe_broken_maps ["procs-need-restart"; "-v"; "42"])).
Proof.
  repeat split; try reflexivity.
  vm_compute. tauto.
Qed.

(** ** The command line *)

Lemma land_lor_verbose (flags : Z) :
  Z.land (Z.lor flags FLAG_VERBOSE) FLAG_IGNORE_EACCES = Z.land flags FLAG_IGNORE_EACCES.
Proof.
  rewrite Z.land_lor_distr_l. change (Z.land FLAG_VERBOSE FLAG_IGNORE_EACCES) with 0.
  apply Z.lor_0_r.
Qed.

Lemma flag_set_lor_eacces (flags : Z) :
  flag_set (Z.lor flags FLAG_IGNORE_EACCES) FLAG_IGNORE_EACCES = true.
Proof.
  unfold flag_set. rewrite Z.land_lor_distr_l, Z.land_diag.
  destruct (Z.lor (Z.land flags FLAG_IGNORE_EACCES) FLAG_IGNORE_EACCES =? 0) eqn:E;
    [|reflexivity].
  apply Z.eqb_eq in E. apply Z.lor_eq_0_iff in E. destruct E as [_ E]. discriminate.
Qed.

(** The option switch goes on without writing anything and never touches
    the permission bit. *)
Lemma getopt_arg_next (cs : string) (next : option string) (flags : Z)
    (pats : list string) (flags' : Z) (pats' : list string) (took : bool)
    (t : list event) :
  getopt_arg cs next flags pats = (OptNext flags' pats' took, t) ->
  t = [] /\ Z.land flags' FLAG_IGNORE_EACCES = Z.land flags FLAG_IGNORE_EACCES.
Proof.
  revert flags. induction cs as [|c r IH]; intros flags H; simpl in H.
  - inversion H; subst. auto.
  - destruct (Ascii.eqb c "f").
    { destruct r; [destruct next|]; inversion H; subst; auto. }
    destruct (Ascii.eqb c "v").
    { apply IH in H. destruct H as [Ht Hf]. split; [exact Ht|].
      rewrite Hf. apply land_lor_verbose. }
    destruct (Ascii.eqb c "h"); [inversion H|].
    destruct (Ascii.eqb c "V"); inversion H.
Qed.

Lemma getopt_loop_next_aux (args : list string) :
  (forall flags pats flags' pats' took ops t,
      getopt_loop args flags pats = ((OptNext flags' pats' took, ops), t) ->
      t = [] /\ Z.land flags' FLAG_IGNORE_EACCES = Z.land flags FLAG_IGNORE_EACCES)
  /\ (forall flags pats flags' pats' took ops t,
      getopt_loop (List.tl args) flags pats = ((OptNext flags' pats' took, ops), t) ->
      t = [] /\ Z.land flags' FLAG_IGNORE_EACCES = Z.land flags FLAG_IGNORE_EACCES).
Proof.
  induction args as [|arg rest [IH1 IH2]].
  - split; intros flags pats flags' pats' took ops t H; simpl in H;
      inversion H; subst; auto.
  - split; [|exact IH1].
    intros flags pats flags' pats' took ops t H. simpl in H.
    destruct (option_chars arg) as [cs|]; [|inversion H; subst; auto].
    destruct (cs =? "-")%string; [inversion H; subst; auto|].
    destruct (getopt_arg cs (hd_error rest) flags pats) as [o t1] eqn:Harg.
    rewrite bind_pair in H.
    destruct o as [status | f1 p1 took1]; [inversion H|].
    apply getopt_arg_next in Harg. destruct Harg as [-> Hf1].
    assert (Hrec : exists l, (l = rest \/ l = List.tl rest) /\
              getopt_loop l f1 p1 = ((OptNext flags' pats' took, ops), t)).
    { destruct took1, rest as [|b rest'];
        (eexists; split; [|rewrite (io_eta (getopt_loop _ f1 p1)); exact H]);
        simpl; auto. }
    destruct Hrec as [l [[->| ->] Hl]];
      [apply IH1 in Hl | apply IH2 in Hl];
      destruct Hl as [Ht Hf]; (split; [exact Ht | congruence]).
Qed.

Lemma getopt_loop_next (args : list string) (flags : Z) (pats : list string)
    (flags' : Z) (pats' : list string) (took : bool) (ops : list string)
    (t : list event) :
  getopt_loop args flags pats = ((OptNext flags' pats' took, ops), t) ->
  t = [] /\ Z.land flags' FLAG_IGNORE_EACCES = Z.land flags FLAG_IGNORE_EACCES.
Proof. apply (proj1 (getopt_loop_next_aux args)). Qed.

Lemma read_pids_first_bad (good : list string) (bad : string) (rest : list string) :
  Forall (fun arg => 1 <= atoi arg) good -> atoi bad < 1 ->
  read_pids (good ++ bad :: rest) = inl bad.
Proof.
  intros Hgood Hbad. induction Hgood as [|a good Ha _ IH]; cbn [app read_pids].
  - replace (atoi bad <? 1) with true by (symmetry; apply Z.ltb_lt; exact Hbad).
    reflexivity.
  - replace (atoi a <? 1) with false by (symmetry; apply Z.ltb_ge; exact Ha).
    now rewrite IH.
Qed.

(** [main], once the option loop has gone through. *)
Lemma main_after_options (fnmatch : string -> string -> Z -> Z) (w : world)
    (argv : list string) (flags : Z) (pats : list string) (took : bool)
    (ops : list string) (t : list event) :
  getopt_loop (List.tl argv) 0 [] = ((OptNext flags pats took, ops), t) ->
  main fnmatch w argv =
  match ops with
  | _ :: _ =>
    match read_pids ops with
    | inl arg =>
      (EXIT_WRONG_USAGE, [Stderr (PROGNAME ++ ": " ++ ("invalid argument: " ++ arg) ++ nl)%string])
    | inr pids => scan_procs fnmatch w flags (pids ++ [-1]) pats
    end
  | [] =>
    scan_all_procs fnmatch w
      (if negb (geteuid w =? 0) then Z.lor flags FLAG_IGNORE_EACCES else flags) pats
  end.
Proof.
  intros H. unfold main. rewrite H.
  apply getopt_loop_next in H. destruct H as [-> _].
  rewrite bind_pair. simpl.
  destruct ops as [|a rest].
  - symmetry. apply io_eta.
  - destruct (read_pids (a :: rest)); [reflexivity|].
    symmetry. apply io_eta.
Qed.

(** X26.  The operands are read in order, and the first that [atoi]
    reads below 1 (leading white space, an optional sign, then the
    decimal digits that follow, 0 when there are none) ends the run with
    the usage status: the only trace of the run is the complaint about
    that operand, and no process is examined, whatever stands before or
    behind it. *)
Theorem first_bad_operand_is_usage_error (fnmatch : string -> string -> Z -> Z)
    (w : world) (argv : list string) (flags : Z) (pats : list string) (took : bool)
    (good : list string) (bad : string) (rest : list string) (t : list event) :
  getopt_loop (List.tl argv) 0 [] = ((OptNext flags pats took, good ++ bad :: rest), t) ->
  Forall (fun arg => 1 <= atoi arg) good ->
  atoi bad < 1 ->
  main fnmatch w argv =
  (EXIT_WRONG_USAGE,
   [Stderr (PROGNAME ++ ": " ++ ("invalid argument: " ++ bad) ++ nl)%string]).
Proof.
  intros Hopt Hgood Hbad.
  rewrite (main_after_options fnmatch w argv _ _ _ _ _ Hopt).
  rewrite (read_pids_first_bad good bad rest Hgood Hbad).
  now destruct good.
Qed.

(** On the operands 12, 0, abc behind [-v]: the run stops at 0. *)
Lemma first_bad_operand_is_usage_error_witness :
  main Glob.fnmatch two_procs ["procs-need-restart"; "-v"; "12"; "0"; "abc"] =
  (EXIT_WRONG_USAGE,
   [Stderr (PROGNAME ++ ": " ++ ("invalid argument: " ++ "0") ++ nl)%string]).
Proof.
  apply (first_bad_operand_is_usage_error Glob.fnmatch two_procs
           ["procs-need-restart"; "-v"; "12"; "0"; "abc"]
           FLAG_VERBOSE [] false ["12"%string] "0" ["abc"%string] []).
  - reflexivity.
  - repeat constructor. discriminate.
  - reflexivity.
Defined.

(** An operand with trailing characters on a sample system: "3x" is read
    as 3, the run does not end with the usage status and process 3 is
    looked up (it does not exist on this system, so nothing is reported). *)
Lemma trailing_characters_accepted :
  atoi "3x" = 3
  /\ main Glob.fnmatch two_procs ["procs-need-restart"; "3x"] =
     (EXIT_SUCCESS,
      [CallReadlink "/proc/3/exe"; CallKill 3; CallFopen "/proc/3/maps"; CallKill 3])
  /\ fst (main Glob.fnmatch two_procs ["procs-need-restart"; "3x"]) <> EXIT_WRONG_USAGE.
Proof.
  split; [reflexivity|]. split; [reflexivity|].
  vm_compute. discriminate.
Qed.

(** ** The privilege rule *)

Lemma exe_denied (fnmatch : string -> string -> Z -> Z) (w : world)
    (flags pid : Z) (pats : list string) :
  sys_readlink w (PROC_EXE_PATH pid) = Fail EACCES ->
  proc_has_replaced_exe fnmatch w flags pid pats =
  if flag_set flags FLAG_IGNORE_EACCES
  then (1, [CallReadlink (PROC_EXE_PATH pid)])
  else if fst (proc_exists w pid) =? 1
       then (1, [CallReadlink (PROC_EXE_PATH pid); CallKill pid])
       else (RET_ERROR,
             [CallReadlink (PROC_EXE_PATH pid); CallKill pid;
              Stderr (PROGNAME ++ ": " ++ (PROC_EXE_PATH pid ++ ": " ++ strerror EACCES)
                      ++ nl)%string]).
Proof.
  intros H. unfold proc_has_replaced_exe, resolve_link. rewrite H.
  destruct (flag_set flags FLAG_IGNORE_EACCES); [reflexivity|].
  unfold proc_exists.
  destruct (sys_kill0 w pid) as [u|e]; [reflexivity|].
  destruct e; reflexivity.
Qed.

Lemma maps_denied (fnmatch : string -> string -> Z -> Z) (w : world)
    (flags pid : Z) (pats : list string) :
  sys_fopen w (PROC_MAPS_PATH pid) = Fail EACCES ->
  proc_maps_replaced_files fnmatch w flags pid pats =
  if flag_set flags FLAG_IGNORE_EACCES
  then (1, [CallFopen (PROC_MAPS_PATH pid)])
  else if fst (proc_exists w pid) =? 1
       then (1, [CallFopen (PROC_MAPS_PATH pid); CallKill pid])
       else (RET_ERROR,
             [CallFopen (PROC_MAPS_PATH pid); CallKill pid;
              Stderr (PROGNAME ++ ": " ++ (PROC_MAPS_PATH pid ++ ": " ++ strerror EACCES)
                      ++ nl)%string]).
Proof.
  intros H. unfold proc_maps_replaced_files. rewrite H.
  destruct (flag_set flags FLAG_IGNORE_EACCES); [reflexivity|].
  unfold proc_exists.
  destruct (sys_kill0 w pid) as [u|e]; [reflexivity|].
  destruct e; reflexivity.
Qed.

(** C2, as the code has it.  Once the options are read, the scan runs
    under flags whose permission bit is set exactly when there is no
    operand (full scan) and the effective UID is not 0.  Under that bit a
    denied executable link or maps stream makes the check answer 1 ("no")
    with no message.  Without it, that is in every run with explicit
    process identifiers and in a full scan by root, the same denial is
    answered with [RET_ERROR] and a message, unless [proc_exists] finds
    the process gone, which again gives 1. *)
Theorem eacces_ignored_only_in_unprivileged_full_scan
    (fnmatch : string -> string -> Z -> Z) (w : world)
    (argv : list string) (flags : Z) (pats : list string) (took : bool)
    (ops : list string) (t : list event) :
  getopt_loop (List.tl argv) 0 [] = ((OptNext flags pats took, ops), t) ->
  exists scan_flags,
    main fnmatch w argv =
    match ops with
    | _ :: _ =>
      match read_pids ops with
      | inl arg =>
        (EXIT_WRONG_USAGE,
         [Stderr (PROGNAME ++ ": " ++ ("invalid argument: " ++ arg) ++ nl)%string])
      | inr pids => scan_procs fnmatch w scan_flags (pids ++ [-1]) pats
      end
    | [] => scan_all_procs fnmatch w scan_flags pats
    end
    /\ flag_set scan_flags FLAG_IGNORE_EACCES =
       match ops with
       | [] => negb (geteuid w =? 0)
       | _ :: _ => false
       end
    /\ forall pid,
        (sys_readlink w (PROC_EXE_PATH pid) = Fail EACCES ->
         proc_has_replaced_exe fnmatch w scan_flags pid pats =
         if flag_set scan_flags FLAG_IGNORE_EACCES
         then (1, [CallReadlink (PROC_EXE_PATH pid)])
         else if fst (proc_exists w pid) =? 1
              then (1, [CallReadlink (PROC_EXE_PATH pid); CallKill pid])
              else (RET_ERROR,
                    [CallReadlink (PROC_EXE_PATH pid); CallKill pid;
                     Stderr (PROGNAME ++ ": "
                             ++ (PROC_EXE_PATH pid ++ ": " ++ strerror EACCES)
                             ++ nl)%string]))
        /\ (sys_fopen w (PROC_MAPS_PATH pid) = Fail EACCES ->
            proc_maps_replaced_files fnmatch w scan_flags pid pats =
            if flag_set scan_flags FLAG_IGNORE_EACCES
            then (1, [CallFopen (PROC_MAPS_PATH pid)])
            else if fst (proc_exists w pid) =? 1
                 then (1, [CallFopen (PROC_MAPS_PATH pid); CallKill pid])
                 else (RET_ERROR,
                       [CallFopen (PROC_MAPS_PATH pid); CallKill pid;
                        Stderr (PROGNAME ++ ": "
                                ++ (PROC_MAPS_PATH pid ++ ": " ++ strerror EACCES)
                                ++ nl)%string])).
Proof.
  intros Hopt.
  pose proof (getopt_loop_next _ _ _ _ _ _ _ _ Hopt) as [_ Hbit]. simpl in Hbit.
  assert (Hclear : flag_set flags FLAG_IGNORE_EACCES = false).
  { unfold flag_set. rewrite Hbit. reflexivity. }
  exists (match ops with
          | [] => if negb (geteuid w =? 0) then Z.lor flags FLAG_IGNORE_EACCES else flags
          | _ :: _ => flags
          end).
  split; [|split].
  - rewrite (main_after_options fnmatch w argv _ _ _ _ _ Hopt).
    destruct ops; reflexivity.
  - destruct ops as [|a rest]; [|exact Hclear].
    destruct (geteuid w =? 0); simpl; [exact Hclear | apply flag_set_lor_eacces].
  - intros pid. split; intros H.
    + now apply exe_denied.
    + now apply maps_denied.
Qed.

(** C2 on [foreign_proc]: a full scan by an ordinary user passes over the
    denied process 7. *)
Lemma eacces_ignored_only_in_unprivileged_full_scan_witness :
  exists scan_flags,
    main Glob.fnmatch foreign_proc ["procs-need-restart"] =
    scan_all_procs Glob.fnmatch foreign_proc scan_flags []
    /\ flag_set scan_flags FLAG_IGNORE_EACCES = true
    /\ proc_has_replaced_exe Glob.fnmatch foreign_proc scan_flags 7 [] =
       (1, [CallReadlink "/proc/7/exe"])
    /\ proc_maps_replaced_files Glob.fnmatch foreign_proc scan_flags 7 [] =
       (1, [CallFopen "/proc/7/maps"]).
Proof.
  destruct (eacces_ignored_only_in_unprivileged_full_scan Glob.fnmatch foreign_proc
              ["procs-need-restart"] 0 [] false [] [] eq_refl)
    as [scan_flags [Hmain [Hbit Hpid]]].
  exists scan_flags. split; [exact Hmain|]. split; [exact Hbit|].
  destruct (Hpid 7) as [Hexe Hmaps].
  rewrite (Hexe eq_refl), (Hmaps eq_refl), Hbit. split; reflexivity.
Defined.

(** C2 as stated fails in the explicit-list mode: an ordinary user names
    process 7, the executable link is denied, and the run ends in failure
    with a message instead of passing the process over. *)
Lemma explicit_pid_denied_is_error :
  geteuid foreign_proc <> 0
  /\ sys_readlink foreign_proc (PROC_EXE_PATH 7) = Fail EACCES
  /\ main Glob.fnmatch foreign_proc ["procs-need-restart"; "7"] =
     (EXIT_FAILURE,
      [CallReadlink "/proc/7/exe"; CallKill 7;
       Stderr (PROGNAME ++ ": /proc/7/exe: Permission denied" ++ nl)%string])
  /\ fst (main Glob.fnmatch foreign_proc ["procs-need-restart"; "7"]) <> EXIT_SUCCESS.
Proof.
  repeat split; try reflexivity; vm_compute; discriminate.
Qed.

(** ** The maps loop *)

Lemma bind_ext {A B} (m : io A) (k k' : A -> io B) :
  (forall a, k a = k' a) -> bind m k = bind m k'.
Proof. intros H. unfold bind. destruct m as [a t]. now rewrite H. Qed.

(** One turn of the loop, in terms of [line_entry]. *)
Lemma maps_loop_cons (fnmatch : string -> string -> Z -> Z) (w : world)
    (flags pid : Z) (pats : list string) (buf : string) (rest : list string)
    (last : string) (res : Z) :
  maps_loop fnmatch w flags pid pats (buf :: rest) last res =
  match line_entry buf with
  | None => maps_loop fnmatch w flags pid pats rest last res
  | Some map =>
    if (filename map =? last)%string
    then maps_loop fnmatch w flags pid pats rest last res
    else
      let last' := strncpy (filename map) (PATH_MAX + 1) in
      if (inode map =? 0) || (dev_major map =? 0)
      then maps_loop fnmatch w flags pid pats rest last' res
      else if excluded fnmatch pats (filename map)
      then maps_loop fnmatch w flags pid pats rest last' res
      else
        c <- cmp_files w (filename map)
               (PROC_MAP_FILES_PATH pid (start map) (end_ map)) ;;
        if c =? 0 then maps_loop fnmatch w flags pid pats rest last' res
        else
          if flag_set flags FLAG_VERBOSE then
            printf (fmt_d pid ++ tab ++ filename map ++ nl)%string ;;;
            maps_loop fnmatch w flags pid pats rest last' 0
          else
            printf (fmt_d pid ++ nl)%string ;;;
            ret 0
  end.
Proof.
  cbn [maps_loop]. unfold line_entry.
  destruct (str_chomp buf (" (deleted)" ++ nl)) as [deleted b].
  destruct deleted; [|reflexivity]. cbn [negb].
  destruct (sscanf_map (snd (str_chomp b ".apk-new"))) as [n map].
  destruct (n <? 5); reflexivity.
Qed.

(** The loop is the checker run over the entries of the parser. *)
Lemma maps_loop_entries (fnmatch : string -> string -> Z -> Z) (w : world)
    (flags pid : Z) (pats : list string) (lines : list string) :
  forall (last : string) (res : Z),
    maps_loop fnmatch w flags pid pats lines last res =
    check_entries fnmatch w flags pid pats (entries lines last) res.
Proof.
  induction lines as [|buf rest IH]; intros last res; [reflexivity|].
  rewrite maps_loop_cons. cbn [entries].
  destruct (line_entry buf) as [map|]; [|apply IH].
  destruct (filename map =? last)%string; [apply IH|].
  cbn [check_entries]. cbv zeta.
  destruct ((inode map =? 0) || (dev_major map =? 0)); [apply IH|].
  destruct (excluded fnmatch pats (filename map)); [apply IH|].
  apply bind_ext. intros c.
  destruct (c =? 0); [apply IH|].
  destruct (flag_set flags FLAG_VERBOSE); [|reflexivity].
  apply bind_ext. intros _. apply IH.
Qed.

Lemma scan_set_width (p : ascii -> bool) (width : nat) (s : string) :
  (String.length (fst (scan_set p width s)) <= width)%nat.
Proof.
  revert s. induction width as [|n IH]; intros s; simpl; [lia|].
  destruct s as [|c r]; simpl; [lia|].
  destruct (p c); simpl; [|lia].
  specialize (IH r). destruct (scan_set p n r). simpl in *. lia.
Qed.

Lemma conv_set_width (p : ascii -> bool) (width : nat) (s a b : string) :
  conv_set p width s = Some (a, b) -> (String.length a <= width)%nat.
Proof.
  unfold conv_set. pose proof (scan_set_width p width s) as H.
  destruct (scan_set p width s) as [x y]. simpl in H.
  destruct x; intros E; inversion E; subst. exact H.
Qed.

(** A scanned filename fits [last_filename]. *)
Lemma sscanf_map_filename (buf : string) (n : Z) (map : map_info) :
  sscanf_map buf = (n, map) -> (String.length (filename map) <= Z.to_nat PATH_MAX)%nat.
Proof.
  unfold sscanf_map.
  repeat match goal with
         | |- context [match ?x with _ => _ end] =>
           match type of x with
           | option _ => destruct x as [?|] eqn:?
           | prod _ _ => destruct x as [? ?] eqn:?
           end
         end;
    intros E; inversion E; subst; simpl; try lia.
  eapply conv_set_width; eassumption.
Qed.

Lemma line_entry_filename (buf : string) (map : map_info) :
  line_entry buf = Some map ->
  strncpy (filename map) (PATH_MAX + 1) = filename map.
Proof.
  unfold line_entry.
  destruct (str_chomp buf (" (deleted)" ++ nl)) as [deleted b].
  destruct deleted; [|discriminate]. cbn [negb].
  destruct (sscanf_map (snd (str_chomp b ".apk-new"))) as [n m] eqn:Hscan.
  destruct (n <? 5); [discriminate|].
  intros E; inversion E; subst.
  apply sscanf_map_filename in Hscan.
  unfold strncpy. apply substring_short.
  change (Z.to_nat (PATH_MAX + 1)) with (S (Z.to_nat PATH_MAX)). lia.
Qed.

Lemma entries_collapse (lines : list string) :
  forall last, entries lines last = spec_collapse last (spec_records lines).
Proof.
  induction lines as [|buf rest IH]; intros last; [reflexivity|].
  cbn [entries spec_records].
  destruct (line_entry buf) as [map|] eqn:Hline; [|apply IH].
  cbn [spec_collapse]. rewrite (line_entry_filename _ _ Hline).
  destruct (filename map =? last)%string; [apply IH|].
  now rewrite IH.
Qed.

Lemma entries_no_repeat (lines : list string) :
  forall last, no_repeat last (entries lines last).
Proof.
  induction lines as [|buf rest IH]; intros last; [exact I|].
  cbn [entries].
  destruct (line_entry buf) as [map|] eqn:Hline; [|apply IH].
  destruct (filename map =? last)%string eqn:Hsame; [apply IH|].
  cbn [no_repeat]. rewrite (line_entry_filename _ _ Hline).
  split; [now apply String.eqb_neq | apply IH].
Qed.

(** C6.  The loop of [proc_maps_replaced_files] checks exactly the entries
    its duplicate test lets through, and those are the scanned records
    with every record dropped whose filename equals the one let through
    just before, so that no entry repeats the filename of the entry before
    it.  Three consecutive records of the deleted library that
    differ in the permission field give one entry; the same filename
    coming back after another one gives a new entry. *)
Theorem consecutive_duplicates_collapsed :
  (forall (fnmatch : string -> string -> Z -> Z) (w : world) (flags pid : Z)
          (pats : list string) (lines : list string) (last : string) (res : Z),
      maps_loop fnmatch w flags pid pats lines last res =
      check_entries fnmatch w flags pid pats (entries lines last) res)
  /\ (forall (lines : list string) (last : string),
         entries lines last = spec_collapse last (spec_records lines))
  /\ (forall (lines : list string) (last : string),
         no_repeat last (entries lines last))
  /\ entries
       [maps_line "r-xp" "/usr/lib/libfoo.so.1 (deleted)";
        maps_line "r--p" "/usr/lib/libfoo.so.1 (deleted)";
        maps_line "rw-p" "/usr/lib/libfoo.so.1 (deleted)"] EmptyString
     = [libfoo]
  /\ entries
       [maps_line "r-xp" "/usr/lib/libfoo.so.1 (deleted)";
        maps_line "r-xp" "/usr/lib/libbar.so.2 (deleted)";
        maps_line "rw-p" "/usr/lib/libfoo.so.1 (deleted)"] EmptyString
     = [libfoo; libbar; libfoo].
Proof.
  split; [|split; [|split; [|split]]].
  - intros. apply maps_loop_entries.
  - intros. apply entries_collapse.
  - intros. apply entries_no_repeat.
  - vm_compute. reflexivity.
  - vm_compute. reflexivity.
Qed.

(** ** Deleted and staged names *)

Lemma append_assoc (a b c : string) : ((a ++ b) ++ c = a ++ (b ++ c))%string.
Proof. induction a as [|x a IH]; simpl; [reflexivity | now rewrite IH]. Qed.

Lemma resolve_link_fits (w : world) (pathname target : string) :
  sys_readlink w pathname = Ok target -> strlen target < PATH_MAX ->
  resolve_link w pathname PATH_MAX = ((0, target, None), [CallReadlink pathname]).
Proof.
  intros H Hlen. unfold resolve_link. rewrite H.
  rewrite Z.min_l by lia.
  replace (PATH_MAX <=? strlen target) with false by (symmetry; apply Z.leb_gt; lia).
  unfold strlen. rewrite Nat2Z.id, substring_all. reflexivity.
Qed.

(** The executable check on a link that carries the deletion marker and
    was not cut short: everything after the link is read happens on the
    name left by the two [str_chomp] calls. *)
Lemma exe_deleted_link (fnmatch : string -> string -> Z -> Z) (w : world)
    (flags pid : Z) (pats : list string) (raw : string) :
  sys_readlink w (PROC_EXE_PATH pid) = Ok (raw ++ " (deleted)")%string ->
  strlen (raw ++ " (deleted)") < PATH_MAX ->
  proc_has_replaced_exe fnmatch w flags pid pats =
  (let link_path := snd (str_chomp raw ".apk-new") in
   emit (CallReadlink (PROC_EXE_PATH pid)) ;;;
   if excluded fnmatch pats link_path then ret 1
   else
     identical <-
       (if (strlen (PROC_ROOT_PATH pid link_path) <=? 0)
           || (PATH_MAX <=? strlen (PROC_ROOT_PATH pid link_path))
        then log_err ("too long file path: " ++ PROC_ROOT_PATH pid link_path)%string ;;;
             ret false
        else c <- cmp_files w (PROC_EXE_PATH pid) (PROC_ROOT_PATH pid link_path) ;;
             ret (c =? 0)) ;;
     if identical then ret 1
     else
       (if flag_set flags FLAG_VERBOSE
        then printf (fmt_d pid ++ tab ++ link_path ++ nl)%string
        else printf (fmt_d pid ++ nl)%string) ;;;
       ret 0).
Proof.
  intros Hlink Hlen. unfold proc_has_replaced_exe.
  rewrite (resolve_link_fits _ _ _ Hlink Hlen).
  unfold emit. rewrite !bind_pair. cbv beta iota.
  change (0 <? 0) with false. cbv iota.
  rewrite str_chomp_app. reflexivity.
Qed.

Lemma root_path_length (pid : Z) (s : string) : 0 < strlen (PROC_ROOT_PATH pid s).
Proof.
  unfold PROC_ROOT_PATH, strlen, PROCFS_PATH. rewrite length_app. simpl. lia.
Qed.

(** One turn of the loop on a line that yields a new entry of a real
    file. *)
Lemma maps_loop_entry (fnmatch : string -> string -> Z -> Z) (w : world)
    (flags pid : Z) (pats : list string) (buf : string) (rest : list string)
    (last : string) (res : Z) (map : map_info) :
  line_entry buf = Some map ->
  filename map <> last -> inode map <> 0 -> dev_major map <> 0 ->
  maps_loop fnmatch w flags pid pats (buf :: rest) last res =
  if excluded fnmatch pats (filename map)
  then maps_loop fnmatch w flags pid pats rest (filename map) res
  else
    c <- cmp_files w (filename map)
           (PROC_MAP_FILES_PATH pid (start map) (end_ map)) ;;
    if c =? 0 then maps_loop fnmatch w flags pid pats rest (filename map) res
    else
      if flag_set flags FLAG_VERBOSE then
        printf (fmt_d pid ++ tab ++ filename map ++ nl)%string ;;;
        maps_loop fnmatch w flags pid pats rest (filename map) 0
      else
        printf (fmt_d pid ++ nl)%string ;;;
        ret 0.
Proof.
  intros Hline Hlast Hino Hdev.
  rewrite maps_loop_cons, Hline. cbv zeta.
  rewrite (line_entry_filename _ _ Hline).
  apply String.eqb_neq in Hlast. rewrite Hlast.
  apply Z.eqb_neq in Hino, Hdev. rewrite Hino, Hdev. reflexivity.
Qed.

(** C7.  A link target that ends in ".apk-new (deleted)" loses both
    suffixes, the marker first: the filter rules are asked about the bare
    name, the comparison opens the bare name under the root of the
    process, and the report prints it.  A maps line that ends the same way
    is scanned as the line without both suffixes, and the entry so
    obtained is the one the filter rules and the comparison get. *)
Theorem staging_suffix_stripped_after_marker :
  (forall (fnmatch : string -> string -> Z -> Z) (w : world) (flags pid : Z)
          (pats : list string) (base : string),
      sys_readlink w (PROC_EXE_PATH pid) = Ok (base ++ ".apk-new" ++ " (deleted)")%string ->
      strlen (base ++ ".apk-new" ++ " (deleted)") < PATH_MAX ->
      proc_has_replaced_exe fnmatch w flags pid pats =
      (emit (CallReadlink (PROC_EXE_PATH pid)) ;;;
       if excluded fnmatch pats base then ret 1
       else
         identical <-
           (if (strlen (PROC_ROOT_PATH pid base) <=? 0)
               || (PATH_MAX <=? strlen (PROC_ROOT_PATH pid base))
            then log_err ("too long file path: " ++ PROC_ROOT_PATH pid base)%string ;;;
                 ret false
            else c <- cmp_files w (PROC_EXE_PATH pid) (PROC_ROOT_PATH pid base) ;;
                 ret (c =? 0)) ;;
         if identical then ret 1
         else
           (if flag_set flags FLAG_VERBOSE
            then printf (fmt_d pid ++ tab ++ base ++ nl)%string
            else printf (fmt_d pid ++ nl)%string) ;;;
           ret 0))
  /\ (forall (body : string),
         fst (sscanf_map body) = 5 ->
         line_entry (body ++ ".apk-new" ++ " (deleted)" ++ nl)
         = Some (snd (sscanf_map body)))
  /\ (forall (fnmatch : string -> string -> Z -> Z) (w : world) (flags pid : Z)
             (pats : list string) (buf : string) (rest : list string)
             (last : string) (res : Z) (map : map_info),
         line_entry buf = Some map ->
         filename map <> last -> inode map <> 0 -> dev_major map <> 0 ->
         maps_loop fnmatch w flags pid pats (buf :: rest) last res =
         if excluded fnmatch pats (filename map)
         then maps_loop fnmatch w flags pid pats rest (filename map) res
         else
           c <- cmp_files w (filename map)
                  (PROC_MAP_FILES_PATH pid (start map) (end_ map)) ;;
           if c =? 0 then maps_loop fnmatch w flags pid pats rest (filename map) res
           else
             if flag_set flags FLAG_VERBOSE then
               printf (fmt_d pid ++ tab ++ filename map ++ nl)%string ;;;
               maps_loop fnmatch w flags pid pats rest (filename map) 0
             else
               printf (fmt_d pid ++ nl)%string ;;;
               ret 0).
Proof.
  split; [|split].
  - intros fnmatch w flags pid pats base Hlink Hlen.
    rewrite <- append_assoc in Hlink, Hlen.
    rewrite (exe_deleted_link fnmatch w flags pid pats _ Hlink Hlen).
    rewrite str_chomp_app. reflexivity.
  - intros body Hscan. unfold line_entry.
    rewrite <- append_assoc, str_chomp_app. cbn [negb].
    rewrite str_chomp_app. cbn [snd].
    destruct (sscanf_map body) as [n map]. simpl in Hscan. subst n. reflexivity.
  - intros. now apply maps_loop_entry.
Qed.

(** C7 on [staged_upgrade]: the rules /usr/bin/foo and /usr/lib/* select
    the bare names, which are also the names opened and printed. *)
Lemma staging_suffix_stripped_after_marker_witness :
  proc_has_replaced_exe Glob.fnmatch staged_upgrade FLAG_VERBOSE 42 ["/usr/bin/foo"] =
  (0, [CallReadlink "/proc/42/exe"; CallOpen "/proc/42/exe";
       CallOpen "/proc/42/root//usr/bin/foo";
       Stdout ("42" ++ tab ++ "/usr/bin/foo" ++ nl)%string])
  /\ line_entry (maps_line "r-xp" "/usr/lib/libfoo.so.1.apk-new (deleted)") = Some libfoo
  /\ maps_loop Glob.fnmatch staged_upgrade FLAG_VERBOSE 42 ["/usr/lib/*"]
       [maps_line "r-xp" "/usr/lib/libfoo.so.1.apk-new (deleted)"] EmptyString 1 =
     (0, [CallOpen "/usr/lib/libfoo.so.1";
          Stdout ("42" ++ tab ++ "/usr/lib/libfoo.so.1" ++ nl)%string]).
Proof.
  destruct staging_suffix_stripped_after_marker as [Hexe [Hline Hloop]].
  split; [|split].
  - rewrite (Hexe Glob.fnmatch staged_upgrade FLAG_VERBOSE 42 ["/usr/bin/foo"]
               "/usr/bin/foo"%string eq_refl eq_refl).
    reflexivity.
  - apply (Hline ("7f1c2a000000-7f1c2a021000 r-xp 00000000 08:01 131090"
                  ++ "                     " ++ "/usr/lib/libfoo.so.1")%string).
    reflexivity.
  - rewrite (Hloop Glob.fnmatch staged_upgrade FLAG_VERBOSE 42 ["/usr/lib/*"]
               _ [] EmptyString 1 libfoo);
      [reflexivity | reflexivity | discriminate | discriminate | discriminate].
Defined.

(** ** A comparison that fails *)

(** [cmp_files] answers [RET_ERROR] when a file cannot be opened or
    examined, and when a file of the common size cannot be mapped. *)
Lemma cmp_files_failure (w : world) (fname1 fname2 : string) :
  (exists e, sys_open w fname1 = Fail e)
  \/ (exists e, sys_open w fname2 = Fail e)
  \/ (exists f1 f2,
       sys_open w fname1 = Ok f1 /\ sys_open w fname2 = Ok f2
       /\ (f_fstat f1 <> None \/ f_fstat f2 <> None
           \/ (st_size f1 = st_size f2
               /\ exists e, mmap f1 (st_size f1) = Fail e \/ mmap f2 (st_size f1) = Fail e))) ->
  fst (cmp_files w fname1 fname2) = RET_ERROR.
Proof.
  unfold cmp_files.
  intros [[e H]|[[e H]|[f1 [f2 [H1 [H2 H]]]]]].
  - now rewrite H.
  - rewrite H. now destruct (sys_open w fname1).
  - rewrite H1, H2.
    destruct (f_fstat f1) as [e1|]; [reflexivity|].
    destruct (f_fstat f2) as [e2|]; [reflexivity|].
    destruct H as [H|[H|[Hsz [e [H|H]]]]]; try congruence.
    + rewrite Hsz, Z.eqb_refl. cbn [negb]. rewrite <- Hsz, H. reflexivity.
    + rewrite Hsz, Z.eqb_refl. cbn [negb]. rewrite <- Hsz, H.
      now destruct (mmap f1 (st_size f1)).
Qed.

(** C10.  The callers test the answer of [cmp_files] against 0 only.  Any
    other answer, [RET_ERROR] as much as 1, makes the executable check
    print its line and answer 0 ("yes"), and makes the maps loop print its
    line, set its result to 0, and go on (verbose) or stop (otherwise).
    [RET_ERROR] is what [cmp_files] answers when a file cannot be opened,
    examined or mapped. *)
Theorem failed_comparison_counts_as_stale :
  (forall (fnmatch : string -> string -> Z -> Z) (w : world) (flags pid : Z)
          (pats : list string) (raw : string) (c : Z) (t : list event),
      sys_readlink w (PROC_EXE_PATH pid) = Ok (raw ++ " (deleted)")%string ->
      strlen (raw ++ " (deleted)") < PATH_MAX ->
      excluded fnmatch pats (snd (str_chomp raw ".apk-new")) = false ->
      strlen (PROC_ROOT_PATH pid (snd (str_chomp raw ".apk-new"))) < PATH_MAX ->
      cmp_files w (PROC_EXE_PATH pid)
        (PROC_ROOT_PATH pid (snd (str_chomp raw ".apk-new"))) = (c, t) ->
      c <> 0 ->
      proc_has_replaced_exe fnmatch w flags pid pats =
      (0, CallReadlink (PROC_EXE_PATH pid) :: t ++
          [Stdout (if flag_set flags FLAG_VERBOSE
                   then fmt_d pid ++ tab ++ snd (str_chomp raw ".apk-new") ++ nl
                   else fmt_d pid ++ nl)%string]))
  /\ (forall (fnmatch : string -> string -> Z -> Z) (w : world) (flags pid : Z)
             (pats : list string) (buf : string) (rest : list string)
             (last : string) (res : Z) (map : map_info) (c : Z) (t : list event),
         line_entry buf = Some map ->
         filename map <> last -> inode map <> 0 -> dev_major map <> 0 ->
         excluded fnmatch pats (filename map) = false ->
         cmp_files w (filename map)
           (PROC_MAP_FILES_PATH pid (start map) (end_ map)) = (c, t) ->
         c <> 0 ->
         maps_loop fnmatch w flags pid pats (buf :: rest) last res =
         if flag_set flags FLAG_VERBOSE
         then bind (tt, t ++ [Stdout (fmt_d pid ++ tab ++ filename map ++ nl)%string])
                (fun _ => maps_loop fnmatch w flags pid pats rest (filename map) 0)
         else (0, t ++ [Stdout (fmt_d pid ++ nl)%string]))
  /\ (forall (w : world) (fname1 fname2 : string),
         (exists e, sys_open w fname1 = Fail e)
         \/ (exists e, sys_open w fname2 = Fail e)
         \/ (exists f1 f2,
               sys_open w fname1 = Ok f1 /\ sys_open w fname2 = Ok f2
               /\ (f_fstat f1 <> None \/ f_fstat f2 <> None
                   \/ (st_size f1 = st_size f2
                       /\ exists e, mmap f1 (st_size f1) = Fail e
                                    \/ mmap f2 (st_size f1) = Fail e))) ->
         fst (cmp_files w fname1 fname2) = RET_ERROR).
Proof.
  split; [|split].
  - intros fnmatch w flags pid pats raw c t Hlink Hlen Hsel Hfit Hcmp Hc.
    rewrite (exe_deleted_link fnmatch w flags pid pats _ Hlink Hlen). cbv zeta.
    rewrite Hsel.
    pose proof (root_path_length pid (snd (str_chomp raw ".apk-new"))) as Hpos.
    replace (strlen (PROC_ROOT_PATH pid (snd (str_chomp raw ".apk-new"))) <=? 0)
      with false by (symmetry; apply Z.leb_gt; lia).
    replace (PATH_MAX <=? strlen (PROC_ROOT_PATH pid (snd (str_chomp raw ".apk-new"))))
      with false by (symmetry; apply Z.leb_gt; lia).
    cbn [orb]. rewrite Hcmp.
    apply Z.eqb_neq in Hc.
    unfold emit, printf, ret. rewrite !bind_pair. cbn [fst snd]. rewrite Hc.
    destruct (flag_set flags FLAG_VERBOSE); cbn; rewrite ?app_nil_r; reflexivity.
  - intros fnmatch w flags pid pats buf rest last res map c t
           Hline Hlast Hino Hdev Hsel Hcmp Hc.
    rewrite (maps_loop_entry fnmatch w flags pid pats buf rest last res map
               Hline Hlast Hino Hdev).
    rewrite Hsel, Hcmp. apply Z.eqb_neq in Hc.
    rewrite bind_pair. rewrite Hc.
    destruct (flag_set flags FLAG_VERBOSE).
    + unfold printf, emit. rewrite !bind_pair. cbn [fst snd].
      now rewrite app_assoc.
    + reflexivity.
  - apply cmp_files_failure.
Qed.

(** C10 on [staged_upgrade]: the files on disk are gone, [cmp_files]
    answers [RET_ERROR], and the process is reported. *)
Lemma failed_comparison_counts_as_stale_witness :
  fst (cmp_files staged_upgrade "/proc/42/exe" "/proc/42/root//usr/bin/foo") = RET_ERROR
  /\ proc_has_replaced_exe Glob.fnmatch staged_upgrade 0 42 [] =
     (0, [CallReadlink "/proc/42/exe"; CallOpen "/proc/42/exe";
          CallOpen "/proc/42/root//usr/bin/foo"; Stdout ("42" ++ nl)%string])
  /\ maps_loop Glob.fnmatch staged_upgrade 0 42 []
       [maps_line "r-xp" "/usr/lib/libfoo.so.1.apk-new (deleted)"] EmptyString 1 =
     (0, [CallOpen "/usr/lib/libfoo.so.1"; Stdout ("42" ++ nl)%string]).
Proof.
  destruct failed_comparison_counts_as_stale as [Hexe [Hloop Hfail]].
  split; [|split].
  - apply Hfail. right. left. exists ENOENT. reflexivity.
  - apply (Hexe Glob.fnmatch staged_upgrade 0 42 [] "/usr/bin/foo.apk-new"%string
             RET_ERROR [CallOpen "/proc/42/exe"; CallOpen "/proc/42/root//usr/bin/foo"]);
      try reflexivity; discriminate.
  - apply (Hloop Glob.fnmatch staged_upgrade 0 42 []
             (maps_line "r-xp" "/usr/lib/libfoo.so.1.apk-new (deleted)") []
             EmptyString 1 libfoo RET_ERROR [CallOpen "/usr/lib/libfoo.so.1"]);
      try reflexivity; discriminate.
Defined.

(** * Further properties of the code *)

(** ** str_chomp and str_to_uint *)

(** X1.  [str_chomp] answers true exactly when the string ends with the
    suffix, and then gives back the string without it; otherwise the string
    comes back whole. *)
Theorem str_chomp_ends_with (str suffix : string) :
  (fst (str_chomp str suffix) = true <-> exists a, str = (a ++ suffix)%string)
  /\ (forall a, str = (a ++ suffix)%string -> str_chomp str suffix = (true, a))
  /\ (fst (str_chomp str suffix) = false -> snd (str_chomp str suffix) = str).
Proof.
  split; [|split].
  - split.
    + intros H. exists (snd (str_chomp str suffix)). now apply str_chomp_true.
    + intros [a ->]. now rewrite str_chomp_app.
  - intros a ->. apply str_chomp_app.
  - apply str_chomp_false.
Qed.

Lemma isdigit_val (c : ascii) : isdigit c = true -> 0 <= digit_val c <= 9.
Proof.
  unfold isdigit, digit_val. intros H.
  apply andb_true_iff in H. destruct H as [H1 H2].
  apply Nat.leb_le in H1, H2. lia.
Qed.

Lemma scan_dec_lower (s : string) :
  forall acc, 0 <= acc -> acc <= fst (scan_dec s acc).
Proof.
  induction s as [|c r IH]; intros acc Hacc; cbn [scan_dec fst]; [lia|].
  destruct (isdigit c) eqn:Hc; cbn [fst]; [|lia].
  pose proof (isdigit_val c Hc) as Hd.
  assert (Hnext : 0 <= 10 * acc + digit_val c) by lia.
  specialize (IH _ Hnext). lia.
Qed.

Lemma scan_dec_all (s : string) :
  forall acc, all_digits s = true -> snd (scan_dec s acc) = EmptyString.
Proof.
  induction s as [|c r IH]; intros acc H; simpl in *; [reflexivity|].
  apply andb_true_iff in H. destruct H as [Hc Hr]. rewrite Hc. now apply IH.
Qed.

Lemma scan_dec_rest (s : string) :
  forall acc, snd (scan_dec s acc) = EmptyString -> all_digits s = true.
Proof.
  induction s as [|c r IH]; intros acc H; simpl in *; [reflexivity|].
  destruct (isdigit c); simpl in *; [now apply (IH _ H) | discriminate].
Qed.

(** What [str_to_uint] computes, in closed form. *)
Lemma str_to_uint_value (s : string) :
  str_to_uint s =
  if negb (s =? "")%string && all_digits s && (fst (scan_dec s 0) <=? INT_MAX)
  then fst (scan_dec s 0) else RET_ERROR.
Proof.
  destruct s as [|c0 r]; [reflexivity|].
  unfold str_to_uint, strtoul10.
  change (negb (String c0 r =? "")%string) with true. cbn [andb].
  cbn [all_digits]. destruct (isdigit c0) eqn:Hc0; [|reflexivity]. cbn [negb andb].
  pose proof (scan_dec_all (String c0 r) 0) as Hall.
  pose proof (scan_dec_rest (String c0 r) 0) as Hrest.
  cbn [all_digits] in Hall, Hrest. rewrite Hc0 in Hall, Hrest. cbn [andb] in Hall, Hrest.
  destruct (scan_dec (String c0 r) 0) as [v rest] eqn:Hscan. cbn [fst snd] in *.
  assert (HU : INT_MAX < ULONG_MAX) by reflexivity.
  destruct (ULONG_MAX <? v) eqn:Hbig.
  - apply Z.ltb_lt in Hbig.
    replace (v <=? INT_MAX) with false by (symmetry; apply Z.leb_gt; lia).
    now rewrite andb_false_r.
  - cbn [orb]. rewrite (Z.ltb_antisym v INT_MAX).
    destruct rest as [|e rest'].
    + rewrite (Hrest eq_refl). cbn [andb orb].
      destruct (v <=? INT_MAX); reflexivity.
    + destruct (all_digits r) eqn:Hr; [specialize (Hall eq_refl); discriminate|].
      cbn [andb]. now rewrite !orb_true_r.
Qed.

(** X2.  [str_to_uint] accepts exactly the non-empty strings of decimal
    digits whose value does not exceed [INT_MAX], and answers that value;
    every other string gives -1.  An accepted value is never negative, so
    -1 always means rejection. *)
Theorem str_to_uint_accepts (s : string) :
  (str_to_uint s <> -1 <->
   s <> EmptyString /\ all_digits s = true /\ fst (scan_dec s 0) <= INT_MAX)
  /\ (str_to_uint s <> -1 ->
      str_to_uint s = fst (scan_dec s 0) /\ 0 <= str_to_uint s <= INT_MAX).
Proof.
  rewrite str_to_uint_value.
  pose proof (scan_dec_lower s 0 (Z.le_refl 0)) as Hlow.
  destruct (s =? "")%string eqn:Hs; cbn [negb andb].
  - apply String.eqb_eq in Hs. subst s.
    split; [split; [intros H; now elim H | intros [H _]; now elim H] | intros H; now elim H].
  - apply String.eqb_neq in Hs.
    destruct (all_digits s); cbn [andb];
      [|split; [split; [intros H; now elim H | intros [_ [H _]]; discriminate]
               | intros H; now elim H]].
    destruct (fst (scan_dec s 0) <=? INT_MAX) eqn:Hle.
    + apply Z.leb_le in Hle. split; [split; [auto | lia] | lia].
    + apply Z.leb_gt in Hle.
      split; [split; [intros H; now elim H | intros [_ [_ H]]; lia] | intros H; now elim H].
Qed.

(** ** Decimal numbers written and read back *)

Lemma append_empty_r (s : string) : (s ++ "")%string = s.
Proof. induction s as [|c s IH]; cbn; [reflexivity | now rewrite IH]. Qed.

Lemma uval_of_lu (d d' : Decimal.uint) :
  uval d (Z.of_N (DecimalPos.Unsigned.of_lu d')) =
  Z.of_N (DecimalPos.Unsigned.of_lu (Decimal.revapp d d')).
Proof.
  revert d'. induction d; intros d'; cbn [uval Decimal.revapp]; [reflexivity|..];
    rewrite <- IHd; f_equal; cbn [DecimalPos.Unsigned.of_lu]; lia.
Qed.

Lemma uval_to_uint (n : N) : uval (N.to_uint n) 0 = Z.of_N n.
Proof.
  change 0 with (Z.of_N (DecimalPos.Unsigned.of_lu Decimal.Nil)).
  rewrite uval_of_lu.
  change (Decimal.revapp (N.to_uint n) Decimal.Nil) with (Decimal.rev (N.to_uint n)).
  rewrite <- DecimalPos.Unsigned.of_uint_alt.
  change (Pos.of_uint (N.to_uint n)) with (N.of_uint (N.to_uint n)).
  now rewrite DecimalN.Unsigned.of_to.
Qed.

Lemma scan_dec_uint (d : Decimal.uint) (rest : string) :
  no_digit_ahead rest = true ->
  forall acc,
    scan_dec (DecimalString.NilEmpty.string_of_uint d ++ rest) acc = (uval d acc, rest).
Proof.
  intros Hrest. induction d; intros acc;
    cbn [DecimalString.NilEmpty.string_of_uint append scan_dec uval];
    try (change (isdigit _) with true; cbv iota; rewrite IHd;
         f_equal; f_equal; unfold digit_val; cbn; lia).
  destruct rest as [|c r]; [reflexivity|].
  cbn [scan_dec]. cbn [no_digit_ahead] in Hrest.
  apply negb_true_iff in Hrest. now rewrite Hrest.
Qed.

Lemma to_uint_nonnil (n : N) : N.to_uint n <> Decimal.Nil.
Proof.
  destruct n as [|p]; [discriminate|].
  apply DecimalPos.Unsigned.to_uint_nonnil.
Qed.

Lemma nilzero_nilempty (n : N) :
  DecimalString.NilZero.string_of_uint (N.to_uint n) =
  DecimalString.NilEmpty.string_of_uint (N.to_uint n).
Proof.
  pose proof (to_uint_nonnil n) as H.
  unfold DecimalString.NilZero.string_of_uint.
  destruct (N.to_uint n); [now elim H | reflexivity ..].
Qed.

(** Scanning a printed natural number gives the number back and stops
    where the digits stop. *)
Lemma scan_dec_printed (n : N) (rest : string) :
  no_digit_ahead rest = true ->
  scan_dec (DecimalString.NilZero.string_of_uint (N.to_uint n) ++ rest) 0
  = (Z.of_N n, rest).
Proof.
  intros Hrest. rewrite nilzero_nilempty, (scan_dec_uint _ _ Hrest).
  now rewrite uval_to_uint.
Qed.

Lemma all_digits_uint (d : Decimal.uint) :
  all_digits (DecimalString.NilEmpty.string_of_uint d) = true.
Proof. induction d; cbn; auto. Qed.

Lemma printed_head (n : N) :
  exists c r, DecimalString.NilZero.string_of_uint (N.to_uint n) = String c r
              /\ isdigit c = true.
Proof.
  rewrite nilzero_nilempty. pose proof (to_uint_nonnil n) as H.
  destruct (N.to_uint n); [now elim H|..]; cbn; eexists; eexists; split; reflexivity.
Qed.

(** X3.  A process identifier written with [%u], as in the /proc paths the
    program builds, is read back by [str_to_uint] as itself: every
    identifier from 0 to [INT_MAX] has a name that [next_pid] accepts. *)
Theorem str_to_uint_fmt_u (pid : Z) :
  0 <= pid <= INT_MAX -> str_to_uint (fmt_u pid) = pid.
Proof.
  intros Hpid. rewrite str_to_uint_value. unfold fmt_u.
  assert (Hmod : pid mod 2 ^ 32 = pid)
    by (apply Z.mod_small; unfold INT_MAX in Hpid; lia).
  rewrite Hmod.
  pose proof (scan_dec_printed (Z.to_N pid) EmptyString eq_refl) as Hscan.
  rewrite append_empty_r in Hscan. rewrite Hscan. cbn [fst].
  rewrite Z2N.id by lia.
  destruct (printed_head (Z.to_N pid)) as [c [r [Hstr _]]].
  rewrite nilzero_nilempty, all_digits_uint.
  rewrite nilzero_nilempty in Hstr. rewrite Hstr. cbn [String.eqb negb andb].
  replace (pid <=? INT_MAX) with true by (symmetry; apply Z.leb_le; lia).
  reflexivity.
Qed.

Lemma str_to_uint_fmt_u_witness : str_to_uint (fmt_u 4242) = 4242.
Proof. apply str_to_uint_fmt_u. unfold INT_MAX. lia. Defined.

Lemma isdigit_plain (c : ascii) :
  isdigit c = true ->
  isspace c = false /\ Ascii.eqb c "-" = false /\ Ascii.eqb c "+" = false.
Proof.
  destruct c as [[] [] [] [] [] [] [] []]; intros H; try discriminate H;
    repeat split; reflexivity.
Qed.

(** [atoi] reads a printed [int] back, whatever follows it that is not a
    digit. *)
Lemma atoi_fmt_d (n : Z) (rest : string) :
  - 2 ^ 31 <= n <= INT_MAX -> no_digit_ahead rest = true ->
  atoi (fmt_d n ++ rest) = n.
Proof.
  intros Hn Hrest. unfold INT_MAX in Hn. unfold atoi, fmt_d.
  destruct (n <? 0) eqn:Hneg.
  - apply Z.ltb_lt in Hneg.
    cbn [append skip_space]. change (isspace "-") with false. cbv iota.
    change (Ascii.eqb "-" "-") with true. cbv iota.
    rewrite (scan_dec_printed _ _ Hrest), Z2N.id by lia.
    unfold wrap_int. rewrite Z.opp_involutive.
    rewrite Z.mod_small by lia. lia.
  - apply Z.ltb_ge in Hneg.
    destruct (printed_head (Z.to_N n)) as [c [r [Hstr Hc]]].
    destruct (isdigit_plain c Hc) as [Hsp [Hminus Hplus]].
    pose proof (scan_dec_printed (Z.to_N n) rest Hrest) as Hscan.
    rewrite Hstr in *. cbn [append skip_space]. rewrite Hsp, Hminus, Hplus.
    cbn [append] in Hscan. rewrite Hscan, Z2N.id by lia.
    unfold wrap_int. rewrite Z.mod_small by lia. lia.
Qed.

Lemma read_pids_printed (pids : list Z) :
  (forall pid, In pid pids -> 1 <= pid <= INT_MAX) ->
  read_pids (List.map fmt_d pids) = inr pids.
Proof.
  induction pids as [|pid rest IH]; intros Hall; [reflexivity|].
  cbn [List.map read_pids].
  assert (Hpid : 1 <= pid <= INT_MAX) by (apply Hall; now left).
  pose proof (atoi_fmt_d pid EmptyString) as Hatoi.
  rewrite append_empty_r in Hatoi. rewrite Hatoi by (unfold INT_MAX in *; try reflexivity; lia).
  replace (pid <? 1) with false by (symmetry; apply Z.ltb_ge; lia).
  rewrite IH; [reflexivity|]. intros p Hp. apply Hall. now right.
Qed.

Lemma visited_terminated (pids : list Z) :
  (forall pid, In pid pids -> pid <> -1) -> visited (pids ++ [-1]) = pids.
Proof.
  induction pids as [|pid rest IH]; intros Hall; [reflexivity|].
  cbn [app visited].
  replace (pid =? -1) with false
    by (symmetry; apply Z.eqb_neq; apply Hall; now left).
  rewrite IH; [reflexivity|]. intros p Hp. apply Hall. now right.
Qed.

Lemma fmt_d_operand (pid : Z) : 0 <= pid -> option_chars (fmt_d pid) = None.
Proof.
  intros Hpid. unfold fmt_d.
  replace (pid <? 0) with false by (symmetry; apply Z.ltb_ge; lia).
  destruct (printed_head (Z.to_N pid)) as [c [r [Hstr Hc]]]. rewrite Hstr.
  destruct (isdigit_plain c Hc) as [_ [Hminus _]].
  unfold option_chars. destruct r; [reflexivity|]. now rewrite Hminus.
Qed.

(** X4.  Process identifiers written as the program prints them are valid
    operands: given the decimal forms of identifiers between 1 and
    [INT_MAX] and no option, [main] scans exactly these processes, in the
    order given, with no flag set and no filter. *)
Theorem printed_pids_are_operands (fnmatch : string -> string -> Z -> Z) (w : world)
    (prog : string) (pid : Z) (pids : list Z) :
  (forall p, In p (pid :: pids) -> 1 <= p <= INT_MAX) ->
  read_pids (List.map fmt_d (pid :: pids)) = inr (pid :: pids)
  /\ visited ((pid :: pids) ++ [-1]) = pid :: pids
  /\ main fnmatch w (prog :: List.map fmt_d (pid :: pids)) =
     scan_procs fnmatch w 0 ((pid :: pids) ++ [-1]) [].
Proof.
  intros Hall. split; [|split].
  - now apply read_pids_printed.
  - apply visited_terminated. intros p Hp. specialize (Hall p Hp). lia.
  - assert (Hopt : getopt_loop (List.tl (prog :: List.map fmt_d (pid :: pids))) 0 []
                   = ((OptNext 0 [] false, List.map fmt_d (pid :: pids)), [])).
    { cbn [List.tl List.map getopt_loop].
      rewrite fmt_d_operand; [reflexivity|].
      specialize (Hall pid (or_introl eq_refl)). lia. }
    rewrite (main_after_options fnmatch w _ _ _ _ _ _ Hopt).
    pose proof (read_pids_printed (pid :: pids) Hall) as Hread.
    cbn [List.map] in Hread |- *. rewrite Hread. reflexivity.
Qed.

Lemma printed_pids_are_operands_witness :
  read_pids (List.map fmt_d [42; 7]) = inr [42; 7]
  /\ visited ([42; 7] ++ [-1]) = [42; 7]
  /\ main Glob.fnmatch two_procs ("procs-need-restart"%string :: List.map fmt_d [42; 7]) =
     scan_procs Glob.fnmatch two_procs 0 ([42; 7] ++ [-1]) [].
Proof.
  apply (printed_pids_are_operands Glob.fnmatch two_procs "procs-need-restart" 42 [7]).
  intros p [<-|[<-|[]]]; unfold INT_MAX; lia.
Defined.

(** ** next_pid *)

Lemma str_to_uint_range (s : string) :
  str_to_uint s <> -1 -> 0 <= str_to_uint s <= INT_MAX.
Proof.
  rewrite str_to_uint_value.
  pose proof (scan_dec_lower s 0 (Z.le_refl 0)) as Hlow.
  destruct (negb (s =? "")%string && all_digits s); cbn [andb]; [|intros H; now elim H].
  destruct (fst (scan_dec s 0) <=? INT_MAX) eqn:Hle; [|intros H; now elim H].
  apply Z.leb_le in Hle. lia.
Qed.

(** X5.  [next_pid] passes over the entries that are not process
    identifiers and stops at the first that is: the stream read so far is
    the skipped names followed by the accepted one, the rest is left for
    the next call, and the identifier is between 0 and [INT_MAX].  It
    answers -1, with the stream used up, exactly when no entry is a
    process identifier. *)
Theorem next_pid_first_valid (proc_dir : list string) :
  (fst (next_pid proc_dir) = -1 <-> dir_pids proc_dir = [])
  /\ (fst (next_pid proc_dir) = -1 -> snd (next_pid proc_dir) = [])
  /\ (fst (next_pid proc_dir) <> -1 ->
      exists skipped d_name,
        proc_dir = skipped ++ d_name :: snd (next_pid proc_dir)
        /\ Forall (fun d => str_to_uint d = -1) skipped
        /\ str_to_uint d_name = fst (next_pid proc_dir)
        /\ 0 <= fst (next_pid proc_dir) <= INT_MAX
        /\ dir_pids proc_dir = fst (next_pid proc_dir) :: dir_pids (snd (next_pid proc_dir))).
Proof.
  induction proc_dir as [|d rest [IH1 [IH2 IH3]]].
  - cbn. split; [tauto|]. split; [reflexivity | intros H; now elim H].
  - cbn [next_pid dir_pids].
    destruct (str_to_uint d =? -1) eqn:Hd; cbn [negb].
    + apply Z.eqb_eq in Hd. split; [exact IH1|]. split; [exact IH2|].
      intros Hpid. destruct (IH3 Hpid) as [skipped [name [Hdir [Hsk [Hname [Hr Hp]]]]]].
      exists (d :: skipped), name. repeat split; try assumption; try lia.
      * cbn [app]. now rewrite <- Hdir.
      * now constructor.
    + apply Z.eqb_neq in Hd. cbn [fst snd].
      split; [split; [intros H; now elim Hd | discriminate]|].
      split; [intros H; now elim Hd|].
      intros _. exists [], d. repeat split; try reflexivity.
      * constructor.
      * apply (str_to_uint_range d Hd).
      * apply (str_to_uint_range d Hd).
Qed.

(** ** fnmatch_any *)

(** X6.  A rule list made of negated rules only selects nothing: a negated
    rule that matches answers false, and so does running out of rules.
    With such a list neither check ever gets to compare a file. *)
Theorem only_negated_rules_select_nothing (fnmatch : string -> string -> Z -> Z)
    (patterns : list string) (path : string) (flags : Z) :
  (forall item, In item patterns -> negated_item item = true) ->
  fnmatch_any fnmatch patterns path flags = false
  /\ (patterns <> [] -> excluded fnmatch patterns path = true).
Proof.
  intros Hneg.
  assert (Hany : forall fl, fnmatch_any fnmatch patterns path fl = false).
  { intros fl. induction patterns as [|item rest IH]; [reflexivity|].
    cbn [fnmatch_any]. rewrite (Hneg item (or_introl eq_refl)).
    destruct (fnmatch (item_glob item) path fl =? 0); [reflexivity|].
    apply IH. intros i Hi. apply Hneg. now right. }
  split; [apply Hany|].
  intros Hne. unfold excluded. rewrite Hany.
  destruct patterns; [now elim Hne | reflexivity].
Qed.

Lemma only_negated_rules_select_nothing_witness :
  fnmatch_any Glob.fnmatch ["!*.so"; "!/usr/bin/*"] "/etc/passwd" 0 = false
  /\ (["!*.so"; "!/usr/bin/*"] <> [] ->
      excluded Glob.fnmatch ["!*.so"; "!/usr/bin/*"] "/etc/passwd" = true).
Proof.
  apply only_negated_rules_select_nothing.
  intros item [<-|[<-|[]]]; reflexivity.
Defined.

(** ** cmp_files *)

Lemma to_N_inj (x y : Byte.byte) : Byte.to_N x = Byte.to_N y -> x = y.
Proof.
  intros H. pose proof (Byte.of_to_N x) as Hx. pose proof (Byte.of_to_N y) as Hy.
  rewrite H in Hx. congruence.
Qed.

Lemma memcmp_eq (a b : list Byte.byte) :
  List.length a = List.length b ->
  (memcmp a b (List.length a) = 0 <-> a = b).
Proof.
  revert b. induction a as [|x a IH]; intros [|y b] Hlen; try discriminate Hlen.
  - cbn. tauto.
  - cbn [List.length memcmp]. injection Hlen as Hlen.
    destruct (Byte.to_N x <? Byte.to_N y)%N eqn:Hxy.
    { apply N.ltb_lt in Hxy. split; [discriminate|].
      intros E. injection E as -> _. lia. }
    destruct (Byte.to_N y <? Byte.to_N x)%N eqn:Hyx.
    { apply N.ltb_lt in Hyx. split; [discriminate|].
      intros E. injection E as -> _. lia. }
    apply N.ltb_ge in Hxy, Hyx.
    assert (Hxy' : x = y) by (apply to_N_inj; lia). subst y.
    rewrite (IH b Hlen). split; [intros ->; reflexivity | intros E; now injection E].
Qed.

(** X7.  [cmp_files] answers 0 only for two files that both open, stat and
    map, and hold the same bytes, at least one of them; and for every such
    pair it does answer 0. *)
Theorem cmp_files_zero_iff (w : world) (fname1 fname2 : string) :
  fst (cmp_files w fname1 fname2) = 0 <->
  exists f1 f2,
    sys_open w fname1 = Ok f1 /\ sys_open w fname2 = Ok f2
    /\ f_fstat f1 = None /\ f_fstat f2 = None
    /\ f_mmap f1 = None /\ f_mmap f2 = None
    /\ f_data f1 = f_data f2 /\ f_data f1 <> [].
Proof.
  unfold cmp_files.
  destruct (sys_open w fname1) as [f1|e1];
    [|split; [discriminate | intros [? [? [H _]]]; discriminate]].
  destruct (sys_open w fname2) as [f2|e2];
    [|split; [discriminate | intros [? [? [_ [H _]]]]; discriminate]].
  destruct (f_fstat f1) as [s1|] eqn:S1;
    [split; [discriminate | intros [x [y [H1 [_ [H _]]]]]; congruence]|].
  destruct (f_fstat f2) as [s2|] eqn:S2;
    [split; [discriminate | intros [x [y [_ [H2 [_ [H _]]]]]]; congruence]|].
  destruct (st_size f1 =? st_size f2) eqn:Hsz; cbn [negb].
  2:{ apply Z.eqb_neq in Hsz. split; [discriminate|].
      intros [x [y [H1 [H2 [_ [_ [_ [_ [Hd _]]]]]]]]].
      injection H1 as <-. injection H2 as <-.
      unfold st_size in Hsz. now rewrite Hd in Hsz. }
  apply Z.eqb_eq in Hsz. unfold mmap.
  destruct (st_size f1 =? 0) eqn:Hzero.
  { apply Z.eqb_eq in Hzero. split; [discriminate|].
    intros [x [y [H1 [_ [_ [_ [_ [_ [_ Hne]]]]]]]]]. injection H1 as <-.
    unfold st_size in Hzero. destruct (f_data f1); [now elim Hne | discriminate]. }
  apply Z.eqb_neq in Hzero.
  destruct (f_mmap f1) as [m1|] eqn:M1;
    [split; [discriminate | intros [x [y [H1 [_ [_ [_ [H _]]]]]]]];
     injection H1 as <-; congruence|].
  destruct (f_mmap f2) as [m2|] eqn:M2;
    [split; [discriminate | intros [x [y [_ [H2 [_ [_ [_ [H _]]]]]]]]];
     injection H2 as <-; congruence|].
  cbn [bind emit ret fst snd app].
  unfold st_size in *. rewrite Nat2Z.id.
  assert (Hlen : List.length (f_data f1) = List.length (f_data f2)) by lia.
  pose proof (memcmp_eq (f_data f1) (f_data f2) Hlen) as Hmem.
  destruct (memcmp (f_data f1) (f_data f2) (List.length (f_data f1)) =? 0) eqn:Hc.
  - apply Z.eqb_eq in Hc. split; [|reflexivity]. intros _.
    exists f1, f2. repeat split; try reflexivity; try assumption.
    + now apply Hmem.
    + intros E. rewrite E in Hzero. now elim Hzero.
  - apply Z.eqb_neq in Hc. split; [discriminate|].
    intros [x [y [H1 [H2 [_ [_ [_ [_ [Hd _]]]]]]]]].
    injection H1 as <-. injection H2 as <-. elim Hc. now apply Hmem.
Qed.

(** Two files of sizes 1 and 2 on a sample system. *)
Lemma cmp_files_size_differs_witness :
  cmp_files
    (table_world 0 [] [] [] []
       [("/a", Ok (regular [Byte.x01])); ("/b", Ok (regular [Byte.x01; Byte.x02]))] [])
    "/a" "/b"
  = (1, [CallOpen "/a"; CallOpen "/b"; CallFstat "/a"; CallFstat "/b"]).
Proof.
  apply (cmp_files_size_differs _ "/a" "/b" (regular [Byte.x01])
           (regular [Byte.x01; Byte.x02])); try reflexivity.
  discriminate.
Defined.

(** ** resolve_link *)

(** X10.  With a buffer of two bytes or more [resolve_link] fails exactly
    when the link cannot be read, leaving the [errno] of [readlink]; a
    target longer than the buffer is no error: the buffer gets its first
    [buff_size - 1] characters, a shorter target comes back whole, and
    the result always leaves room for the terminating NUL.  With a buffer
    of one byte or none, [readlink] is asked for no byte at all, refuses
    with [EINVAL], and [resolve_link] fails whatever the link is. *)
Theorem resolve_link_cuts_silently (w : world) (pathname : string) (buff_size : Z) :
  (buff_size <= 1 ->
   resolve_link w pathname buff_size =
   ((RET_ERROR, EmptyString, Some EINVAL), [CallReadlink pathname]))
  /\ (2 <= buff_size ->
      match sys_readlink w pathname with
      | Fail e =>
        resolve_link w pathname buff_size =
        ((RET_ERROR, EmptyString, Some e), [CallReadlink pathname])
      | Ok target =>
        resolve_link w pathname buff_size =
        ((0, substring 0 (Z.to_nat (buff_size - 1)) target, None), [CallReadlink pathname])
        /\ strlen (substring 0 (Z.to_nat (buff_size - 1)) target) <= buff_size - 1
        /\ (strlen target <= buff_size - 1 ->
            substring 0 (Z.to_nat (buff_size - 1)) target = target)
      end).
Proof.
  unfold resolve_link. split; intros Hsize.
  { replace (buff_size - 1 <=? 0) with true by (symmetry; apply Z.leb_le; lia).
    reflexivity. }
  replace (buff_size - 1 <=? 0) with false by (symmetry; apply Z.leb_gt; lia).
  destruct (sys_readlink w pathname) as [target|e]; [|reflexivity].
  assert (Hshort : forall n, (String.length target <= n)%nat -> substring 0 n target = target)
    by (intros n; apply substring_short).
  assert (Hlen : forall n s, (String.length (substring 0 n s) <= n)%nat).
  { intros n. induction n as [|n IH]; intros s.
    - destruct s; cbn; lia.
    - destruct s as [|c s]; cbn; [lia|]. specialize (IH s). lia. }
  split; [|split].
  - replace (buff_size <=? Z.min (strlen target) (buff_size - 1)) with false
      by (symmetry; apply Z.leb_gt; lia).
    assert (Hcut : substring 0 (Z.to_nat (Z.min (strlen target) (buff_size - 1))) target
                   = substring 0 (Z.to_nat (buff_size - 1)) target).
    { destruct (Z.le_ge_cases (strlen target) (buff_size - 1)) as [Hle|Hge].
      - rewrite Z.min_l by lia. unfold strlen in *.
        rewrite Nat2Z.id, substring_all. symmetry. apply Hshort. lia.
      - now rewrite Z.min_r by lia. }
    rewrite Hcut. reflexivity.
  - unfold strlen. specialize (Hlen (Z.to_nat (buff_size - 1)) target). lia.
  - intros Hfit. apply Hshort. unfold strlen in Hfit. lia.
Qed.

Lemma resolve_link_cuts_silently_witness :
  resolve_link staged_upgrade "/proc/42/exe" 1 =
  ((RET_ERROR, EmptyString, Some EINVAL), [CallReadlink "/proc/42/exe"])
  /\ resolve_link staged_upgrade "/proc/42/exe" 14 =
     ((0, substring 0 (Z.to_nat (14 - 1)) "/usr/bin/foo.apk-new (deleted)", None),
      [CallReadlink "/proc/42/exe"])
  /\ strlen (substring 0 (Z.to_nat (14 - 1)) "/usr/bin/foo.apk-new (deleted)") <= 14 - 1
  /\ (strlen "/usr/bin/foo.apk-new (deleted)" <= 14 - 1 ->
      substring 0 (Z.to_nat (14 - 1)) "/usr/bin/foo.apk-new (deleted)"
      = "/usr/bin/foo.apk-new (deleted)"%string).
Proof.
  split.
  - apply (proj1 (resolve_link_cuts_silently staged_upgrade "/proc/42/exe" 1)).
    discriminate.
  - apply (proj2 (resolve_link_cuts_silently staged_upgrade "/proc/42/exe" 14)).
    discriminate.
Defined.

(** ** What the checks write *)

Lemma stdout_of_app (a b : list event) : stdout_of (a ++ b) = stdout_of a ++ stdout_of b.
Proof.
  induction a as [|e a IH]; [reflexivity|].
  destruct e; cbn [app stdout_of]; rewrite IH; reflexivity.
Qed.

Lemma stderr_of_app (a b : list event) : stderr_of (a ++ b) = stderr_of a ++ stderr_of b.
Proof.
  induction a as [|e a IH]; [reflexivity|].
  destruct e; cbn [app stderr_of]; rewrite IH; reflexivity.
Qed.

Lemma opened_app (a b : list event) : opened (a ++ b) = opened a ++ opened b.
Proof.
  induction a as [|e a IH]; [reflexivity|].
  destruct e; cbn [app opened]; rewrite IH; reflexivity.
Qed.

(** [cmp_files] answers -1, 0 or 1, writes nothing to standard output and
    opens nothing but the two files it is given. *)
Lemma cmp_files_quiet (w : world) (fname1 fname2 : string) :
  (fst (cmp_files w fname1 fname2) = -1 \/ fst (cmp_files w fname1 fname2) = 0
   \/ fst (cmp_files w fname1 fname2) = 1)
  /\ stdout_of (snd (cmp_files w fname1 fname2)) = []
  /\ (forall path, In path (opened (snd (cmp_files w fname1 fname2))) ->
                   path = fname1 \/ path = fname2).
Proof.
  unfold cmp_files.
  destruct (sys_open w fname1) as [f1|e1];
    [|cbn; split; [auto | split; [reflexivity | intros p [<-|[]]; auto]]].
  destruct (sys_open w fname2) as [f2|e2];
    [|cbn; split; [auto | split; [reflexivity | intros p [<-|[<-|[]]]; auto]]].
  destruct (f_fstat f1); [cbn; split; [auto | split; [reflexivity | intros p [<-|[<-|[]]]; auto]]|].
  destruct (f_fstat f2); [cbn; split; [auto | split; [reflexivity | intros p [<-|[<-|[]]]; auto]]|].
  destruct (negb (st_size f1 =? st_size f2));
    [cbn; split; [auto | split; [reflexivity | intros p [<-|[<-|[]]]; auto]]|].
  destruct (mmap f1 (st_size f1));
    [|cbn; split; [auto | split; [reflexivity | intros p [<-|[<-|[]]]; auto]]].
  destruct (mmap f2 (st_size f1));
    [|cbn; split; [auto | split; [reflexivity | intros p [<-|[<-|[]]]; auto]]].
  cbn [bind emit ret fst snd app stdout_of opened].
  split; [|split; [reflexivity | intros p [<-|[<-|[]]]; auto]].
  destruct (memcmp _ _ _ =? 0); auto.
Qed.

(** The executable check answers -1, 0 or 1; it prints one line exactly
    when it answers 0, nothing otherwise, and -1 comes with a message. *)
Lemma exe_report (fnmatch : string -> string -> Z -> Z) (w : world)
    (flags pid : Z) (pats : list string) :
  let r := proc_has_replaced_exe fnmatch w flags pid pats in
  (fst r = -1 \/ fst r = 0 \/ fst r = 1)
  /\ (exists path,
        stdout_of (snd r) = if fst r =? 0 then [report_line flags pid path] else [])
  /\ (fst r = -1 -> stderr_of (snd r) <> []).
Proof.
  cbv zeta. unfold proc_has_replaced_exe, resolve_link.
  change (PATH_MAX - 1 <=? 0) with false. cbv iota.
  destruct (sys_readlink w (PROC_EXE_PATH pid)) as [target|e].
  - replace (PATH_MAX <=? Z.min (strlen target) (PATH_MAX - 1)) with false
      by (symmetry; apply Z.leb_gt; unfold PATH_MAX; lia).
    cbn [bind emit ret fst snd app]. change (0 <? 0) with false. cbv iota.
    destruct (str_chomp _ " (deleted)") as [deleted link].
    destruct deleted; cbn [negb];
      [|cbn; split; [auto | split; [exists EmptyString; reflexivity | discriminate]]].
    destruct (excluded fnmatch pats _);
      [cbn; split; [auto | split; [exists EmptyString; reflexivity | discriminate]]|].
    set (path := snd (str_chomp link ".apk-new")).
    destruct ((strlen (PROC_ROOT_PATH pid path) <=? 0)
              || (PATH_MAX <=? strlen (PROC_ROOT_PATH pid path))).
    + unfold report_line, printf, log_err, emit, ret.
      destruct (flag_set flags FLAG_VERBOSE); cbn;
        (split; [auto | split; [exists path; reflexivity | discriminate]]).
    + destruct (cmp_files_quiet w (PROC_EXE_PATH pid) (PROC_ROOT_PATH pid path))
        as [_ [Hquiet _]].
      destruct (cmp_files w (PROC_EXE_PATH pid) (PROC_ROOT_PATH pid path)) as [c t].
      cbn [fst snd] in Hquiet.
      unfold report_line, printf, emit, ret. cbn [bind fst snd app].
      destruct (c =? 0); destruct (flag_set flags FLAG_VERBOSE);
        cbn [bind fst snd app stdout_of Z.eqb];
        rewrite ?app_nil_r, ?stdout_of_app, ?Hquiet;
        (split; [auto | split; [exists path; reflexivity | discriminate]]).
  - cbn [bind emit ret fst snd app]. change (RET_ERROR <? 0) with true. cbv iota.
    destruct (errno_is (Some e) EACCES && flag_set flags FLAG_IGNORE_EACCES);
      [cbn; split; [auto | split; [exists EmptyString; reflexivity | discriminate]]|].
    unfold proc_exists. destruct (sys_kill0 w pid) as [u|e'].
    + cbn. split; [auto | split; [exists EmptyString; reflexivity | discriminate]].
    + destruct (errno_eqb e' ESRCH); cbn;
        (split; [auto | split; [exists EmptyString; reflexivity | discriminate]]).
Qed.

(** The checker answers 0 when some entry is stale and leaves the result
    alone otherwise; it prints a line for every stale entry in verbose
    mode, and for the first one only otherwise. *)
Lemma check_entries_report (fnmatch : string -> string -> Z -> Z) (w : world)
    (flags pid : Z) (pats : list string) (maps : list map_info) :
  forall res,
    fst (check_entries fnmatch w flags pid pats maps res) =
    (if List.existsb (stale_entry fnmatch w pid pats) maps then 0 else res)
    /\ stdout_of (snd (check_entries fnmatch w flags pid pats maps res)) =
       List.map (fun map => report_line flags pid (filename map))
         (if flag_set flags FLAG_VERBOSE
          then List.filter (stale_entry fnmatch w pid pats) maps
          else List.firstn 1 (List.filter (stale_entry fnmatch w pid pats) maps)).
Proof.
  induction maps as [|map rest IH]; intros res.
  - cbn. now destruct (flag_set flags FLAG_VERBOSE).
  - cbn [check_entries List.existsb List.filter].
    assert (Hm : stale_entry fnmatch w pid pats map =
                 negb ((inode map =? 0) || (dev_major map =? 0))
                 && negb (excluded fnmatch pats (filename map))
                 && negb (fst (cmp_files w (filename map)
                                 (PROC_MAP_FILES_PATH pid (start map) (end_ map))) =? 0))
      by reflexivity.
    destruct ((inode map =? 0) || (dev_major map =? 0));
      [cbn [negb andb] in Hm; rewrite Hm; apply IH|].
    destruct (excluded fnmatch pats (filename map));
      [cbn [negb andb] in Hm; rewrite Hm; apply IH|].
    destruct (cmp_files_quiet w (filename map)
                (PROC_MAP_FILES_PATH pid (start map) (end_ map))) as [_ [Hquiet _]].
    destruct (cmp_files w (filename map)
                (PROC_MAP_FILES_PATH pid (start map) (end_ map))) as [c t].
    cbn [fst snd negb andb] in Hquiet, Hm |- *. rewrite Hm, bind_pair.
    destruct (c =? 0); cbn [negb orb fst snd].
    + rewrite stdout_of_app, Hquiet. apply IH.
    + unfold report_line. destruct (flag_set flags FLAG_VERBOSE) eqn:Hv.
      * unfold printf, emit. rewrite bind_pair. cbn [fst snd List.map].
        destruct (IH 0) as [IH1 IH2]. rewrite ?Hv in IH2.
        split.
        -- rewrite IH1. now destruct (List.existsb _ rest).
        -- rewrite !stdout_of_app, Hquiet. cbn [stdout_of app].
           rewrite IH2. unfold report_line. rewrite ?Hv. reflexivity.
      * cbn [printf emit ret bind fst snd app List.firstn List.map].
        split; [reflexivity|].
        rewrite stdout_of_app, Hquiet. reflexivity.
Qed.

Lemma existsb_filter {A : Type} (f : A -> bool) (l : list A) :
  List.existsb f l = match List.filter f l with [] => false | _ :: _ => true end.
Proof.
  induction l as [|x l IH]; [reflexivity|].
  cbn [List.existsb List.filter]. destruct (f x); [reflexivity | exact IH].
Qed.

Lemma maps_report (fnmatch : string -> string -> Z -> Z) (w : world)
    (flags pid : Z) (pats : list string) :
  let r := proc_maps_replaced_files fnmatch w flags pid pats in
  (fst r = -1 \/ fst r = 0 \/ fst r = 1)
  /\ (fst r = 0 <-> stdout_of (snd r) <> [])
  /\ (flag_set flags FLAG_VERBOSE = false ->
      stdout_of (snd r) = if fst r =? 0 then [report_line flags pid EmptyString] else [])
  /\ (fst r = -1 -> stderr_of (snd r) <> []).
Proof.
  cbv zeta. unfold proc_maps_replaced_files.
  destruct (sys_fopen w (PROC_MAPS_PATH pid)) as [content|e].
  - cbn [bind emit fst snd app stdout_of].
    rewrite (io_eta (maps_loop _ _ _ _ _ _ _ _)). cbn [fst snd stdout_of].
    rewrite maps_loop_entries.
    destruct (check_entries_report fnmatch w flags pid pats
                (entries (getlines content) EmptyString) 1) as [Hres Hout].
    rewrite Hres, Hout.
    rewrite existsb_filter.
    destruct (List.filter _ _) as [|m l].
    + destruct (flag_set flags FLAG_VERBOSE); cbn;
        (split; [auto | split; [split; [discriminate | intros H; now elim H]
                               | split; [reflexivity | discriminate]]]).
    + destruct (flag_set flags FLAG_VERBOSE) eqn:Hv; cbn [List.firstn List.map Z.eqb];
        (split; [auto | split; [split; [discriminate | reflexivity]
                               | split; [ | discriminate]]]);
        [discriminate | intros _; unfold report_line; rewrite Hv; reflexivity].
  - destruct (errno_eqb e EACCES && flag_set flags FLAG_IGNORE_EACCES);
      [cbn; split; [auto | split; [split; [discriminate | intros H; now elim H]
                                  | split; [reflexivity | discriminate]]]|].
    unfold proc_exists. destruct (sys_kill0 w pid) as [u|e'];
      [|destruct (errno_eqb e' ESRCH)]; cbn;
      (split; [auto | split; [split; [discriminate | intros H; now elim H]
                             | split; [reflexivity | discriminate]]]).
Qed.

(** ** scan_proc *)

(** X11.  [scan_proc] answers -1, 0 or 1.  It answers 0 exactly when it
    printed something; without the verbose flag what it prints is then
    the single line of the process identifier, so that no process is
    listed twice; and it never answers -1 without a message on standard
    error. *)
Theorem scan_proc_reports (fnmatch : string -> string -> Z -> Z) (w : world)
    (flags pid : Z) (pats : list string) :
  let r := scan_proc fnmatch w flags pid pats in
  (fst r = -1 \/ fst r = 0 \/ fst r = 1)
  /\ (fst r = 0 <-> stdout_of (snd r) <> [])
  /\ (flag_set flags FLAG_VERBOSE = false ->
      stdout_of (snd r) = if fst r =? 0 then [(fmt_d pid ++ nl)%string] else [])
  /\ (fst r = -1 -> stderr_of (snd r) <> []).
Proof.
  cbv zeta. unfold scan_proc. rewrite bind_unfold.
  destruct (exe_report fnmatch w flags pid pats) as [Hr1 [[path Hout1] Herr1]].
  destruct (maps_report fnmatch w flags pid pats) as [Hr2 [Hiff2 [Hout2 Herr2]]].
  cbv zeta in *.
  set (e := proc_has_replaced_exe fnmatch w flags pid pats) in *.
  set (m := proc_maps_replaced_files fnmatch w flags pid pats) in *.
  assert (Hline : flag_set flags FLAG_VERBOSE = false ->
                  forall p, report_line flags pid p = (fmt_d pid ++ nl)%string)
    by (intros Hv p; unfold report_line; now rewrite Hv).
  destruct Hr1 as [H1|[H1|H1]]; rewrite H1 in *.
  - cbn [Z.eqb RET_ERROR ret fst snd] in *. change (-1 =? RET_ERROR) with true.
    cbn [ret fst snd]. rewrite app_nil_r, Hout1.
    split; [auto|]. split; [split; [discriminate | intros H; now elim H]|].
    split; [reflexivity | exact Herr1].
  - change (0 =? RET_ERROR) with false. cbv iota. cbn [Z.eqb andb] in *.
    destruct (flag_set flags FLAG_VERBOSE) eqn:Hv; cbn [negb].
    + rewrite bind_unfold. cbn [ret fst snd]. rewrite Z.mul_0_l, app_nil_r.
      rewrite stdout_of_app, Hout1.
      split; [auto|]. split; [split; [discriminate | reflexivity]|].
      split; [discriminate | discriminate].
    + cbn [ret fst snd]. rewrite app_nil_r, Hout1, (Hline eq_refl).
      split; [auto|]. split; [split; [discriminate | reflexivity]|].
      split; [reflexivity | discriminate].
  - change (1 =? RET_ERROR) with false. change (1 =? 0) with false in *.
    cbv iota. cbn [andb] in *.
    rewrite bind_unfold. cbn [ret fst snd]. rewrite Z.mul_1_l, app_nil_r.
    rewrite stdout_of_app, stderr_of_app, Hout1. cbn [app].
    split; [exact Hr2|]. split; [exact Hiff2|]. split.
    + intros Hv. rewrite (Hout2 Hv), (Hline Hv). reflexivity.
    + intros Hneg. specialize (Herr2 Hneg).
      destruct (stderr_of (snd m)); [now elim Herr2|].
      destruct (stderr_of (snd e)); discriminate.
Qed.

(** ** The maps loop *)

(** X12.  The maps loop answers 0 when some entry it lets through is stale
    (a real file, kept by the rules, whose comparison does not answer 0)
    and leaves its result alone otherwise.  In verbose mode it prints one
    line for each stale entry, in stream order; otherwise it prints the
    process identifier once, for the first stale entry, and stops. *)
Theorem maps_loop_reports_stale (fnmatch : string -> string -> Z -> Z) (w : world)
    (flags pid : Z) (pats : list string) (lines : list string) (last : string)
    (res : Z) :
  fst (maps_loop fnmatch w flags pid pats lines last res) =
  (if List.existsb (stale_entry fnmatch w pid pats) (entries lines last) then 0 else res)
  /\ stdout_of (snd (maps_loop fnmatch w flags pid pats lines last res)) =
     List.map (fun map => report_line flags pid (filename map))
       (if flag_set flags FLAG_VERBOSE
        then List.filter (stale_entry fnmatch w pid pats) (entries lines last)
        else List.firstn 1
               (List.filter (stale_entry fnmatch w pid pats) (entries lines last))).
Proof.
  rewrite maps_loop_entries. apply check_entries_report.
Qed.

Lemma check_entries_opened (fnmatch : string -> string -> Z -> Z) (w : world)
    (flags pid : Z) (pats : list string) (maps : list map_info) :
  forall res path,
    In path (opened (snd (check_entries fnmatch w flags pid pats maps res))) ->
    exists map,
      In map maps /\ real_file map = true
      /\ excluded fnmatch pats (filename map) = false
      /\ (path = filename map
          \/ path = PROC_MAP_FILES_PATH pid (start map) (end_ map)).
Proof.
  induction maps as [|map rest IH]; intros res path Hin; [destruct Hin|].
  assert (Hrest : forall r,
             In path (opened (snd (check_entries fnmatch w flags pid pats rest r))) ->
             exists m, In m (map :: rest) /\ real_file m = true
                       /\ excluded fnmatch pats (filename m) = false
                       /\ (path = filename m
                           \/ path = PROC_MAP_FILES_PATH pid (start m) (end_ m))).
  { intros r Hr. destruct (IH r path Hr) as [m [Hm Hrestm]].
    exists m. split; [now right | exact Hrestm]. }
  cbn [check_entries] in Hin. unfold real_file.
  destruct ((inode map =? 0) || (dev_major map =? 0)) eqn:Hreal; [now apply (Hrest res)|].
  destruct (excluded fnmatch pats (filename map)) eqn:Hex; [now apply (Hrest res)|].
  destruct (cmp_files_quiet w (filename map)
              (PROC_MAP_FILES_PATH pid (start map) (end_ map))) as [_ [_ Hopen]].
  rewrite bind_unfold in Hin. cbn [snd] in Hin. rewrite opened_app in Hin.
  apply in_app_or in Hin. destruct Hin as [Hin|Hin].
  - exists map. split; [now left|]. unfold real_file. rewrite Hreal, Hex.
    split; [reflexivity|]. split; [reflexivity|]. now apply Hopen.
  - destruct (fst (cmp_files w (filename map) _) =? 0); [now apply (Hrest res)|].
    destruct (flag_set flags FLAG_VERBOSE).
    + rewrite bind_unfold in Hin. cbn [printf emit fst snd app opened] in Hin.
      now apply (Hrest 0).
    + cbn in Hin. destruct Hin.
Qed.

(** X13.  The maps loop opens files only for entries that stand for a
    real file (inode and device major both non-zero) and that the rules
    keep, and then only the entry's own path and the map_files path of its
    address range: a synthetic or excluded mapping is never read. *)
Theorem maps_loop_opens_only_selected (fnmatch : string -> string -> Z -> Z) (w : world)
    (flags pid : Z) (pats : list string) (lines : list string) (last : string)
    (res : Z) (path : string) :
  In path (opened (snd (maps_loop fnmatch w flags pid pats lines last res))) ->
  exists map,
    In map (entries lines last)
    /\ inode map <> 0 /\ dev_major map <> 0
    /\ excluded fnmatch pats (filename map) = false
    /\ (path = filename map \/ path = PROC_MAP_FILES_PATH pid (start map) (end_ map)).
Proof.
  rewrite maps_loop_entries. intros Hin.
  destruct (check_entries_opened fnmatch w flags pid pats _ res path Hin)
    as [map [Hmap [Hreal [Hex Hpath]]]].
  exists map. unfold real_file in Hreal.
  apply negb_true_iff, orb_false_iff in Hreal. destruct Hreal as [Hi Hd].
  apply Z.eqb_neq in Hi, Hd. auto.
Qed.

Lemma maps_loop_opens_only_selected_witness :
  exists map,
    In map (entries [maps_line "r-xp" "/usr/lib/libfoo.so.1.apk-new (deleted)"] EmptyString)
    /\ inode map <> 0 /\ dev_major map <> 0
    /\ excluded Glob.fnmatch ["/usr/lib/*"] (filename map) = false
    /\ ("/usr/lib/libfoo.so.1"%string = filename map
        \/ "/usr/lib/libfoo.so.1"%string
           = PROC_MAP_FILES_PATH 42 (start map) (end_ map)).
Proof.
  apply (maps_loop_opens_only_selected Glob.fnmatch staged_upgrade FLAG_VERBOSE 42
           ["/usr/lib/*"] _ EmptyString 1).
  vm_compute. left. reflexivity.
Defined.

(** ** Edge cases of the executable check *)

(** X14.  When the path of the replacement under the root of the process
    would not fit [PATH_MAX], the executable check compares nothing: it
    logs the path as too long, then reports the process as stale and
    answers 0, without opening any file. *)
Theorem exe_too_long_is_reported (fnmatch : string -> string -> Z -> Z) (w : world)
    (flags pid : Z) (pats : list string) (raw : string) :
  sys_readlink w (PROC_EXE_PATH pid) = Ok (raw ++ " (deleted)")%string ->
  strlen (raw ++ " (deleted)") < PATH_MAX ->
  excluded fnmatch pats (snd (str_chomp raw ".apk-new")) = false ->
  PATH_MAX <= strlen (PROC_ROOT_PATH pid (snd (str_chomp raw ".apk-new"))) ->
  proc_has_replaced_exe fnmatch w flags pid pats =
  (0, [CallReadlink (PROC_EXE_PATH pid);
       Stderr (PROGNAME ++ ": "
               ++ ("too long file path: "
                   ++ PROC_ROOT_PATH pid (snd (str_chomp raw ".apk-new")))
               ++ nl)%string;
       Stdout (report_line flags pid (snd (str_chomp raw ".apk-new")))]).
Proof.
  intros Hlink Hlen Hsel Hlong.
  rewrite (exe_deleted_link fnmatch w flags pid pats _ Hlink Hlen). cbv zeta.
  rewrite Hsel.
  replace (PATH_MAX <=? strlen (PROC_ROOT_PATH pid (snd (str_chomp raw ".apk-new"))))
    with true by (symmetry; apply Z.leb_le; lia).
  rewrite orb_true_r. unfold report_line.
  destruct (flag_set flags FLAG_VERBOSE); reflexivity.
Qed.

Lemma exe_too_long_is_reported_witness :
  proc_has_replaced_exe Glob.fnmatch long_exe 0 42 [] =
  (0, [CallReadlink (PROC_EXE_PATH 42);
       Stderr (PROGNAME ++ ": "
               ++ ("too long file path: "
                   ++ PROC_ROOT_PATH 42 (snd (str_chomp long_name ".apk-new")))
               ++ nl)%string;
       Stdout (report_line 0 42 (snd (str_chomp long_name ".apk-new")))]).
Proof.
  apply (exe_too_long_is_reported Glob.fnmatch long_exe 0 42 [] long_name).
  - vm_compute. reflexivity.
  - vm_compute. reflexivity.
  - reflexivity.
  - vm_compute. discriminate.
Defined.

(** X15.  A process that is gone is never an error: when its executable
    link cannot be read and its maps stream cannot be opened, whatever the
    two error numbers and the flags, and [kill(pid, 0)] finds no such
    process, [scan_proc] answers 1 and writes nothing to either stream. *)
Theorem vanished_process_is_benign (fnmatch : string -> string -> Z -> Z) (w : world)
    (flags pid : Z) (pats : list string) (e1 e2 : errno) :
  sys_readlink w (PROC_EXE_PATH pid) = Fail e1 ->
  sys_fopen w (PROC_MAPS_PATH pid) = Fail e2 ->
  sys_kill0 w pid = Fail ESRCH ->
  fst (scan_proc fnmatch w flags pid pats) = 1
  /\ stdout_of (snd (scan_proc fnmatch w flags pid pats)) = []
  /\ stderr_of (snd (scan_proc fnmatch w flags pid pats)) = [].
Proof.
  intros Hlink Hopen Hkill.
  unfold scan_proc, proc_has_replaced_exe, proc_maps_replaced_files,
    resolve_link, proc_exists.
  change (PATH_MAX - 1 <=? 0) with false. cbv iota.
  rewrite Hlink, Hopen, Hkill.
  cbn [bind emit ret fst snd app]. change (RET_ERROR <? 0) with true. cbv iota.
  destruct (errno_is (Some e1) EACCES && flag_set flags FLAG_IGNORE_EACCES);
    destruct (errno_eqb e2 EACCES && flag_set flags FLAG_IGNORE_EACCES);
    cbn; auto.
Qed.

Lemma vanished_process_is_benign_witness :
  fst (scan_proc Glob.fnmatch gone_proc FLAG_VERBOSE 42 []) = 1
  /\ stdout_of (snd (scan_proc Glob.fnmatch gone_proc FLAG_VERBOSE 42 [])) = []
  /\ stderr_of (snd (scan_proc Glob.fnmatch gone_proc FLAG_VERBOSE 42 [])) = [].
Proof.
  apply (vanished_process_is_benign Glob.fnmatch gone_proc FLAG_VERBOSE 42 []
           ENOENT ENOENT); reflexivity.
Defined.

(** ** The two scans *)

Lemma next_pid_dir_pids (proc_dir : list string) :
  (fst (next_pid proc_dir) = -1 /\ dir_pids proc_dir = [])
  \/ (fst (next_pid proc_dir) <> -1
      /\ dir_pids proc_dir = fst (next_pid proc_dir) :: dir_pids (snd (next_pid proc_dir))).
Proof.
  induction proc_dir as [|d rest IH]; [left; split; reflexivity|].
  cbn [next_pid dir_pids].
  destruct (str_to_uint d =? -1) eqn:Hd; cbn [negb fst snd]; [exact IH|].
  apply Z.eqb_neq in Hd. right. split; [exact Hd | reflexivity].
Qed.

(** What one turn of the full-scan loop leaves in the trace for [pid]. *)
Lemma scan_all_from_walk (fnmatch : string -> string -> Z -> Z) (w : world)
    (flags : Z) (pats : list string) (dir : list string) :
  forall status,
    scan_all_from fnmatch w flags pats dir status =
    (if List.existsb
          (fun pid => negb (fst (is_kernel_proc w pid))
                      && (fst (scan_proc fnmatch w flags pid pats) <? 0))
          (dir_pids dir)
     then EXIT_FAILURE else status,
     List.flat_map
       (fun pid => snd (is_kernel_proc w pid)
                   ++ (if fst (is_kernel_proc w pid) then []
                       else snd (scan_proc fnmatch w flags pid pats)))
       (dir_pids dir)).
Proof.
  induction dir as [|d rest IH]; intros status.
  - now rewrite (scan_all_from_next fnmatch w flags pats [] status (-1) [] eq_refl).
  - cbn [dir_pids]. destruct (str_to_uint d =? -1) eqn:Hd; cbn [negb].
    + destruct (next_pid rest) as [pid dir'] eqn:Hnext.
      assert (Hnext' : next_pid (d :: rest) = (pid, dir'))
        by (cbn [next_pid]; rewrite Hd; exact Hnext).
      rewrite (scan_all_from_next fnmatch w flags pats _ status _ _ Hnext').
      rewrite <- (scan_all_from_next fnmatch w flags pats _ status _ _ Hnext).
      apply IH.
    + assert (Hnext : next_pid (d :: rest) = (str_to_uint d, rest))
        by (cbn [next_pid]; now rewrite Hd).
      rewrite (scan_all_from_next fnmatch w flags pats _ status _ _ Hnext), Hd.
      rewrite bind_unfold. cbn [List.existsb List.flat_map].
      destruct (fst (is_kernel_proc w (str_to_uint d))); cbn [negb andb orb].
      * rewrite IH. cbn [fst snd]. now rewrite app_nil_r.
      * rewrite bind_unfold, IH. cbn [fst snd]. rewrite app_assoc.
        destruct (fst (scan_proc fnmatch w flags (str_to_uint d) pats) <? 0);
          cbn [orb]; [|reflexivity].
        now destruct (List.existsb _ (dir_pids rest)).
Qed.

(** X16.  A full scan that finds the process directory and a first
    identifier in it walks the identifiers that follow the first, in
    directory order: each is probed with [is_kernel_proc], the kernel
    processes are passed over and the others scanned; a negative answer of
    [scan_proc] makes the status [EXIT_FAILURE] without stopping the
    walk. *)
Theorem full_scan_walks_stream (fnmatch : string -> string -> Z -> Z) (w : world)
    (flags : Z) (pats : list string) (dir : list string) (pid : Z) (pids : list Z) :
  sys_opendir w PROCFS_PATH = Ok dir ->
  dir_pids dir = pid :: pids ->
  scan_all_procs fnmatch w flags pats =
  (if List.existsb
        (fun p => negb (fst (is_kernel_proc w p))
                  && (fst (scan_proc fnmatch w flags p pats) <? 0)) pids
   then EXIT_FAILURE else EXIT_SUCCESS,
   CallOpendir PROCFS_PATH ::
   List.flat_map
     (fun p => snd (is_kernel_proc w p)
               ++ (if fst (is_kernel_proc w p) then []
                   else snd (scan_proc fnmatch w flags p pats)))
     pids).
Proof.
  intros Hdir Hpids. unfold scan_all_procs. rewrite Hdir.
  destruct (next_pid_dir_pids dir) as [[_ Hnone]|[Hfirst Hsome]]; [congruence|].
  rewrite Hpids in Hsome. injection Hsome as Hpid Hrest.
  destruct (next_pid dir) as [p dir'] eqn:Hnext. cbn [fst snd] in *.
  apply Z.eqb_neq in Hfirst. rewrite Hfirst.
  rewrite scan_all_from_walk, <- Hrest. reflexivity.
Qed.

Lemma full_scan_walks_stream_witness :
  scan_all_procs Glob.fnmatch two_procs 0 [] =
  (if List.existsb
        (fun p => negb (fst (is_kernel_proc two_procs p))
                  && (fst (scan_proc Glob.fnmatch two_procs 0 p []) <? 0)) [42]
   then EXIT_FAILURE else EXIT_SUCCESS,
   CallOpendir PROCFS_PATH ::
   List.flat_map
     (fun p => snd (is_kernel_proc two_procs p)
               ++ (if fst (is_kernel_proc two_procs p) then []
                   else snd (scan_proc Glob.fnmatch two_procs 0 p [])))
     [42]).
Proof.
  apply (full_scan_walks_stream Glob.fnmatch two_procs 0 []
           ["."; ".."; "cpuinfo"; "1"; "42"] 1 [42]); reflexivity.
Defined.

(** X17.  A full scan ends in failure before examining any process when
    the process directory cannot be opened, and when it lists no process
    identifier at all; each time the reason is logged. *)
Theorem full_scan_without_processes (fnmatch : string -> string -> Z -> Z) (w : world)
    (flags : Z) (pats : list string) :
  (forall e, sys_opendir w PROCFS_PATH = Fail e ->
             scan_all_procs fnmatch w flags pats =
             (EXIT_FAILURE,
              [CallOpendir PROCFS_PATH;
               Stderr (PROGNAME ++ ": " ++ (PROCFS_PATH ++ ": " ++ strerror e) ++ nl)%string]))
  /\ (forall dir, sys_opendir w PROCFS_PATH = Ok dir -> dir_pids dir = [] ->
                  scan_all_procs fnmatch w flags pats =
                  (EXIT_FAILURE,
                   [CallOpendir PROCFS_PATH;
                    Stderr (PROGNAME ++ ": " ++ "no processes found!" ++ nl)%string])).
Proof.
  split.
  - intros e He. unfold scan_all_procs. now rewrite He.
  - intros dir Hdir Hnone. unfold scan_all_procs. rewrite Hdir.
    destruct (next_pid_dir_pids dir) as [[Hfirst _]|[_ Hsome]]; [|congruence].
    destruct (next_pid dir) as [p dir']. cbn [fst] in Hfirst. subst p. reflexivity.
Qed.

Lemma full_scan_without_processes_witness :
  scan_all_procs Glob.fnmatch empty_files 0 [] =
  (EXIT_FAILURE,
   [CallOpendir PROCFS_PATH;
    Stderr (PROGNAME ++ ": " ++ (PROCFS_PATH ++ ": " ++ strerror ENOENT) ++ nl)%string])
  /\ scan_all_procs Glob.fnmatch
       (table_world 0 [] [] [] [] [] [("/proc", Ok ["."; ".."; "cpuinfo"; "self"])]) 0 [] =
     (EXIT_FAILURE,
      [CallOpendir PROCFS_PATH;
       Stderr (PROGNAME ++ ": " ++ "no processes found!" ++ nl)%string]).
Proof.
  split.
  - apply (proj1 (full_scan_without_processes Glob.fnmatch empty_files 0 []) ENOENT).
    reflexivity.
  - apply (proj2 (full_scan_without_processes Glob.fnmatch _ 0 [])
             ["."; ".."; "cpuinfo"; "self"]); reflexivity.
Defined.

(** ** The command line, further *)

Lemma getopt_arg_exit (cs : string) (next : option string) (flags : Z)
    (pats : list string) (status : Z) (t : list event) :
  getopt_arg cs next flags pats = (OptExit status, t) ->
  List.existsb is_call t = false
  /\ ((status = EXIT_SUCCESS /\ stderr_of t = [])
      \/ (status = EXIT_WRONG_USAGE /\ stdout_of t = [] /\ stderr_of t <> [])).
Proof.
  revert flags. induction cs as [|c r IH]; intros flags H; cbn [getopt_arg] in H.
  - inversion H.
  - destruct (Ascii.eqb c "f").
    { destruct r; [destruct next|]; inversion H; subst.
      cbn. split; [reflexivity|]. right. repeat split; discriminate. }
    destruct (Ascii.eqb c "v"); [now apply (IH _ H)|].
    destruct (Ascii.eqb c "h").
    { inversion H; subst. cbn. split; [reflexivity|]. left. split; reflexivity. }
    destruct (Ascii.eqb c "V"); inversion H; subst; cbn.
    + split; [reflexivity|]. left. split; reflexivity.
    + split; [reflexivity|]. right. repeat split; discriminate.
Qed.

Lemma getopt_loop_exit_aux (args : list string) :
  (forall flags pats status ops t,
      getopt_loop args flags pats = ((OptExit status, ops), t) ->
      List.existsb is_call t = false
      /\ ((status = EXIT_SUCCESS /\ stderr_of t = [])
          \/ (status = EXIT_WRONG_USAGE /\ stdout_of t = [] /\ stderr_of t <> [])))
  /\ (forall flags pats status ops t,
      getopt_loop (List.tl args) flags pats = ((OptExit status, ops), t) ->
      List.existsb is_call t = false
      /\ ((status = EXIT_SUCCESS /\ stderr_of t = [])
          \/ (status = EXIT_WRONG_USAGE /\ stdout_of t = [] /\ stderr_of t <> []))).
Proof.
  induction args as [|arg rest [IH1 IH2]].
  - split; intros flags pats status ops t H; cbn in H; inversion H.
  - split; [|exact IH1].
    intros flags pats status ops t H. cbn [getopt_loop] in H.
    destruct (option_chars arg) as [cs|]; [|inversion H].
    destruct (cs =? "-")%string; [inversion H|].
    destruct (getopt_arg cs (hd_error rest) flags pats) as [o t1] eqn:Harg.
    rewrite bind_pair in H.
    destruct o as [st | f1 p1 took1].
    + cbn [ret fst snd] in H. rewrite app_nil_r in H. inversion H; subst.
      now apply (getopt_arg_exit _ _ _ _ _ _ Harg).
    + apply getopt_arg_next in Harg. destruct Harg as [-> _]. cbn [app] in H.
      destruct took1, rest as [|b rest'];
        rewrite <- io_eta in H; eauto.
Qed.

Lemma scan_procs_from_range (fnmatch : string -> string -> Z -> Z) (w : world)
    (flags : Z) (pats : list string) (pids : list Z) :
  forall status,
    fst (scan_procs_from fnmatch w flags pids pats status) = status
    \/ fst (scan_procs_from fnmatch w flags pids pats status) = EXIT_FAILURE.
Proof.
  induction pids as [|pid rest IH]; intros status; [now left|].
  cbn [scan_procs_from]. destruct (pid =? -1); [now left|].
  rewrite bind_unfold. cbn [fst].
  destruct (fst (scan_proc fnmatch w flags pid pats) <? 0).
  - destruct (IH EXIT_FAILURE) as [H|H]; right; exact H.
  - apply IH.
Qed.

Lemma scan_all_procs_range (fnmatch : string -> string -> Z -> Z) (w : world)
    (flags : Z) (pats : list string) :
  fst (scan_all_procs fnmatch w flags pats) = EXIT_SUCCESS
  \/ fst (scan_all_procs fnmatch w flags pats) = EXIT_FAILURE.
Proof.
  unfold scan_all_procs.
  destruct (sys_opendir w PROCFS_PATH) as [dir|e]; [|now right].
  destruct (next_pid dir) as [pid dir'].
  destruct (pid =? -1); [now right|].
  rewrite bind_unfold, scan_all_from_walk. cbn [fst].
  destruct (List.existsb _ _); [now right | now left].
Qed.

(** X18.  [main] exits with 0, 1 or 100.  It exits with 100, the usage
    status, only before any scan: such a run has made no call into the
    system and has written nothing to standard output, and it has said
    why on standard error. *)
Theorem main_exit_status (fnmatch : string -> string -> Z -> Z) (w : world)
    (argv : list string) :
  let r := main fnmatch w argv in
  (fst r = EXIT_SUCCESS \/ fst r = EXIT_FAILURE \/ fst r = EXIT_WRONG_USAGE)
  /\ (fst r = EXIT_WRONG_USAGE ->
      List.existsb is_call (snd r) = false
      /\ stdout_of (snd r) = []
      /\ stderr_of (snd r) <> []).
Proof.
  cbv zeta.
  destruct (getopt_loop (List.tl argv) 0 []) as [[o ops] t] eqn:Hopt.
  destruct o as [status | flags pats took].
  - unfold main. rewrite Hopt, bind_pair. cbn [ret fst snd]. rewrite app_nil_r.
    destruct (proj1 (getopt_loop_exit_aux _) _ _ _ _ _ Hopt)
      as [Hcalls [[-> Herr]|[-> [Hout Herr]]]].
    + split; [auto | discriminate].
    + split; [auto | auto].
  - rewrite (main_after_options fnmatch w argv _ _ _ _ _ Hopt).
    destruct ops as [|a rest].
    + destruct (scan_all_procs_range fnmatch w
                  (if negb (geteuid w =? 0) then Z.lor flags FLAG_IGNORE_EACCES else flags)
                  pats) as [H|H]; rewrite H; (split; [auto | discriminate]).
    + destruct (read_pids (a :: rest)) as [bad|pids].
      * cbn. split; [auto|]. intros _. repeat split; discriminate.
      * unfold scan_procs.
        destruct (scan_procs_from_range fnmatch w flags pats (pids ++ [-1]) EXIT_SUCCESS)
          as [H|H]; rewrite H; (split; [auto | discriminate]).
Qed.

(** X19.  The option loop keeps the patterns given with [-f] in
    command-line order, after those it already holds; each [-f] takes the
    argument that follows it as it is, whatever its first character; the
    flags are left alone and nothing is written.  What follows the last
    pattern is left as the operands. *)
Theorem getopt_collects_patterns (ps : list string) (ops : list string) :
  (ops = [] \/ exists a r, ops = a :: r /\ option_chars a = None) ->
  forall flags pats,
    getopt_loop (List.flat_map (fun p => ["-f"%string; p]) ps ++ ops) flags pats =
    ((OptNext flags (pats ++ ps) false, ops), []).
Proof.
  intros Hops. induction ps as [|p rest IH]; intros flags pats.
  - cbn [List.flat_map app]. rewrite app_nil_r.
    destruct Hops as [->|[a [r [-> Ha]]]]; [reflexivity|].
    cbn [getopt_loop]. now rewrite Ha.
  - cbn [List.flat_map app getopt_loop option_chars].
    change (Ascii.eqb "-" "-") with true. cbv iota.
    change ("f" =? "-")%string with false. cbv iota.
    cbn [hd_error getopt_arg]. change (Ascii.eqb "f" "f") with true. cbv iota.
    rewrite bind_ret_l, IH, <- app_assoc. reflexivity.
Qed.

Lemma getopt_collects_patterns_witness :
  getopt_loop (List.flat_map (fun p => ["-f"%string; p]) ["*.so"; "-odd"; "!/usr/*"]
               ++ ["42"; "7"]) FLAG_VERBOSE ["/lib/*"] =
  ((OptNext FLAG_VERBOSE (["/lib/*"] ++ ["*.so"; "-odd"; "!/usr/*"]) false, ["42"; "7"]),
   []).
Proof.
  apply (getopt_collects_patterns ["*.so"; "-odd"; "!/usr/*"] ["42"; "7"]).
  right. exists "42"%string, ["7"%string]. split; reflexivity.
Defined.

(** ** The scanned fields *)

Lemma xdigit_val_range (c : ascii) (d : Z) : xdigit_val c = Some d -> 0 <= d <= 15.
Proof.
  unfold xdigit_val.
  destruct ((48 <=? nat_of_ascii c)%nat && (nat_of_ascii c <=? 57)%nat) eqn:H1.
  { apply andb_true_iff in H1. destruct H1 as [Ha Hb].
    apply Nat.leb_le in Ha, Hb. intros E; inversion E; lia. }
  destruct ((97 <=? nat_of_ascii c)%nat && (nat_of_ascii c <=? 102)%nat) eqn:H2.
  { apply andb_true_iff in H2. destruct H2 as [Ha Hb].
    apply Nat.leb_le in Ha, Hb. intros E; inversion E; lia. }
  destruct ((65 <=? nat_of_ascii c)%nat && (nat_of_ascii c <=? 70)%nat) eqn:H3;
    [|discriminate].
  apply andb_true_iff in H3. destruct H3 as [Ha Hb].
  apply Nat.leb_le in Ha, Hb. intros E; inversion E; lia.
Qed.

Lemma dec_val_range (c : ascii) (d : Z) : dec_val c = Some d -> 0 <= d <= 15.
Proof.
  unfold dec_val. destruct (isdigit c) eqn:Hc; [|discriminate].
  intros E; inversion E; subst. pose proof (isdigit_val c Hc). lia.
Qed.

Lemma scan_digits_nonneg (dv : ascii -> option Z) (base : Z) (s : string) :
  (forall c d, dv c = Some d -> 0 <= d <= 15) -> 0 <= base ->
  forall acc, 0 <= acc -> 0 <= fst (scan_digits dv base s acc).
Proof.
  intros Hdv Hbase. induction s as [|c r IH]; intros acc Hacc; cbn [scan_digits fst];
    [exact Hacc|].
  destruct (dv c) as [d|] eqn:Hc; [|exact Hacc].
  apply IH. pose proof (Hdv c d Hc). nia.
Qed.

Lemma scan_uint_nonneg (dv : ascii -> option Z) (base : Z) (s : string)
    (neg : bool) (v : Z) (r : string) :
  (forall c d, dv c = Some d -> 0 <= d <= 15) -> 0 <= base ->
  scan_uint dv base s = Some (neg, v, r) -> 0 <= v.
Proof.
  intros Hdv Hbase. unfold scan_uint.
  destruct (scan_sign (skip_space s)) as [neg' s1].
  destruct (skip_0x base s1) as [|c s'] eqn:Hs; [discriminate|].
  destruct (dv c); [|discriminate].
  pose proof (scan_digits_nonneg dv base (String c s') Hdv Hbase 0 (Z.le_refl 0)) as H.
  destruct (scan_digits dv base (String c s') 0) as [v' r']. cbn [fst] in H.
  intros E; inversion E; subst. exact H.
Qed.

Lemma strtoul_value_range (neg : bool) (v : Z) :
  0 <= v -> 0 <= strtoul_value neg v <= ULONG_MAX.
Proof.
  intros Hv. unfold strtoul_value.
  destruct (ULONG_MAX <? v) eqn:Hbig; [unfold ULONG_MAX; lia|].
  apply Z.ltb_ge in Hbig. destruct neg; [|lia].
  assert (H : 0 <= (- v) mod 2 ^ 64 < 18446744073709551616)
    by (apply (Z.mod_pos_bound (- v) (2 ^ 64)); reflexivity).
  unfold ULONG_MAX. lia.
Qed.

Lemma strtoul_value_plain (v : Z) : strtoul_value false v = Z.min v ULONG_MAX.
Proof.
  unfold strtoul_value. destruct (ULONG_MAX <? v) eqn:Hbig.
  - apply Z.ltb_lt in Hbig. now rewrite Z.min_r by lia.
  - apply Z.ltb_ge in Hbig. now rewrite Z.min_l by lia.
Qed.

Lemma conv_lx_range (s : string) (v : Z) (r : string) :
  conv_lx s = Some (v, r) -> 0 <= v <= ULONG_MAX.
Proof.
  unfold conv_lx.
  destruct (scan_uint xdigit_val 16 s) as [[[neg v'] r']|] eqn:H; [|discriminate].
  apply scan_uint_nonneg in H; [|exact xdigit_val_range | lia].
  intros E; inversion E; subst. now apply strtoul_value_range.
Qed.

Lemma conv_lu_range (s : string) (v : Z) (r : string) :
  conv_lu s = Some (v, r) -> 0 <= v <= ULONG_MAX.
Proof.
  unfold conv_lu.
  destruct (scan_uint dec_val 10 s) as [[[neg v'] r']|] eqn:H; [|discriminate].
  apply scan_uint_nonneg in H; [|exact dec_val_range | lia].
  intros E; inversion E; subst. now apply strtoul_value_range.
Qed.

Lemma conv_x_range (s : string) (v : Z) (r : string) :
  conv_x s = Some (v, r) -> 0 <= v < 2 ^ 32.
Proof.
  unfold conv_x. destruct (scan_uint xdigit_val 16 s) as [[[neg v'] r']|]; [|discriminate].
  intros E; inversion E; subst. apply Z.mod_pos_bound. lia.
Qed.

Lemma scan_set_forall (p : ascii -> bool) (width : nat) (s : string) :
  string_forall p (fst (scan_set p width s)) = true.
Proof.
  revert s. induction width as [|n IH]; intros s; cbn [scan_set]; [reflexivity|].
  destruct s as [|c r]; [reflexivity|].
  destruct (p c) eqn:Hc; [|reflexivity].
  specialize (IH r). destruct (scan_set p n r). cbn [fst string_forall] in *.
  now rewrite Hc, IH.
Qed.

Lemma conv_set_spec (p : ascii -> bool) (width : nat) (s a b : string) :
  conv_set p width s = Some (a, b) ->
  a <> EmptyString /\ (String.length a <= width)%nat /\ string_forall p a = true.
Proof.
  unfold conv_set.
  pose proof (scan_set_width p width s) as Hw.
  pose proof (scan_set_forall p width s) as Hp.
  destruct (scan_set p width s) as [x y]. cbn [fst] in *.
  destruct x; intros E; inversion E; subst.
  split; [discriminate | split; assumption].
Qed.

(** X20.  Every entry the line scanner lets through has fields that fit
    the struct: the two addresses and the inode are within [unsigned
    long], the device major within [unsigned int], and the filename is
    not empty, holds no newline and has at most [PATH_MAX] characters, so
    that it fits [filename] and [last_filename] with its terminating
    NUL. *)
Theorem line_entry_fields (buf : string) (map : map_info) :
  line_entry buf = Some map ->
  0 <= start map <= ULONG_MAX
  /\ 0 <= end_ map <= ULONG_MAX
  /\ 0 <= dev_major map < 2 ^ 32
  /\ 0 <= inode map <= ULONG_MAX
  /\ 1 <= strlen (filename map) <= PATH_MAX
  /\ string_forall not_newline (filename map) = true.
Proof.
  unfold line_entry.
  destruct (str_chomp buf (" (deleted)" ++ nl)) as [deleted b].
  destruct deleted; [|discriminate]. cbn [negb].
  destruct (sscanf_map (snd (str_chomp b ".apk-new"))) as [n m] eqn:Hscan.
  destruct (n <? 5) eqn:Hn; [discriminate|]. apply Z.ltb_ge in Hn.
  intros E; inversion E; subst m. clear E.
  revert Hscan. unfold sscanf_map.
  repeat match goal with
         | |- context [match ?x with _ => _ end] =>
           match type of x with
           | option _ => destruct x as [?|] eqn:?
           | prod _ _ => destruct x as [? ?] eqn:?
           | string => destruct x eqn:?
           end
         end;
    intros E; inversion E; subst; unfold EOF in *; try lia.
  cbn [start end_ dev_major inode filename].
  repeat match goal with
         | H : conv_lx _ = Some _ |- _ => apply conv_lx_range in H
         | H : conv_lu _ = Some _ |- _ => apply conv_lu_range in H
         | H : conv_x _ = Some _ |- _ => apply conv_x_range in H
         | H : conv_set not_newline _ _ = Some _ |- _ => apply conv_set_spec in H
         end.
  match goal with
  | H : ?f <> EmptyString /\ _ /\ _ |- _ =>
    destruct H as [Hne [Hlen Hnl]];
    assert (Hpos : (1 <= String.length f)%nat)
      by (destruct f; [now elim Hne | cbn; lia])
  end.
  change (Z.to_nat PATH_MAX) with 4096%nat in Hlen.
  unfold strlen, PATH_MAX.
  repeat split; try lia; assumption.
Qed.

Lemma line_entry_fields_witness :
  0 <= start libfoo <= ULONG_MAX
  /\ 0 <= end_ libfoo <= ULONG_MAX
  /\ 0 <= dev_major libfoo < 2 ^ 32
  /\ 0 <= inode libfoo <= ULONG_MAX
  /\ 1 <= strlen (filename libfoo) <= PATH_MAX
  /\ string_forall not_newline (filename libfoo) = true.
Proof.
  apply (line_entry_fields (maps_line "r-xp" "/usr/lib/libfoo.so.1 (deleted)") libfoo).
  vm_compute. reflexivity.
Defined.

(** ** The size of printed numbers *)







Lemma hval_of_lu (d d' : Hexadecimal.uint) :
  hval d (Z.of_N (HexadecimalPos.Unsigned.of_lu d')) =
  Z.of_N (HexadecimalPos.Unsigned.of_lu (Hexadecimal.revapp d d')).
Proof.
  revert d'. induction d; intros d'; cbn [hval Hexadecimal.revapp]; [reflexivity|..];
    rewrite <- IHd; f_equal; cbn [HexadecimalPos.Unsigned.of_lu]; lia.
Qed.

Lemma hval_to_uint (n : N) : hval (N.to_hex_uint n) 0 = Z.of_N n.
Proof.
  change 0 with (Z.of_N (HexadecimalPos.Unsigned.of_lu Hexadecimal.Nil)).
  rewrite hval_of_lu.
  change (Hexadecimal.revapp (N.to_hex_uint n) Hexadecimal.Nil)
    with (Hexadecimal.rev (N.to_hex_uint n)).
  rewrite <- HexadecimalPos.Unsigned.of_uint_alt.
  change (Pos.of_hex_uint (N.to_hex_uint n)) with (N.of_hex_uint (N.to_hex_uint n)).
  now rewrite HexadecimalN.Unsigned.of_to.
Qed.


Lemma to_hex_uint_nonnil (n : N) : N.to_hex_uint n <> Hexadecimal.Nil.
Proof.
  destruct n as [|p]; [discriminate|].
  apply HexadecimalPos.Unsigned.to_uint_nonnil.
Qed.



Lemma nilzero_nilempty_hex (n : N) :
  HexadecimalString.NilZero.string_of_uint (N.to_hex_uint n) =
  HexadecimalString.NilEmpty.string_of_uint (N.to_hex_uint n).
Proof.
  pose proof (to_hex_uint_nonnil n) as H.
  unfold HexadecimalString.NilZero.string_of_uint.
  destruct (N.to_hex_uint n); [now elim H | reflexivity ..].
Qed.




(** ** Lines of the shape the kernel writes *)

Lemma scan_digits_field (dv : ascii -> option Z) (base : Z) (digits rest : string) :
  string_forall (is_digit_of dv) digits = true ->
  starts_with (is_digit_of dv) rest = false ->
  forall acc,
    scan_digits dv base (digits ++ rest) acc = (fst (scan_digits dv base digits acc), rest).
Proof.
  intros Hd Hrest. induction digits as [|c r IH]; intros acc.
  - cbn [append scan_digits fst]. destruct rest as [|c r]; [reflexivity|].
    cbn [scan_digits]. cbn [starts_with] in Hrest. unfold is_digit_of in Hrest.
    destruct (dv c); [discriminate | reflexivity].
  - cbn [string_forall] in Hd. apply andb_true_iff in Hd. destruct Hd as [Hc Hr].
    cbn [append scan_digits]. unfold is_digit_of in Hc.
    destruct (dv c) as [d|]; [|discriminate]. now apply IH.
Qed.

Lemma xdigit_plain (c : ascii) : is_digit_of xdigit_val c = true -> plain_char c = true.
Proof.
  destruct c as [[] [] [] [] [] [] [] []]; intros H; try discriminate H; reflexivity.
Qed.

Lemma decdigit_plain (c : ascii) : is_digit_of dec_val c = true -> plain_char c = true.
Proof.
  destruct c as [[] [] [] [] [] [] [] []]; intros H; try discriminate H; reflexivity.
Qed.

Lemma plain_char_spec (c : ascii) :
  plain_char c = true ->
  isspace c = false /\ Ascii.eqb c "-" = false /\ Ascii.eqb c "+" = false
  /\ is_x c = false.
Proof.
  unfold plain_char. intros H.
  repeat (apply andb_true_iff in H; destruct H as [H ?]).
  repeat split; now apply negb_true_iff.
Qed.

(** A numeric conversion on input that starts with a digit and has no
    prefix: neither sign nor prefix is taken, the digits are read. *)
Lemma scan_uint_plain (dv : ascii -> option Z) (base : Z) (c : ascii) (r : string) :
  plain_char c = true -> is_digit_of dv c = true -> starts_with is_x r = false ->
  scan_uint dv base (String c r) =
  Some (false, fst (scan_digits dv base (String c r) 0),
        snd (scan_digits dv base (String c r) 0)).
Proof.
  intros Hp Hc Hx. destruct (plain_char_spec c Hp) as [Hsp [Hminus [Hplus _]]].
  unfold scan_uint. cbn [skip_space]. rewrite Hsp.
  unfold scan_sign. rewrite Hminus, Hplus.
  assert (H0x : skip_0x base (String c r) = String c r).
  { unfold skip_0x. destruct r as [|c1 r1]; [reflexivity|].
    cbn [starts_with] in Hx. rewrite Hx, andb_false_r. reflexivity. }
  rewrite H0x. unfold is_digit_of in Hc. destruct (dv c); [|discriminate].
  now destruct (scan_digits dv base (String c r) 0).
Qed.

(** A numeric conversion on a field of digits followed by something else,
    with or without a blank in front. *)
Lemma scan_uint_field (dv : ascii -> option Z) (base : Z) (digits rest : string) :
  (forall c, is_digit_of dv c = true -> plain_char c = true) ->
  digits <> EmptyString ->
  string_forall (is_digit_of dv) digits = true ->
  starts_with (is_digit_of dv) rest = false ->
  starts_with is_x rest = false ->
  scan_uint dv base (digits ++ rest) = Some (false, field_value dv base digits, rest)
  /\ scan_uint dv base (skip_space (String " " (digits ++ rest)))
     = Some (false, field_value dv base digits, rest).
Proof.
  intros Hsp Hne Hd Hrest Hx.
  assert (Hplain : scan_uint dv base (digits ++ rest)
                   = Some (false, field_value dv base digits, rest)).
  { unfold field_value.
    pose proof (scan_digits_field dv base _ _ Hd Hrest 0) as Hscan.
    destruct digits as [|c r]; [now elim Hne|].
    pose proof Hd as Hd'. cbn [string_forall] in Hd'.
    apply andb_true_iff in Hd'. destruct Hd' as [Hc Hr].
    cbn [append] in Hscan |- *.
    rewrite (scan_uint_plain dv base c (r ++ rest) (Hsp c Hc) Hc).
    - now rewrite Hscan.
    - destruct r as [|c1 r1]; [exact Hx|].
      cbn [string_forall] in Hr. apply andb_true_iff in Hr. destruct Hr as [Hc1 _].
      cbn [append starts_with].
      now destruct (plain_char_spec c1 (Hsp c1 Hc1)) as [_ [_ [_ H]]]. }
  split; [exact Hplain|].
  cbn [skip_space]. change (isspace " ") with true. cbv iota.
  destruct digits as [|c r]; [now elim Hne|].
  pose proof Hd as Hd'. cbn [string_forall] in Hd'.
  apply andb_true_iff in Hd'. destruct Hd' as [Hc _].
  cbn [append skip_space].
  destruct (plain_char_spec c (Hsp c Hc)) as [Hspace _]. rewrite Hspace.
  exact Hplain.
Qed.

Lemma scan_set_field (p : ascii -> bool) (a rest : string) (width : nat) :
  string_forall p a = true -> (String.length a <= width)%nat ->
  starts_with p rest = false ->
  scan_set p width (a ++ rest) = (a, rest).
Proof.
  revert width. induction a as [|c r IH]; intros width Ha Hw Hrest.
  - cbn [append]. destruct width; [reflexivity|]. cbn [scan_set].
    destruct rest as [|c r]; [reflexivity|]. cbn [starts_with] in Hrest.
    now rewrite Hrest.
  - cbn [string_forall] in Ha. apply andb_true_iff in Ha. destruct Ha as [Hc Hr].
    destruct width as [|n]; [cbn in Hw; lia|].
    cbn [append scan_set]. rewrite Hc, (IH n Hr); [reflexivity | cbn in Hw; lia | exact Hrest].
Qed.

(** X22.  A line of the shape the kernel writes is scanned into its five
    fields: two hexadecimal addresses joined by a dash, four permission
    characters, a hexadecimal offset, the device as two hexadecimal
    numbers joined by a colon, a decimal inode, one or more blanks, and a
    path without newline of at most [PATH_MAX] characters that does not
    start with a blank.  The path is taken whole, spaces included. *)
Theorem sscanf_map_kernel_line (hs he ho hM hm di pad path : string)
    (p1 p2 p3 p4 : ascii) :
  hs <> EmptyString -> string_forall (is_digit_of xdigit_val) hs = true ->
  he <> EmptyString -> string_forall (is_digit_of xdigit_val) he = true ->
  ho <> EmptyString -> string_forall (is_digit_of xdigit_val) ho = true ->
  hM <> EmptyString -> string_forall (is_digit_of xdigit_val) hM = true ->
  hm <> EmptyString -> string_forall (is_digit_of xdigit_val) hm = true ->
  di <> EmptyString -> string_forall (is_digit_of dec_val) di = true ->
  isspace p1 = false ->
  pad <> EmptyString -> string_forall is_blank pad = true ->
  path <> EmptyString -> string_forall not_newline path = true ->
  starts_with is_blank path = false ->
  (String.length path <= Z.to_nat PATH_MAX)%nat ->
  sscanf_map
    (hs ++ "-" ++ he ++ " " ++ String p1 (String p2 (String p3 (String p4 EmptyString)))
     ++ " " ++ ho ++ " " ++ hM ++ ":" ++ hm ++ " " ++ di ++ pad ++ path)
  = (5, mkmap (Z.min (field_value xdigit_val 16 hs) ULONG_MAX)
              (Z.min (field_value xdigit_val 16 he) ULONG_MAX)
              (Z.min (field_value xdigit_val 16 hM) ULONG_MAX mod 2 ^ 32)
              (Z.min (field_value dec_val 10 di) ULONG_MAX)
              path).
Proof.
  intros Hs1 Hs2 He1 He2 Ho1 Ho2 HM1 HM2 Hm1 Hm2 Hi1 Hi2 Hp1
         Hpad1 Hpad2 Hpath1 Hpath2 Hpath3 Hlen.
  assert (Hpadx : starts_with (is_digit_of dec_val) (pad ++ path) = false).
  { destruct pad as [|c r]; [now elim Hpad1|].
    cbn [string_forall] in Hpad2. apply andb_true_iff in Hpad2.
    destruct Hpad2 as [Hc _]. cbn [append starts_with].
    destruct c as [[] [] [] [] [] [] [] []]; try discriminate Hc; reflexivity. }
  assert (Hpadh : starts_with is_x (pad ++ path) = false).
  { destruct pad as [|c r]; [now elim Hpad1|].
    cbn [string_forall] in Hpad2. apply andb_true_iff in Hpad2.
    destruct Hpad2 as [Hc _]. cbn [append starts_with].
    destruct c as [[] [] [] [] [] [] [] []]; try discriminate Hc; reflexivity. }
  pose proof (fun d r H1 H2 H3 H4 =>
                proj1 (scan_uint_field xdigit_val 16 d r xdigit_plain H1 H2 H3 H4)) as Hx.
  pose proof (fun d r H1 H2 H3 H4 =>
                proj2 (scan_uint_field xdigit_val 16 d r xdigit_plain H1 H2 H3 H4)) as Hxs.
  pose proof (fun d r H1 H2 H3 H4 =>
                proj2 (scan_uint_field dec_val 10 d r decdigit_plain H1 H2 H3 H4)) as Hds.
  unfold sscanf_map, conv_lx, conv_x, conv_lu. cbn [append].
  rewrite (Hx hs) by (assumption || reflexivity).
  cbn [lit]. change (Ascii.eqb "-" "-") with true. cbv iota.
  rewrite (Hx he) by (assumption || reflexivity).
  cbn [skip_space]. change (isspace " ") with true. cbv iota. rewrite Hp1.
  cbn [conv_c].
  rewrite (Hxs ho) by (assumption || reflexivity).
  rewrite (Hxs hM) by (assumption || reflexivity).
  cbn [lit]. change (Ascii.eqb ":" ":") with true. cbv iota.
  rewrite (Hx hm) by (assumption || reflexivity).
  rewrite (Hds di) by assumption.
  unfold conv_set.
  rewrite (scan_set_field is_blank pad path _ Hpad2); [|rewrite length_app; lia | exact Hpath3].
  destruct pad as [|pc pr]; [now elim Hpad1|].
  pose proof (scan_set_field not_newline path EmptyString (Z.to_nat PATH_MAX)
                Hpath2 Hlen eq_refl) as Hset.
  rewrite append_empty_r in Hset. rewrite Hset.
  rewrite !strtoul_value_plain.
  destruct path as [|c r]; [now elim Hpath1 | reflexivity].
Qed.

Lemma sscanf_map_kernel_line_witness :
  sscanf_map
    ("7f1c2a000000" ++ "-" ++ "7f1c2a021000" ++ " "
     ++ String "r" (String "-" (String "x" (String "p" EmptyString)))
     ++ " " ++ "00000000" ++ " " ++ "08" ++ ":" ++ "01" ++ " " ++ "131090"
     ++ "                     " ++ "/usr/lib/my lib.so.1")
  = (5, mkmap (Z.min (field_value xdigit_val 16 "7f1c2a000000") ULONG_MAX)
              (Z.min (field_value xdigit_val 16 "7f1c2a021000") ULONG_MAX)
              (Z.min (field_value xdigit_val 16 "08") ULONG_MAX mod 2 ^ 32)
              (Z.min (field_value dec_val 10 "131090") ULONG_MAX)
              "/usr/lib/my lib.so.1").
Proof.
  apply sscanf_map_kernel_line; try discriminate; try reflexivity.
  apply Nat.leb_le. vm_compute. reflexivity.
Defined.

(** ** Addresses written and read back *)

Lemma scan_hex_uint (d : Hexadecimal.uint) (rest : string) :
  no_xdigit_ahead rest = true ->
  forall acc,
    scan_digits xdigit_val 16 (HexadecimalString.NilEmpty.string_of_uint d ++ rest) acc
    = (hval d acc, rest).
Proof.
  intros Hrest. induction d; intros acc;
    cbn [HexadecimalString.NilEmpty.string_of_uint append scan_digits hval];
    try (match goal with
         | |- context [xdigit_val ?c] =>
           let v := eval vm_compute in (xdigit_val c) in
           change (xdigit_val c) with v
         end; cbv iota; rewrite IHd; f_equal; f_equal; lia).
  destruct rest as [|c r]; [reflexivity|].
  cbn [scan_digits]. cbn [no_xdigit_ahead] in Hrest.
  destruct (xdigit_val c); [discriminate | reflexivity].
Qed.

Lemma hex_digits_uint (d : Hexadecimal.uint) :
  string_forall (is_digit_of xdigit_val)
    (HexadecimalString.NilEmpty.string_of_uint d) = true.
Proof. induction d; cbn [HexadecimalString.NilEmpty.string_of_uint string_forall]; auto. Qed.

(** [%lx] reads a printed address back, whatever follows it that is
    neither a hexadecimal digit nor an [x]. *)
Lemma conv_lx_fmt_lx (v : Z) (rest : string) :
  0 <= v <= ULONG_MAX ->
  starts_with (is_digit_of xdigit_val) rest = false ->
  starts_with is_x rest = false ->
  conv_lx (fmt_lx v ++ rest) = Some (v, rest).
Proof.
  intros Hv Hrest Hx. unfold conv_lx, fmt_lx.
  assert (Hmod : v mod 2 ^ 64 = v)
    by (apply Z.mod_small; unfold ULONG_MAX in Hv; lia).
  rewrite Hmod, nilzero_nilempty_hex.
  set (d := N.to_hex_uint (Z.to_N v)).
  assert (Hne : HexadecimalString.NilEmpty.string_of_uint d <> EmptyString).
  { pose proof (to_hex_uint_nonnil (Z.to_N v)) as H. fold d in H.
    destruct d; [now elim H | discriminate ..]. }
  rewrite (proj1 (scan_uint_field xdigit_val 16 _ rest xdigit_plain Hne
                    (hex_digits_uint d) Hrest Hx)).
  unfold field_value.
  pose proof (scan_hex_uint d EmptyString eq_refl 0) as Hscan.
  rewrite append_empty_r in Hscan. rewrite Hscan. cbn [fst].
  unfold d. rewrite hval_to_uint, Z2N.id by lia.
  rewrite strtoul_value_plain, Z.min_l by lia. reflexivity.
Qed.

(** X23.  An address range printed with [%lx-%lx], as in the map_files
    path, is scanned back by [%lx] as the same two addresses, for all
    addresses within [unsigned long]: the path built for an entry names
    exactly the range scanned from its line. *)
Theorem printed_range_reads_back (start end_ : Z) :
  0 <= start <= ULONG_MAX -> 0 <= end_ <= ULONG_MAX ->
  conv_lx (fmt_lx start ++ "-" ++ fmt_lx end_) = Some (start, ("-" ++ fmt_lx end_)%string)
  /\ lit "-" ("-" ++ fmt_lx end_) = Some (fmt_lx end_)
  /\ conv_lx (fmt_lx end_) = Some (end_, EmptyString).
Proof.
  intros Hs He. split; [|split].
  - apply conv_lx_fmt_lx; [exact Hs | reflexivity ..].
  - reflexivity.
  - rewrite <- (append_empty_r (fmt_lx end_)) at 1.
    apply conv_lx_fmt_lx; [exact He | reflexivity ..].
Qed.

Lemma printed_range_reads_back_witness :
  conv_lx (fmt_lx (start libfoo) ++ "-" ++ fmt_lx (end_ libfoo))
  = Some (start libfoo, ("-" ++ fmt_lx (end_ libfoo))%string)
  /\ lit "-" ("-" ++ fmt_lx (end_ libfoo)) = Some (fmt_lx (end_ libfoo))
  /\ conv_lx (fmt_lx (end_ libfoo)) = Some (end_ libfoo, EmptyString).
Proof.
  apply (printed_range_reads_back (start libfoo) (end_ libfoo));
    split; discriminate.
Defined.

(** ** The verbose product on a sample system *)

(** Process 42 of [stale_exe_broken_maps] under [-v]: the executable check
    answers 0, the mapped-files check [RET_ERROR], and [scan_proc] 0. *)
Lemma scan_proc_verbose_masks_error_witness :
  scan_proc Glob.fnmatch stale_exe_broken_maps FLAG_VERBOSE 42 [] =
  (0,
   snd (proc_has_replaced_exe Glob.fnmatch stale_exe_broken_maps FLAG_VERBOSE 42 [])
   ++ snd (proc_maps_replaced_files Glob.fnmatch stale_exe_broken_maps FLAG_VERBOSE 42 [])).
Proof.
  apply (scan_proc_verbose_masks_error Glob.fnmatch stale_exe_broken_maps FLAG_VERBOSE 42 []);
    reflexivity.
Defined.

(** ** Operands that are no decimal integers *)

Lemma all_digits_junk (digits junk : string) :
  junk <> EmptyString -> no_digit_ahead junk = true ->
  all_digits (digits ++ junk) = false.
Proof.
  intros Hne Hjunk. induction digits as [|c r IH]; cbn [append all_digits].
  - destruct junk as [|c r]; [now elim Hne|].
    cbn [no_digit_ahead] in Hjunk. apply negb_true_iff in Hjunk.
    cbn [all_digits]. now rewrite Hjunk.
  - rewrite IH. apply andb_false_r.
Qed.

Lemma scan_proc_probes_first (fnmatch : string -> string -> Z -> Z) (w : world)
    (flags pid : Z) (pats : list string) :
  exists t,
    snd (scan_proc fnmatch w flags pid pats) = CallReadlink (PROC_EXE_PATH pid) :: t.
Proof.
  unfold scan_proc, proc_has_replaced_exe, resolve_link.
  rewrite !bind_unfold. cbn [snd emit app fst]. eexists. reflexivity.
Qed.

(** C9, where the code departs from it.  An operand made of the decimal
    form of a process identifier between 1 and [INT_MAX] with something
    behind it that does not start with a digit, such as "3x", is no
    decimal integer, and [str_to_uint], the reader the program uses for
    directory names, refuses it.  Yet [atoi] reads it as the identifier:
    [main] does not end with the usage status, but scans that process,
    starting with a [readlink] of its executable link. *)
Theorem operand_with_trailing_characters_is_scanned
    (fnmatch : string -> string -> Z -> Z) (w : world) (prog : string) (pid : Z)
    (junk : string) :
  1 <= pid <= INT_MAX ->
  junk <> EmptyString -> no_digit_ahead junk = true ->
  str_to_uint (fmt_d pid ++ junk) = -1
  /\ atoi (fmt_d pid ++ junk) = pid
  /\ main fnmatch w [prog; (fmt_d pid ++ junk)%string] =
     scan_procs fnmatch w 0 [pid; -1] []
  /\ fst (main fnmatch w [prog; (fmt_d pid ++ junk)%string]) <> EXIT_WRONG_USAGE
  /\ exists t,
       snd (main fnmatch w [prog; (fmt_d pid ++ junk)%string]) =
       CallReadlink (PROC_EXE_PATH pid) :: t.
Proof.
  intros Hpid Hne Hjunk.
  assert (Hatoi : atoi (fmt_d pid ++ junk) = pid)
    by (apply atoi_fmt_d; [unfold INT_MAX in *; lia | exact Hjunk]).
  assert (Hoperand : option_chars (fmt_d pid ++ junk) = None).
  { unfold fmt_d.
    replace (pid <? 0) with false by (symmetry; apply Z.ltb_ge; lia).
    destruct (printed_head (Z.to_N pid)) as [c [r [Hstr Hc]]]. rewrite Hstr.
    destruct (isdigit_plain c Hc) as [_ [Hminus _]].
    unfold option_chars. cbn [append].
    destruct (r ++ junk)%string; [reflexivity|]. now rewrite Hminus. }
  assert (Hmain : main fnmatch w [prog; (fmt_d pid ++ junk)%string] =
                  scan_procs fnmatch w 0 [pid; -1] []).
  { assert (Hopt : getopt_loop (List.tl [prog; (fmt_d pid ++ junk)%string]) 0 []
                   = ((OptNext 0 [] false, [(fmt_d pid ++ junk)%string]), [])).
    { cbn [List.tl getopt_loop]. now rewrite Hoperand. }
    rewrite (main_after_options fnmatch w _ _ _ _ _ _ Hopt).
    cbn [read_pids]. rewrite Hatoi.
    replace (pid <? 1) with false by (symmetry; apply Z.ltb_ge; lia).
    reflexivity. }
  split; [|split; [exact Hatoi | split; [exact Hmain | split]]].
  - rewrite str_to_uint_value, (all_digits_junk _ _ Hne Hjunk), andb_false_r.
    reflexivity.
  - rewrite Hmain. unfold scan_procs.
    destruct (scan_procs_from_range fnmatch w 0 [] [pid; -1] EXIT_SUCCESS) as [H|H];
      rewrite H; discriminate.
  - rewrite Hmain. unfold scan_procs. cbn [scan_procs_from].
    replace (pid =? -1) with false by (symmetry; apply Z.eqb_neq; lia).
    rewrite bind_unfold. cbn [snd].
    destruct (scan_proc_probes_first fnmatch w 0 pid []) as [t Ht]. rewrite Ht.
    eexists. reflexivity.
Qed.

(** C9 on the operand "3x" of the sample system. *)
Lemma operand_with_trailing_characters_is_scanned_witness :
  str_to_uint "3x" = -1
  /\ atoi "3x" = 3
  /\ main Glob.fnmatch two_procs ["procs-need-restart"; "3x"] =
     scan_procs Glob.fnmatch two_procs 0 [3; -1] []
  /\ fst (main Glob.fnmatch two_procs ["procs-need-restart"; "3x"]) <> EXIT_WRONG_USAGE
  /\ exists t,
       snd (main Glob.fnmatch two_procs ["procs-need-restart"; "3x"]) =
       CallReadlink "/proc/3/exe" :: t.
Proof.
  apply (operand_with_trailing_characters_is_scanned Glob.fnmatch two_procs
           "procs-need-restart" 3 "x").
  - unfold INT_MAX. lia.
  - discriminate.
  - reflexivity.
Defined.
